(** * consolidate-templates.py: a shallow embedding and its properties

    The script reads five template files, records duplicate titles and
    duplicate content prefixes, keeps one record per trimmed title, sorts by
    (category, title) and writes a CSV file, a JSON file and a duplicates
    report.  Each stage of [scripts/consolidate-templates.py] is a function
    below; Python exceptions are values of [result]. *)

From Stdlib Require Import ZArith String Ascii.
From stdpp Require Import gmap list sorting lexico.

#[local] Set Warnings "-clear-no-such-hyp".

Local Open Scope Z_scope.

(** ** Python values *)

(** A [str] is a sequence of Unicode code points. *)
Abbreviation pystr := (list N).

Fixpoint str (s : string) : pystr :=
  match s with
  | EmptyString => []
  | String a s' => N_of_ascii a :: str s'
  end.

(** Finite floats are rationals [num/den]; the JSON constants [Infinity],
    [-Infinity] and [NaN] are kept apart. *)
Inductive pyfloat :=
| FFinite (num : Z) (den : positive)
| FInf (negative : bool)
| FNan.

#[local] Unset Elimination Schemes.

(** What [csv.DictReader] and [json.load] hand to the script.  A [VDict]
    lists the items of a dict in insertion order, its keys distinct.  An int
    of a document has at most 4300 digits: [json.load] reads it with [int]
    and raises on a longer literal. *)
Inductive pyval :=
| VNone
| VBool (b : bool)
| VInt (z : Z)
| VFloat (f : pyfloat)
| VStr (s : pystr)
| VList (l : list pyval)
| VDict (d : list (pystr * pyval)).

#[local] Set Elimination Schemes.

Abbreviation pydict := (list (pystr * pyval)).

Inductive exn :=
  ValueError | TypeError | AttributeError | OverflowError | IndexError
| UnicodeEncodeError.

Inductive result (A : Type) :=
| Ok (a : A)
| Raise (e : exn).
Arguments Ok {A} a.
Arguments Raise {A} e.

Global Instance result_ret : MRet result := λ A a, Ok a.
Global Instance result_bind : MBind result := λ A B f m,
  match m with
  | Ok a => f a
  | Raise e => Raise e
  end.
Global Instance result_fmap : FMap result := λ A B f m,
  match m with
  | Ok a => Ok (f a)
  | Raise e => Raise e
  end.

Global Instance exn_eq_dec : EqDecision exn.
Proof. solve_decision. Defined.
Global Instance result_eq_dec `{EqDecision A} : EqDecision (result A).
Proof. solve_decision. Defined.

(** ** Text operations *)

(** [str.isspace] on one code point: the characters [str.strip()] removes. *)
Definition is_space (c : N) : bool :=
  ((9 <=? c) && (c <=? 13) || (28 <=? c) && (c <=? 32) || (c =? 133)
   || (c =? 160) || (c =? 5760) || (8192 <=? c) && (c <=? 8202)
   || (c =? 8232) || (c =? 8233) || (c =? 8239) || (c =? 8287)
   || (c =? 12288))%N.

Fixpoint lstrip (s : pystr) : pystr :=
  match s with
  | c :: s' => if is_space c then lstrip s' else s
  | [] => []
  end.

Definition rstrip (s : pystr) : pystr := reverse (lstrip (reverse s)).

(** [s.strip()] *)
Definition strip (s : pystr) : pystr := rstrip (lstrip s).

(** [v.strip()] on a value read from a record: only [str] has the method. *)
Definition py_strip (v : pyval) : result pystr :=
  match v with
  | VStr s => Ok (strip s)
  | _ => Raise AttributeError
  end.

(** [s1 < s2] on [str]: lexicographic on code points. *)
Fixpoint str_ltb (s1 s2 : pystr) : bool :=
  match s1, s2 with
  | _, [] => false
  | [], _ :: _ => true
  | c1 :: r1, c2 :: r2 => (c1 <? c2)%N || (c1 =? c2)%N && str_ltb r1 r2
  end.

(** [sep.join(l)]: every element has to be a [str]. *)
Fixpoint py_join (sep : pystr) (l : list pyval) : result pystr :=
  match l with
  | [] => Ok []
  | [VStr s] => Ok s
  | VStr s :: l' => r ← py_join sep l'; Ok (s ++ sep ++ r)
  | _ :: _ => Raise TypeError
  end.

(** ** [int(v)] *)

(** The whitespace [int] skips around a literal.  Below 127 it is the six
    characters of the C locale; the separators 28 to 31, which [str.strip]
    removes, are not among them.  From 127 on it is the whitespace of
    [is_space]. *)
Definition is_int_space (c : N) : bool :=
  ((9 <=? c) && (c <=? 13) || (c =? 32) || (127 <=? c) && is_space c)%N.

Fixpoint int_lstrip (s : pystr) : pystr :=
  match s with
  | c :: s' => if is_int_space c then int_lstrip s' else s
  | [] => []
  end.

Definition int_strip (s : pystr) : pystr :=
  reverse (int_lstrip (reverse (int_lstrip s))).

(** The decimal digits beyond ASCII (general category Nd of Unicode 14) come
    in runs of ten consecutive code points for 0 to 9; these are the first
    code points of the runs. *)
Definition decimal_runs : list N :=
  [1632; 1776; 1984; 2406; 2534; 2662; 2790; 2918; 3046; 3174; 3302; 3430;
   3558; 3664; 3792; 3872; 4160; 4240; 6112; 6160; 6470; 6608; 6784; 6800;
   6992; 7088; 7232; 7248; 42528; 43216; 43264; 43472; 43504; 43600; 44016;
   65296; 66720; 68912; 69734; 69872; 69942; 70096; 70384; 70736; 70864;
   71248; 71360; 71472; 71904; 72016; 72784; 73040; 73120; 92768; 92864;
   93008; 120782; 120792; 120802; 120812; 120822; 123200; 123632; 125264;
   130032]%N.

(** The value of a decimal digit of any script. *)
Definition digit_value (c : N) : option Z :=
  if ((48 <=? c) && (c <=? 57))%N then Some (Z.of_N c - 48)
  else match find (λ s, (s <=? c) && (c <? s + 10))%N decimal_runs with
       | Some s => Some (Z.of_N (c - s))
       | None => None
       end.

(** Digits after the first one; a single underscore may sit between two
    digits. *)
Fixpoint digits_from (acc : Z) (ds : pystr) : option Z :=
  match ds with
  | [] => Some acc
  | c :: r =>
      if (c =? 95)%N then
        match r with
        | d :: r' =>
            match digit_value d with
            | Some v => digits_from (10 * acc + v) r'
            | None => None
            end
        | [] => None
        end
      else
        match digit_value c with
        | Some v => digits_from (10 * acc + v) r
        | None => None
        end
  end.

Definition parse_digits (ds : pystr) : option Z :=
  match ds with
  | d :: r =>
      match digit_value d with
      | Some v => digits_from v r
      | None => None
      end
  | [] => None
  end.

(** The interpreter refuses a literal of more digits than its limit
    [sys.int_info.default_max_str_digits]; sign, whitespace and underscores
    do not count. *)
Definition int_max_str_digits : Z := 4300.

Definition digit_count (ds : pystr) : Z :=
  Z.of_nat (length (filter (λ c, c ≠ 95%N) ds)).

(** [int(s)] for a [str], base ten: surrounding whitespace, one optional
    sign, then digits. *)
Definition int_of_str (s : pystr) : result Z :=
  let body := int_strip s in
  let '(neg, ds) :=
    match body with
    | c :: r =>
        if (c =? 45)%N then (true, r)
        else if (c =? 43)%N then (false, r)
        else (false, body)
    | [] => (false, [])
    end in
  match parse_digits ds with
  | Some n =>
      if int_max_str_digits <? digit_count ds then Raise ValueError
      else Ok (if neg then - n else n)
  | None => Raise ValueError
  end.

Definition py_int (v : pyval) : result Z :=
  match v with
  | VNone => Raise TypeError
  | VBool b => Ok (if b then 1 else 0)
  | VInt z => Ok z
  | VFloat (FFinite n d) => Ok (Z.quot n (Z.pos d))
  | VFloat (FInf _) => Raise OverflowError
  | VFloat FNan => Raise ValueError
  | VStr s => int_of_str s
  | VList _ => Raise TypeError
  | VDict _ => Raise TypeError
  end.

(** Truth value of [v] in a condition. *)
Definition py_truthy (v : pyval) : bool :=
  match v with
  | VNone => false
  | VBool b => b
  | VInt z => negb (z =? 0)
  | VFloat (FFinite n _) => negb (n =? 0)
  | VFloat _ => true
  | VStr s => negb (bool_decide (s = []))
  | VList l => match l with [] => false | _ => true end
  | VDict d => match d with [] => false | _ => true end
  end.

(** ** Dictionaries *)

Fixpoint dict_lookup (d : pydict) (k : pystr) : option pyval :=
  match d with
  | [] => None
  | (k', v) :: d' => if decide (k' = k) then Some v else dict_lookup d' k
  end.

(** [d.get(k, default)] *)
Definition dict_get (d : pydict) (k : pystr) (default : pyval) : pyval :=
  match dict_lookup d k with
  | Some v => v
  | None => default
  end.

(** [item.get(k, default)] for an item of a JSON document, which need not
    be an object. *)
Definition item_get (item : pyval) (k : pystr) (default : pyval) : result pyval :=
  match item with
  | VDict d => Ok (dict_get d k default)
  | _ => Raise AttributeError
  end.

(** [for item in json_data] *)
Definition py_iter (v : pyval) : result (list pyval) :=
  match v with
  | VList l => Ok l
  | VDict d => Ok (map (λ kv, VStr kv.1) d)
  | VStr s => Ok (map (λ c, VStr [c]) s)
  | _ => Raise TypeError
  end.

(** ** Template records and the five loaders *)

(** The dict built for every source row.  The seven text fields hold whatever
    [.get] returned; the two counts went through [int]. *)
Record template := {
  title : pyval;
  content : pyval;
  format : pyval;
  tags : pyval;
  category : pyval;
  authorEmail : pyval;
  visibility : pyval;
  viewCount : Z;
  useCount : Z
}.

Definition empty_str : pyval := VStr [].

(** sample-templates.csv, the body of the loop for one row (lines 19-32) *)
Definition load_sample_csv_row (row : pydict) : result template :=
  vc ← py_int (dict_get row (str "viewCount") (VInt 0));
  uc ← py_int (dict_get row (str "useCount") (VInt 0));
  Ok {| title := dict_get row (str "title") empty_str;
        content := dict_get row (str "content") empty_str;
        format := VStr (str "html");
        tags := dict_get row (str "tags") empty_str;
        category := dict_get row (str "category") empty_str;
        authorEmail := dict_get row (str "authorEmail") empty_str;
        visibility := dict_get row (str "visibility") empty_str;
        viewCount := vc;
        useCount := uc |}.

(** The tags of a JSON item: a list is joined with commas, anything else is
    kept as it is. *)
Definition item_tags (item : pyval) : result pyval :=
  t ← item_get item (str "tags") (VList []);
  match t with
  | VList l => VStr <$> py_join (str ",") l
  | _ => Ok t
  end.

(** sample-templates.json, the body of the loop for one item (lines 38-55) *)
Definition load_sample_json_item (item : pyval) : result template :=
  tg ← item_tags item;
  ti ← item_get item (str "title") empty_str;
  co ← item_get item (str "content") empty_str;
  ca ← item_get item (str "category") empty_str;
  au ← item_get item (str "authorEmail") empty_str;
  vi ← item_get item (str "visibility") empty_str;
  vc ← item_get item (str "viewCount") (VInt 0) ≫= py_int;
  uc ← item_get item (str "useCount") (VInt 0) ≫= py_int;
  Ok {| title := ti; content := co; format := VStr (str "html"); tags := tg;
        category := ca; authorEmail := au; visibility := vi;
        viewCount := vc; useCount := uc |}.

(** [int(row.get(k, 0)) if row.get(k) else 0] *)
Definition guarded_count (row : pydict) (k : pystr) : result Z :=
  if py_truthy (dict_get row k VNone)
  then py_int (dict_get row k (VInt 0))
  else Ok 0.

(** plaintext-templates.csv and analyzed-templates.csv, one row: the two
    loops (lines 61-73 and 102-114) have the same body. *)
Definition load_plain_csv_row (row : pydict) : result template :=
  vc ← guarded_count row (str "viewCount");
  uc ← guarded_count row (str "useCount");
  Ok {| title := dict_get row (str "title") empty_str;
        content := dict_get row (str "content") empty_str;
        format := dict_get row (str "format") (VStr (str "plain"));
        tags := dict_get row (str "tags") empty_str;
        category := dict_get row (str "category") empty_str;
        authorEmail := dict_get row (str "authorEmail") empty_str;
        visibility := dict_get row (str "visibility") empty_str;
        viewCount := vc;
        useCount := uc |}.

Definition load_plaintext_csv_row := load_plain_csv_row.
Definition load_analyzed_csv_row := load_plain_csv_row.

(** plaintext-templates.json, the body of the loop for one item
    (lines 79-96) *)
Definition load_plaintext_json_item (item : pyval) : result template :=
  tg ← item_tags item;
  ti ← item_get item (str "title") empty_str;
  co ← item_get item (str "content") empty_str;
  fo ← item_get item (str "format") (VStr (str "plain"));
  ca ← item_get item (str "category") empty_str;
  au ← item_get item (str "authorEmail") empty_str;
  vi ← item_get item (str "visibility") empty_str;
  vc ← item_get item (str "viewCount") (VInt 0) ≫= py_int;
  uc ← item_get item (str "useCount") (VInt 0) ≫= py_int;
  Ok {| title := ti; content := co; format := fo; tags := tg;
        category := ca; authorEmail := au; visibility := vi;
        viewCount := vc; useCount := uc |}.

(** A loop that appends one record per row and stops at the first
    exception. *)
Fixpoint load_rows {A} (f : A → result template) (rows : list A)
    : result (list template) :=
  match rows with
  | [] => Ok []
  | r :: rows' => t ← f r; ts ← load_rows f rows'; Ok (t :: ts)
  end.

(** The parsed contents of the five files, in reading order. *)
Record sources := {
  sample_csv : list pydict;
  sample_json : pyval;
  plaintext_csv : list pydict;
  plaintext_json : pyval;
  analyzed_csv : list pydict
}.

(** [all_templates] after the five reading loops. *)
Definition load_all (src : sources) : result (list template) :=
  l1 ← load_rows load_sample_csv_row (sample_csv src);
  l2 ← py_iter (sample_json src) ≫= load_rows load_sample_json_item;
  l3 ← load_rows load_plaintext_csv_row (plaintext_csv src);
  l4 ← py_iter (plaintext_json src) ≫= load_rows load_plaintext_json_item;
  l5 ← load_rows load_analyzed_csv_row (analyzed_csv src);
  Ok (l1 ++ l2 ++ l3 ++ l4 ++ l5).

(** ** Duplicate detection *)

(** An entry of [duplicates['titles']] *)
Record title_dup := {
  td_title : pystr;
  td_indices : list nat
}.

(** An entry of [duplicates['content']] *)
Record content_dup := {
  cd_title1 : pyval;
  cd_title2 : pyval;
  cd_indices : list nat
}.

Record detect_state := {
  seen_titles : gmap pystr nat;
  seen_content : gmap pystr nat;
  dup_titles : list title_dup;
  dup_content : list content_dup
}.

Definition detect_init : detect_state :=
  {| seen_titles := ∅; seen_content := ∅; dup_titles := []; dup_content := [] |}.

(** [content[:200] if len(content) > 200 else content] *)
Definition content_key (content : pystr) : pystr :=
  if decide (200 < length content)%nat then take 200 content else content.

(** [l[i]] *)
Definition py_index {A} (l : list A) (i : nat) : result A :=
  match l !! i with
  | Some x => Ok x
  | None => Raise IndexError
  end.

(** The body of the detection loop (lines 124-145) for the record [t] at
    index [i]. *)
Definition detect_step (all_templates : list template) (st : detect_state)
    (i : nat) (t : template) : result detect_state :=
  ti ← py_strip (title t);
  co ← py_strip (content t);
  let '(seen_t, dups_t) :=
    match seen_titles st !! ti with
    | Some j =>
        (seen_titles st,
         dup_titles st ++ [{| td_title := ti; td_indices := [j; i] |}])
    | None => (<[ti := i]> (seen_titles st), dup_titles st)
    end in
  let key := content_key co in
  match seen_content st !! key with
  | Some j =>
      first ← py_index all_templates j;
      Ok {| seen_titles := seen_t; seen_content := seen_content st;
            dup_titles := dups_t;
            dup_content := dup_content st ++
              [{| cd_title1 := title first; cd_title2 := title t;
                  cd_indices := [j; i] |}] |}
  | None =>
      Ok {| seen_titles := seen_t; seen_content := <[key := i]> (seen_content st);
            dup_titles := dups_t; dup_content := dup_content st |}
  end.

(** [for i, template in enumerate(all_templates)], from index [i] on. *)
Fixpoint detect_loop (all_templates : list template) (st : detect_state)
    (i : nat) (rest : list template) : result detect_state :=
  match rest with
  | [] => Ok st
  | t :: rest' =>
      st' ← detect_step all_templates st i t;
      detect_loop all_templates st' (S i) rest'
  end.

Definition detect (all_templates : list template) : result detect_state :=
  detect_loop all_templates detect_init 0 all_templates.

(** ** Deduplication *)

(** The key of [max]: [t['viewCount'] + t['useCount']] *)
Definition score (t : template) : Z := viewCount t + useCount t.

(** [max(l, key=key)]: the running best is replaced only by a strictly
    greater element, so the first maximal element wins. *)
Fixpoint max_from {A} (key : A → Z) (best : A) (l : list A) : A :=
  match l with
  | [] => best
  | x :: l' => max_from key (if key best <? key x then x else best) l'
  end.

Definition py_max {A} (key : A → Z) (l : list A) : result A :=
  match l with
  | [] => Raise ValueError
  | x :: l' => Ok (max_from key x l')
  end.

(** [[t for t in all_templates if t['title'].strip() == title]] *)
Fixpoint same_title (ti : pystr) (all_templates : list template)
    : result (list template) :=
  match all_templates with
  | [] => Ok []
  | t :: ts =>
      s ← py_strip (title t);
      rest ← same_title ti ts;
      Ok (if decide (s = ti) then t :: rest else rest)
  end.

(** The deduplication loop (lines 149-157) over the remaining records, with
    the set [processed] and the list [unique_templates] built so far. *)
Fixpoint dedup_loop (all_templates : list template) (processed : gset pystr)
    (unique : list template) (rest : list template) : result (list template) :=
  match rest with
  | [] => Ok unique
  | t :: rest' =>
      ti ← py_strip (title t);
      if decide (ti ∈ processed) then
        dedup_loop all_templates processed unique rest'
      else
        same ← same_title ti all_templates;
        best ← py_max score same;
        dedup_loop all_templates (processed ∪ {[ti]}) (unique ++ [best]) rest'
  end.

(** [unique_templates] before sorting *)
Definition unique_templates (all_templates : list template) : result (list template) :=
  dedup_loop all_templates ∅ [] all_templates.

(** ** Comparison of values *)

(** The number a value stands for in a comparison: [bool] and [int] compare
    with [float] by value. *)
Definition py_number (v : pyval) : option pyfloat :=
  match v with
  | VBool b => Some (FFinite (if b then 1 else 0) 1)
  | VInt z => Some (FFinite z 1)
  | VFloat f => Some f
  | _ => None
  end.

(** [f1 < f2] on numbers; nothing is below or above NaN. *)
Definition float_ltb (f1 f2 : pyfloat) : bool :=
  match f1, f2 with
  | FNan, _ | _, FNan => false
  | FInf n1, FInf n2 => n1 && negb n2
  | FInf n1, FFinite _ _ => n1
  | FFinite _ _, FInf n2 => negb n2
  | FFinite n1 d1, FFinite n2 d2 => n1 * Z.pos d2 <? n2 * Z.pos d1
  end.

(** [f1 is f2 or f1 == f2] on numbers.  A NaN equals nothing, but every NaN
    of a parsed document is the one object [json.decoder.NaN], identical to
    itself. *)
Definition float_same (f1 f2 : pyfloat) : bool :=
  match f1, f2 with
  | FNan, FNan => true
  | FInf n1, FInf n2 => bool_decide (n1 = n2)
  | FFinite n1 d1, FFinite n2 d2 => n1 * Z.pos d2 =? n2 * Z.pos d1
  | _, _ => false
  end.

(** [v1 is v2 or v1 == v2], the test by which tuples and lists find the first
    place where they differ.  Lists are equal item by item; dicts when they
    have the same keys with equal values; values of unrelated types are
    unequal. *)
Fixpoint py_eq (v1 v2 : pyval) {struct v1} : bool :=
  match v1, v2 with
  | VNone, VNone => true
  | VStr s1, VStr s2 => bool_decide (s1 = s2)
  | VList l1, VList l2 =>
      (fix items (l1 l2 : list pyval) {struct l1} : bool :=
         match l1, l2 with
         | [], [] => true
         | x :: r1, y :: r2 => py_eq x y && items r1 r2
         | _, _ => false
         end) l1 l2
  | VDict d1, VDict d2 =>
      bool_decide (length d1 = length d2)
      && (fix items (d : list (pystr * pyval)) {struct d} : bool :=
            match d with
            | [] => true
            | (k, x) :: r =>
                match dict_lookup d2 k with
                | Some y => py_eq x y && items r
                | None => false
                end
            end) d1
  | _, _ =>
      match py_number v1, py_number v2 with
      | Some f1, Some f2 => float_same f1 f2
      | _, _ => false
      end
  end.

(** [v1 < v2].  Numbers compare by value, [str] by code points, lists by the
    first items that differ; any other pair, [None] with [None] included,
    raises [TypeError]. *)
Fixpoint py_lt (v1 v2 : pyval) {struct v1} : result bool :=
  match v1, v2 with
  | VStr s1, VStr s2 => Ok (str_ltb s1 s2)
  | VList l1, VList l2 =>
      (fix items (l1 l2 : list pyval) {struct l1} : result bool :=
         match l1, l2 with
         | [], [] => Ok false
         | [], _ :: _ => Ok true
         | _ :: _, [] => Ok false
         | x :: r1, y :: r2 => if py_eq x y then items r1 r2 else py_lt x y
         end) l1 l2
  | _, _ =>
      match py_number v1, py_number v2 with
      | Some f1, Some f2 => Ok (float_ltb f1 f2)
      | _, _ => Raise TypeError
      end
  end.

(** ** Sorting *)

(** The sort key [(t['category'], t['title'])]. *)
Definition sort_key (t : template) : pyval * pyval := (category t, title t).

(** [k1 < k2] on two such tuples: the first components that differ
    decide. *)
Definition key_lt (k1 k2 : pyval * pyval) : result bool :=
  if py_eq k1.1 k2.1
  then if py_eq k1.2 k2.2 then Ok false else py_lt k1.2 k2.2
  else py_lt k1.1 k2.1.

(** [list.sort] first takes the run the list begins with: it rises as long
    as no element is smaller than the one before it, or falls as long as
    every element is smaller than the one before it, and a falling run is
    reversed.  [acc] holds the elements of the run before [last], the latest
    first. *)
Fixpoint run_asc {A} (acc : list ((pyval * pyval) * A)) (last : (pyval * pyval) * A)
    (rest : list ((pyval * pyval) * A))
    : result (list ((pyval * pyval) * A) * list ((pyval * pyval) * A)) :=
  match rest with
  | [] => Ok (reverse (last :: acc), [])
  | x :: rest' =>
      b ← key_lt x.1 last.1;
      if b : bool then Ok (reverse (last :: acc), rest)
      else run_asc (last :: acc) x rest'
  end.

Fixpoint run_desc {A} (acc : list ((pyval * pyval) * A)) (last : (pyval * pyval) * A)
    (rest : list ((pyval * pyval) * A))
    : result (list ((pyval * pyval) * A) * list ((pyval * pyval) * A)) :=
  match rest with
  | [] => Ok (last :: acc, [])
  | x :: rest' =>
      b ← key_lt x.1 last.1;
      if b : bool then run_desc (last :: acc) x rest'
      else Ok (last :: acc, rest)
  end.

(** The place of [pivot] in the sorted list [l], by bisection between [lo]
    and [hi]: behind every element that is not greater, so that equal keys
    keep their order. *)
Fixpoint bisect {A} (fuel : nat) (pivot : pyval * pyval)
    (l : list ((pyval * pyval) * A)) (lo hi : nat) : result nat :=
  match fuel with
  | O => Ok lo
  | S fuel' =>
      if decide (lo < hi)%nat then
        let p := (lo + (hi - lo) / 2)%nat in
        match l !! p with
        | Some y =>
            b ← key_lt pivot y.1;
            if b : bool then bisect fuel' pivot l lo p
            else bisect fuel' pivot l (S p) hi
        | None => Ok lo
        end
      else Ok lo
  end.

(** The remaining elements are inserted one by one into the sorted part. *)
Fixpoint binarysort {A} (sorted rest : list ((pyval * pyval) * A))
    : result (list ((pyval * pyval) * A)) :=
  match rest with
  | [] => Ok sorted
  | x :: rest' =>
      i ← bisect (length sorted) x.1 sorted 0 (length sorted);
      binarysort (take i sorted ++ x :: drop i sorted) rest'
  end.

(** [list.sort] on the list of keyed elements.  A list of fewer than 64
    elements is sorted by exactly these steps.  A longer one is cut into
    pieces sorted in this way and then merged, which gives the same list
    wherever [<] orders the keys: the sort is stable, so its result is
    determined by the order.  A comparison that raises ends the sort. *)
Definition sort_keyed {A} (l : list ((pyval * pyval) * A))
    : result (list ((pyval * pyval) * A)) :=
  match l with
  | a :: b :: rest =>
      falling ← key_lt b.1 a.1;
      '(run, rest') ← (if falling : bool then run_desc [a] b rest
                       else run_asc [a] b rest);
      binarysort run rest'
  | _ => Ok l
  end.

(** [unique_templates.sort(key=lambda t: (t['category'], t['title']))]
    (line 177) *)
Definition sort_templates (l : list template) : result (list template) :=
  keyed ← sort_keyed (map (λ t, (sort_key t, t)) l);
  Ok (map snd keyed).

(** ** Writers *)

Definition fieldnames : list pystr :=
  [str "title"; str "content"; str "format"; str "tags"; str "category";
   str "authorEmail"; str "visibility"; str "viewCount"; str "useCount"].

(** A record as the dict it is: its items in insertion order. *)
Definition template_items (t : template) : pydict :=
  [(str "title", title t); (str "content", content t); (str "format", format t);
   (str "tags", tags t); (str "category", category t);
   (str "authorEmail", authorEmail t); (str "visibility", visibility t);
   (str "viewCount", VInt (viewCount t)); (str "useCount", VInt (useCount t))].

(** The code points of a lone surrogate, which [json.load] builds from an
    escape and which the utf-8 encoding of the output files refuses. *)
Definition is_surrogate (c : N) : bool := ((55296 <=? c) && (c <=? 57343))%N.

Definition encodable (s : pystr) : bool := forallb (λ c, negb (is_surrogate c)) s.

(** A cell of the CSV file is the [str] itself, or [str(v)] for another
    value, which escapes what cannot be printed. *)
Definition csv_encodable (v : pyval) : bool :=
  match v with
  | VStr s => encodable s
  | _ => true
  end.

(** [json.dump(..., ensure_ascii=False)] writes every [str] inside a value,
    keys included, as it is. *)
Fixpoint json_encodable (v : pyval) : bool :=
  match v with
  | VStr s => encodable s
  | VList l => forallb json_encodable l
  | VDict d =>
      (fix items (d : list (pystr * pyval)) : bool :=
         match d with
         | [] => true
         | (k, x) :: r => encodable k && json_encodable x && items r
         end) d
  | _ => true
  end.

(** [csv.DictWriter]: a key outside [fieldnames] raises, then the cells are
    read in header order. *)
Definition dict_to_list (fields : list pystr) (rowdict : pydict) : result (list pyval) :=
  if forallb (λ kv, bool_decide (kv.1 ∈ fields)) rowdict
  then Ok (map (λ k, dict_get rowdict k empty_str) fields)
  else Raise ValueError.

(** [writer.writerows]: the rows are written one after the other; the first
    row with a cell that cannot be encoded raises, the rows before it having
    reached the file. *)
Fixpoint writerows (fields : list pystr) (rows : list pydict)
    : result (list (list pyval)) :=
  match rows with
  | [] => Ok []
  | r :: rows' =>
      cells ← dict_to_list fields r;
      if forallb csv_encodable cells then
        rest ← writerows fields rows';
        Ok (cells :: rest)
      else Raise UnicodeEncodeError
  end.

(** [json.dump] of the records (line 192) *)
Definition dump_records (records : list pydict) : result (list pydict) :=
  if forallb (λ r, json_encodable (VDict r)) records then Ok records
  else Raise UnicodeEncodeError.

(** [json.dump] of the duplicates report (line 198) *)
Definition dump_report (st : detect_state)
    : result (list title_dup * list content_dup) :=
  if forallb (λ d, encodable (td_title d)) (dup_titles st)
     && forallb (λ d, json_encodable (cd_title1 d) && json_encodable (cd_title2 d))
          (dup_content st)
  then Ok (dup_titles st, dup_content st)
  else Raise UnicodeEncodeError.

(** What the three writers have written when the run ends: the header and
    the rows of cells of consolidated-templates.csv, the array of objects of
    consolidated-templates.json, and the two lists of the duplicates
    report. *)
Record output := {
  csv_header : list pystr;
  csv_rows : list (list pyval);
  json_records : list pydict;
  report_titles : list title_dup;
  report_content : list content_dup
}.

(** ** The script *)

(** The records after loading, detection and deduplication, with the state of
    the detector. *)
Definition consolidate_records (src : sources)
    : result (list template * detect_state * list template) :=
  all_templates ← load_all src;
  st ← detect all_templates;
  unique ← unique_templates all_templates;
  Ok (all_templates, st, unique).

(** The console lines that name duplicates (lines 162-174): the first five
    entries of each list, the titles as they are.  The console is taken to
    encode its text as utf-8, as the output files do. *)
Definition print_duplicates (st : detect_state) : result unit :=
  if forallb (λ d, encodable (td_title d)) (take 5 (dup_titles st))
     && forallb (λ d, csv_encodable (cd_title1 d) && csv_encodable (cd_title2 d))
          (take 5 (dup_content st))
  then Ok ()
  else Raise UnicodeEncodeError.

(** The three files, in the order they are written (lines 179-198). *)
Definition write_outputs (st : detect_state) (sorted : list template) : result output :=
  rows ← writerows fieldnames (template_items <$> sorted);
  records ← dump_records (template_items <$> sorted);
  '(titles, contents) ← dump_report st;
  Ok {| csv_header := fieldnames; csv_rows := rows;
        json_records := records;
        report_titles := titles; report_content := contents |}.

(** The whole run: the output of a run that ends without an exception, or
    the exception that ends it. *)
Definition consolidate (src : sources) : result output :=
  '(all_templates, st, unique) ← consolidate_records src;
  _ ← print_duplicates st;
  sorted ← sort_templates unique;
  write_outputs st sorted.

(** ** Vocabulary of the statements *)

(** *** Text fields *)

Definition is_str (v : pyval) : bool :=
  match v with
  | VStr _ => true
  | _ => false
  end.

(** The records the deduplication loop can trim the title of. *)
Definition text_title (t : template) : Prop := is_str (title t) = true.

(** The records the detection loop runs through without an exception. *)
Definition text_record (t : template) : Prop :=
  is_str (title t) = true ∧ is_str (content t) = true.

(** The records the sort orders: category and title are [str]. *)
Definition text_keys (t : template) : Prop :=
  is_str (category t) = true ∧ is_str (title t) = true.

(** The title of a record after [.strip()], for a record whose title is a
    [str]. *)
Definition trimmed_title (t : template) : pystr :=
  match title t with
  | VStr s => strip s
  | _ => []
  end.

(** The content of a record after [.strip()], and the part of it the
    detector compares: its first 200 characters. *)
Definition trimmed_content (t : template) : pystr :=
  match content t with
  | VStr s => strip s
  | _ => []
  end.

Definition content_prefix (t : template) : pystr := take 200 (trimmed_content t).

(** The first 200 characters of the content field as it was loaded. *)
Definition raw_prefix (t : template) : pystr :=
  match content t with
  | VStr s => take 200 s
  | _ => []
  end.

(** *** Deduplication *)

(** The distinct elements of [l] outside [processed], in the order of their
    first occurrence. *)
Fixpoint first_seen (processed : gset pystr) (l : list pystr) : list pystr :=
  match l with
  | [] => []
  | x :: l' =>
      if decide (x ∈ processed) then first_seen processed l'
      else x :: first_seen (processed ∪ {[x]}) l'
  end.

(** [b] is what [max] picks among the records of [all_templates] with
    trimmed title [ti]. *)
Definition is_best (all_templates : list template) (ti : pystr) (b : template) : Prop :=
  ∃ x l, filter (λ t, trimmed_title t = ti) all_templates = x :: l
         ∧ b = max_from score x l.

(** *** Detection *)

(** The index of the first occurrence of [k] in [keys]. *)
Fixpoint first_index (keys : list pystr) (k : pystr) : option nat :=
  match keys with
  | [] => None
  | k' :: keys' => if decide (k' = k) then Some 0%nat else S <$> first_index keys' k
  end.

(** [i] is the place where [k] is seen first. *)
Definition first_at (keys : list pystr) (k : pystr) (i : nat) : Prop :=
  keys !! i = Some k ∧ ∀ j, (j < i)%nat → keys !! j ≠ Some k.

(** The collision met at index [j], if its key was seen before. *)
Definition collision (keys : list pystr) (j : nat) : option (nat * nat) :=
  k ← keys !! j;
  i ← first_index keys k;
  if decide (i < j)%nat then Some (i, j) else None.

Definition collisions (keys : list pystr) (n : nat) : list (nat * nat) :=
  omap (collision keys) (seq 0 n).

Definition title_entry (all_templates : list template) (p : nat * nat) : title_dup :=
  {| td_title := default [] (trimmed_title <$> all_templates !! p.2);
     td_indices := [p.1; p.2] |}.

Definition content_entry (all_templates : list template) (p : nat * nat) : content_dup :=
  {| cd_title1 := default VNone (title <$> all_templates !! p.1);
     cd_title2 := default VNone (title <$> all_templates !! p.2);
     cd_indices := [p.1; p.2] |}.

(** What holds after the first [n] rounds of the detection loop. *)
Record detect_inv (all_templates : list template) (n : nat) (st : detect_state) : Prop := {
  inv_seen_titles : ∀ k,
    seen_titles st !! k = first_index (take n (trimmed_title <$> all_templates)) k;
  inv_seen_content : ∀ k,
    seen_content st !! k = first_index (take n (content_prefix <$> all_templates)) k;
  inv_dup_titles :
    dup_titles st
    = title_entry all_templates <$> collisions (trimmed_title <$> all_templates) n;
  inv_dup_content :
    dup_content st
    = content_entry all_templates <$> collisions (content_prefix <$> all_templates) n
}.

(** The entries of the report appended while the record at index [j] was
    looked at: [j] is their second index. *)
Definition title_entries_at (j : nat) (st : detect_state) : list title_dup :=
  filter (λ d, td_indices d !! 1%nat = Some j) (dup_titles st).

(** The records at [i] and [j] are reported as a content duplicate. *)
Definition content_reported (st : detect_state) (i j : nat) : Prop :=
  ∃ d, d ∈ dup_content st ∧ cd_indices d = [i; j].

(** *** Order of the output *)

(** The fraction a finite number stands for. *)
Definition number_of (v : pyval) : option (Z * positive) :=
  match v with
  | VBool b => Some (if b then 1 else 0, 1%positive)
  | VInt z => Some (z, 1%positive)
  | VFloat (FFinite n d) => Some (n, d)
  | _ => None
  end.

Definition frac_lt (x y : Z * positive) : Prop := x.1 * Z.pos y.2 < y.1 * Z.pos x.2.
Definition frac_eq (x y : Z * positive) : Prop := x.1 * Z.pos y.2 = y.1 * Z.pos x.2.

(** The order of two categories: texts by code points, numbers by value. *)
Definition category_lt (c1 c2 : pyval) : Prop :=
  match c1, c2 with
  | VStr s1, VStr s2 => lexico s1 s2
  | _, _ =>
      match number_of c1, number_of c2 with
      | Some x, Some y => frac_lt x y
      | _, _ => False
      end
  end.

(** Two categories that the order does not tell apart: the same text, the
    same number, or [None] twice. *)
Definition category_eq (c1 c2 : pyval) : Prop :=
  match c1, c2 with
  | VStr s1, VStr s2 => s1 = s2
  | VNone, VNone => True
  | _, _ =>
      match number_of c1, number_of c2 with
      | Some x, Some y => frac_eq x y
      | _, _ => False
      end
  end.

(** [a] may stand before [b] in a list sorted by (category, title): the
    category of [a] is smaller, or the categories agree and the title of [a]
    is not greater. *)
Definition record_le (a b : template) : Prop :=
  ∃ ta tb, title a = VStr ta ∧ title b = VStr tb
    ∧ (category_lt (category a) (category b)
       ∨ category_eq (category a) (category b) ∧ (ta = tb ∨ lexico ta tb)).

(** The kinds of categories that can be ordered among themselves. *)
Inductive kind := Text | Missing | Number.

Global Instance kind_eq_dec : EqDecision kind.
Proof. solve_decision. Defined.

Definition of_kind (κ : kind) (v : pyval) : Prop :=
  match κ with
  | Text => is_str v = true
  | Missing => v = VNone
  | Number => is_Some (number_of v)
  end.

(** A list the sort can order: the titles are [str] and the categories are
    of one kind, all [str], all [None] or all finite numbers. *)
Definition orderable (l : list template) : Prop :=
  Forall text_title l ∧ ∃ κ, Forall (λ t, of_kind κ (category t)) l.

(** The same order on pairs (category, title), and the pairs of one kind. *)
Definition pair_lt (k1 k2 : pyval * pyval) : Prop :=
  ∃ t1 t2, k1.2 = VStr t1 ∧ k2.2 = VStr t2
    ∧ (category_lt k1.1 k2.1 ∨ category_eq k1.1 k2.1 ∧ lexico t1 t2).

Definition pair_le (k1 k2 : pyval * pyval) : Prop :=
  ∃ t1 t2, k1.2 = VStr t1 ∧ k2.2 = VStr t2
    ∧ (category_lt k1.1 k2.1 ∨ category_eq k1.1 k2.1 ∧ (t1 = t2 ∨ lexico t1 t2)).

Definition ordered_key (κ : kind) (k : pyval * pyval) : Prop :=
  of_kind κ k.1 ∧ is_str k.2 = true.

(** *** Loaders *)

(** The five reading loops. *)
Inductive loader := SampleCsv | SampleJson | PlaintextCsv | PlaintextJson | AnalyzedCsv.

(** The record a loop builds from the dict [row]; the two JSON loops get it as
    an object of the document. *)
Definition load_row (l : loader) (row : pydict) : result template :=
  match l with
  | SampleCsv => load_sample_csv_row row
  | SampleJson => load_sample_json_item (VDict row)
  | PlaintextCsv => load_plaintext_csv_row row
  | PlaintextJson => load_plaintext_json_item (VDict row)
  | AnalyzedCsv => load_analyzed_csv_row row
  end.

(** The two loops over the sample files. *)
Definition sample_source (l : loader) : bool :=
  match l with
  | SampleCsv | SampleJson => true
  | _ => false
  end.

(** The two loops whose counts are guarded by [if row.get(k) else 0]. *)
Definition guarded (l : loader) : bool :=
  match l with
  | PlaintextCsv | AnalyzedCsv => true
  | _ => false
  end.

(** The expression a loop evaluates for the count field [k]. *)
Definition count_of (l : loader) (row : pydict) (k : pystr) : result Z :=
  if guarded l then guarded_count row k else py_int (dict_get row k (VInt 0)).

(** The count a loop is to store for a field that is missing ([None]) or
    present with value [v]: zero when missing, [int(v)] when present, and in
    the guarded loops zero again for a present value that is falsy. *)
Definition expected_count (l : loader) (field : option pyval) : result Z :=
  match field with
  | None => Ok 0
  | Some v => if guarded l && negb (py_truthy v) then Ok 0 else py_int v
  end.

(** A source value that carries no negative number: a string without a minus
    sign, a number that is not below zero, or a value that is no number. *)
Definition nonneg_source (v : pyval) : bool :=
  match v with
  | VStr s => negb (bool_decide (45%N ∈ s))
  | VInt z => 0 <=? z
  | VFloat (FFinite n _) => 0 <=? n
  | _ => true
  end.

(** [t] is a record one of the five reading loops built from a row or item
    of its file. *)
Definition loaded_by (src : sources) (t : template) : Prop :=
  (∃ row, row ∈ sample_csv src ∧ load_sample_csv_row row = Ok t)
  ∨ (∃ items item, py_iter (sample_json src) = Ok items ∧ item ∈ items
       ∧ load_sample_json_item item = Ok t)
  ∨ (∃ row, row ∈ plaintext_csv src ∧ load_plaintext_csv_row row = Ok t)
  ∨ (∃ items item, py_iter (plaintext_json src) = Ok items ∧ item ∈ items
       ∧ load_plaintext_json_item item = Ok t)
  ∨ (∃ row, row ∈ analyzed_csv src ∧ load_analyzed_csv_row row = Ok t).

(** *** Writers *)

(** The cells of a record in header order. *)
Definition template_cells (t : template) : list pyval := (template_items t).*2.

(** A record that [json.dump] can write to a utf-8 file: no text in it holds
    a lone surrogate. *)
Definition writable (t : template) : Prop :=
  json_encodable (VDict (template_items t)) = true.

(** ** Example inputs *)

(** A record with the given title, content, category and counts, the other
    fields empty: the shape of the examples below. *)
Definition sample_record (ti co ca : string) (vc uc : Z) : template :=
  {| title := VStr (str ti); content := VStr (str co); format := VStr (str "plain");
     tags := empty_str; category := VStr (str ca); authorEmail := empty_str;
     visibility := empty_str; viewCount := vc; useCount := uc |}.

(** Three loaded records: two share the trimmed title "Email Draft" and the
    content, with scores 5 and 12. *)
Definition email_drafts : list template :=
  [sample_record "Email Draft" "Dear team" "work" 3 2;
   sample_record " Email Draft" "Dear team" "work" 10 2;
   sample_record "Agenda" "Topics" "meetings" 0 0].

(** Two records whose contents differ by a leading blank. *)
Definition blank_pair : list template :=
  [sample_record "First" "abc" "x" 0 0; sample_record "Second" " abc" "x" 0 0].

(** A CSV row with a negative view count. *)
Definition negative_row : pydict :=
  [(str "title", VStr (str "Refund")); (str "viewCount", VStr (str "-5"));
   (str "useCount", VStr (str "2"))].

(** A CSV row whose view count cell is empty. *)
Definition blank_count_row : pydict :=
  [(str "title", VStr (str "Refund")); (str "viewCount", VStr []);
   (str "useCount", VStr (str "2"))].

(** A row of a sample file that brings its own format. *)
Definition formatted_row : pydict :=
  [(str "title", VStr (str "Refund")); (str "format", VStr (str "plain"));
   (str "viewCount", VStr (str "7"))].

(** What the sample CSV loop builds from [formatted_row]. *)
Definition formatted_record : template :=
  {| title := VStr (str "Refund"); content := empty_str;
     format := VStr (str "html"); tags := empty_str; category := empty_str;
     authorEmail := empty_str; visibility := empty_str;
     viewCount := 7; useCount := 0 |}.

(** Three files with one record each and two empty ones. *)
Definition demo_sources : sources :=
  {| sample_csv :=
       [[(str "title", VStr (str "Email Draft"));
         (str "content", VStr (str "Dear team"));
         (str "category", VStr (str "work"));
         (str "viewCount", VStr (str "3")); (str "useCount", VStr (str "2"))]];
     sample_json :=
       VList [VDict [(str "title", VStr (str "Email Draft"));
                     (str "content", VStr (str "Dear team, please"));
                     (str "tags", VList [VStr (str "mail"); VStr (str "team")]);
                     (str "category", VStr (str "work"));
                     (str "viewCount", VInt 10); (str "useCount", VInt 2)]];
     plaintext_csv :=
       [[(str "title", VStr (str " Agenda "));
         (str "content", VStr (str "Topics"));
         (str "format", VStr (str "plain"));
         (str "category", VStr (str "meetings"));
         (str "viewCount", VStr []); (str "useCount", VStr [])]];
     plaintext_json := VList [];
     analyzed_csv := [] |}.

Definition agenda_record : template :=
  {| title := VStr (str " Agenda "); content := VStr (str "Topics");
     format := VStr (str "plain"); tags := empty_str;
     category := VStr (str "meetings"); authorEmail := empty_str;
     visibility := empty_str; viewCount := 0; useCount := 0 |}.

Definition email_record : template :=
  {| title := VStr (str "Email Draft"); content := VStr (str "Dear team, please");
     format := VStr (str "html"); tags := VStr (str "mail,team");
     category := VStr (str "work"); authorEmail := empty_str;
     visibility := empty_str; viewCount := 10; useCount := 2 |}.

(** What the run on [demo_sources] writes. *)
Definition demo_output : output :=
  {| csv_header := fieldnames;
     csv_rows := template_cells <$> [agenda_record; email_record];
     json_records := template_items <$> [agenda_record; email_record];
     report_titles := [{| td_title := str "Email Draft"; td_indices := [0; 1]%nat |}];
     report_content := [] |}.

(** ** Vocabulary of the further properties *)

(** A text made of whitespace only. *)
Definition all_space (s : pystr) : Prop := Forall (λ c, is_space c = true) s.

(** The loops that read a CSV file, and those that read a JSON document. *)
Definition csv_source (l : loader) : bool :=
  match l with
  | SampleCsv | PlaintextCsv | AnalyzedCsv => true
  | _ => false
  end.

Definition json_source (l : loader) : bool := negb (csv_source l).

(** [a] stands strictly before [b] in the order of (category, title). *)
Definition record_lt (a b : template) : Prop :=
  ∃ ta tb, title a = VStr ta ∧ title b = VStr tb
    ∧ (category_lt (category a) (category b)
       ∨ category_eq (category a) (category b) ∧ lexico ta tb).

(** [s.split(c)] for a one-character separator: the pieces between the
    occurrences of [c]. *)
Fixpoint split_on (c : N) (s : pystr) : list pystr :=
  match s with
  | [] => [[]]
  | x :: r =>
      if (x =? c)%N then [] :: split_on c r
      else match split_on c r with
           | h :: t => (x :: h) :: t
           | [] => [[x]]
           end
  end.

(** ** Further example inputs *)

(** Two records with distinct titles, in the order of their keys. *)
Definition distinct_drafts : list template :=
  [sample_record "Agenda" "Topics" "meetings" 0 0;
   sample_record "Email Draft" "Dear team" "work" 3 2].

(** What the deduplication keeps of [email_drafts]. *)
Definition email_unique : list template :=
  [sample_record " Email Draft" "Dear team" "work" 10 2;
   sample_record "Agenda" "Topics" "meetings" 0 0].

(** A record whose content is [None], as a short CSV row gives it. *)
Definition short_record : template :=
  {| title := VStr (str "Agenda"); content := VNone; format := VStr (str "plain");
     tags := VNone; category := VNone; authorEmail := VNone; visibility := VNone;
     viewCount := 0; useCount := 0 |}.

(** A record of a row that ends before the category. *)
Definition minutes_record : template :=
  {| title := VStr (str "Minutes"); content := VStr (str "Notes");
     format := VStr (str "plain"); tags := VNone; category := VNone;
     authorEmail := VNone; visibility := VNone; viewCount := 0; useCount := 0 |}.


(** A record without a category next to one with a category. *)
Definition mixed_categories : list template :=
  [minutes_record; sample_record "Agenda" "Topics" "meetings" 0 0].



(** The row behind [short_record]: cells after the title are missing. *)
Definition short_row : pydict :=
  [(str "title", VStr (str "Agenda")); (str "content", VNone);
   (str "format", VStr (str "plain")); (str "tags", VNone);
   (str "category", VNone); (str "authorEmail", VNone);
   (str "visibility", VNone); (str "viewCount", VNone); (str "useCount", VNone)].

Definition short_row_sources : sources :=
  {| sample_csv := []; sample_json := VList []; plaintext_csv := [short_row];
     plaintext_json := VList []; analyzed_csv := [] |}.

(** The three records loaded from [demo_sources]. *)
Definition demo_loaded : list template :=
  [{| title := VStr (str "Email Draft"); content := VStr (str "Dear team");
      format := VStr (str "html"); tags := empty_str;
      category := VStr (str "work"); authorEmail := empty_str;
      visibility := empty_str; viewCount := 3; useCount := 2 |};
   email_record; agenda_record].

(** A CSV row whose view count cell is a single blank. *)
Definition blank_cell_row : pydict :=
  [(str "title", VStr (str "Refund")); (str "viewCount", VStr (str " "));
   (str "useCount", VStr (str "2"))].

(** An object of a JSON document without tags. *)
Definition untagged_item : pydict :=
  [(str "title", VStr (str "Refund")); (str "viewCount", VInt 7)].

Definition untagged_record : template :=
  {| title := VStr (str "Refund"); content := empty_str;
     format := VStr (str "plain"); tags := empty_str; category := empty_str;
     authorEmail := empty_str; visibility := empty_str;
     viewCount := 7; useCount := 0 |}.

(** A record whose title is [None]. *)
Definition untitled_record : template :=
  {| title := VNone; content := VStr (str "Topics"); format := VStr (str "plain");
     tags := empty_str; category := empty_str; authorEmail := empty_str;
     visibility := empty_str; viewCount := 0; useCount := 0 |}.

(** * Properties *)

(** ** The exception monad *)

Lemma bind_Ok {A B} (m : result A) (f : A → result B) (b : B) :
  m ≫= f = Ok b ↔ ∃ a, m = Ok a ∧ f a = Ok b.
Proof.
  destruct m as [a|e]; simpl.
  - split; [eauto | by intros (a' & [= <-] & ?)].
  - split; [done | by intros (? & ? & ?)].
Qed.

Lemma bind_Ok_l {A B} (a : A) (f : A → result B) : Ok a ≫= f = f a.
Proof. reflexivity. Qed.

(** ** Lists *)

Section lists.
Context {A : Type}.

Lemma max_from_split (key : A → Z) (b : A) (l : list A) :
  ∃ l1 l2, b :: l = l1 ++ max_from key b l :: l2
           ∧ (∀ y, y ∈ l1 → key y < key (max_from key b l))
           ∧ (∀ y, y ∈ l2 → key y ≤ key (max_from key b l)).
Proof.
  revert b. induction l as [|x l IH]; intros b; simpl.
  { exists [], []. split; [done|]. split; intros y Hy; inversion Hy. }
  destruct (Z.ltb_spec (key b) (key x)) as [Hlt|Hge].
  - destruct (IH x) as (l1 & l2 & Heq & H1 & H2).
    exists (b :: l1), l2. split; [by rewrite Heq|]. split; [|done].
    intros y [->|Hy]%elem_of_cons; [|by apply H1].
    destruct l1 as [|z l1]; injection Heq as Hx Hl.
    + rewrite <- Hx. lia.
    + subst z. specialize (H1 x ltac:(set_solver)). lia.
  - destruct (IH b) as (l1 & l2 & Heq & H1 & H2).
    destruct l1 as [|z l1]; injection Heq as Hb Hl.
    + exists [], (x :: l2). rewrite <- Hb, Hl. split; [done|].
      split; [intros y Hy; inversion Hy|].
      intros y [->|Hy]%elem_of_cons; [lia|]. rewrite <- Hb in H2. by apply H2.
    + subst z. exists (b :: x :: l1), l2.
      split; [simpl; do 2 f_equal; exact Hl|]. split; [|done].
      intros y [->|[->|Hy]%elem_of_cons]%elem_of_cons.
      * apply H1. set_solver.
      * specialize (H1 b ltac:(set_solver)). lia.
      * apply H1. set_solver.
Qed.

Lemma max_from_elem (key : A → Z) (b : A) (l : list A) :
  max_from key b l ∈ b :: l.
Proof.
  destruct (max_from_split key b l) as (l1 & l2 & -> & _). set_solver.
Qed.

Lemma filter_split (P : A → Prop) `{∀ x, Decision (P x)}
    (l f1 f2 : list A) (b : A) :
  filter P l = f1 ++ b :: f2 →
  ∃ l1 l2, l = l1 ++ b :: l2 ∧ filter P l1 = f1 ∧ filter P l2 = f2.
Proof.
  revert f1. induction l as [|x l IH]; intros f1 Hf.
  { by destruct f1. }
  rewrite filter_cons in Hf. destruct (decide (P x)) as [HP|HP].
  - destruct f1 as [|y f1]; injection Hf as -> Hf.
    + exists [], l. by rewrite Hf.
    + destruct (IH _ Hf) as (l1 & l2 & -> & <- & <-).
      exists (y :: l1), l2. split; [done|].
      by rewrite filter_cons, decide_True.
  - destruct (IH _ Hf) as (l1 & l2 & -> & <- & <-).
    exists (x :: l1), l2. split; [done|].
    by rewrite filter_cons, decide_False.
Qed.

Lemma filter_none (P : A → Prop) `{∀ x, Decision (P x)} (l : list A) :
  (∀ x, x ∈ l → ¬ P x) → filter P l = [].
Proof.
  induction l as [|x l IH]; intros Hl; [done|].
  rewrite filter_cons_False by (apply Hl; set_solver).
  apply IH. intros y Hy. apply Hl. set_solver.
Qed.

Lemma first_failure (P : A → Prop) `{∀ x, Decision (P x)} (l : list A) :
  Exists (λ x, ¬ P x) l →
  ∃ pre x post, l = pre ++ x :: post ∧ Forall P pre ∧ ¬ P x.
Proof.
  induction l as [|y l IH]; intros Hex; [by inversion Hex|].
  destruct (decide (P y)) as [Hy|Hy].
  - apply Exists_cons in Hex as [?|Hex]; [done|].
    destruct (IH Hex) as (pre & x & post & -> & Hpre & Hx).
    exists (y :: pre), x, post. split; [done|]. split; [by constructor | done].
  - exists [], y, l. split; [done|]. split; [constructor | done].
Qed.

End lists.

(** ** Deduplication *)

Lemma py_strip_title (t : template) :
  is_str (title t) = true → py_strip (title t) = Ok (trimmed_title t).
Proof. unfold trimmed_title. by destruct (title t). Qed.

Lemma same_title_filter (ti : pystr) (all_templates : list template) :
  Forall text_title all_templates →
  same_title ti all_templates = Ok (filter (λ t, trimmed_title t = ti) all_templates).
Proof.
  induction 1 as [|t ts Ht _ IH]; [done|].
  simpl. rewrite (py_strip_title t Ht). simpl. rewrite IH. simpl.
  rewrite filter_cons. by destruct (decide (trimmed_title t = ti)).
Qed.

Lemma filter_unique {A B} `{EqDecision B} (f : A → B) (l : list A) (b : A) :
  NoDup (f <$> l) → b ∈ l → filter (λ r, f r = f b) l = [b].
Proof.
  induction l as [|x l IH]; intros Hnd Hb; [by inversion Hb|].
  rewrite fmap_cons, NoDup_cons in Hnd. destruct Hnd as [Hx Hnd].
  rewrite filter_cons. apply elem_of_cons in Hb as [->|Hb].
  - rewrite decide_True by done. f_equal.
    apply filter_none. intros y Hy Heq.
    apply Hx. rewrite <- Heq. by apply list_elem_of_fmap_2.
  - rewrite decide_False; [by apply IH|].
    intros Heq. apply Hx. rewrite Heq. by apply list_elem_of_fmap_2.
Qed.

Lemma elem_of_first_seen (processed : gset pystr) (l : list pystr) (x : pystr) :
  x ∈ first_seen processed l ↔ x ∈ l ∧ x ∉ processed.
Proof.
  revert processed. induction l as [|y l IH]; intros processed; simpl.
  { set_solver. }
  destruct (decide (y ∈ processed)).
  - rewrite IH. set_solver.
  - rewrite !elem_of_cons, IH. destruct (decide (x = y)); set_solver.
Qed.

Lemma NoDup_first_seen (processed : gset pystr) (l : list pystr) :
  NoDup (first_seen processed l).
Proof.
  revert processed. induction l as [|y l IH]; intros processed; simpl.
  { constructor. }
  destruct (decide (y ∈ processed)); [done|].
  constructor; [|done]. rewrite elem_of_first_seen. set_solver.
Qed.

Lemma length_first_seen_le (processed : gset pystr) (l : list pystr) :
  (length (first_seen processed l) ≤ length l)%nat.
Proof.
  revert processed. induction l as [|y l IH]; intros processed; simpl; [lia|].
  destruct (decide (y ∈ processed)); simpl.
  - specialize (IH processed). lia.
  - specialize (IH (processed ∪ {[y]})). lia.
Qed.

Lemma length_first_seen_eq (processed : gset pystr) (l : list pystr) :
  length (first_seen processed l) = length l
  ↔ NoDup l ∧ ∀ x, x ∈ l → x ∉ processed.
Proof.
  revert processed. induction l as [|y l IH]; intros processed; simpl.
  { split; [|done]. intros _. split; [constructor | set_solver]. }
  destruct (decide (y ∈ processed)) as [Hy|Hy]; simpl.
  - split.
    + pose proof (length_first_seen_le processed l). lia.
    + intros [_ Hout]. destruct (Hout y); [set_solver | done].
  - rewrite NoDup_cons. split.
    + intros Hlen. apply (inj S), IH in Hlen as [Hnd Hout].
      split; [split; [|done] |]; set_solver.
    + intros [[Hyl Hnd] Hout]. f_equal. apply IH. split; [done|].
      intros x Hx. specialize (Hout x). set_solver.
Qed.

Lemma dedup_loop_spec (all_templates : list template) (processed : gset pystr)
    (unique rest : list template) :
  Forall text_title all_templates →
  rest ⊆ all_templates →
  ∃ out, dedup_loop all_templates processed unique rest = Ok (unique ++ out)
         ∧ Forall2 (is_best all_templates)
             (first_seen processed (trimmed_title <$> rest)) out.
Proof.
  intros Hall. revert processed unique.
  induction rest as [|t rest IH]; intros processed unique Hsub; simpl.
  { exists []. by rewrite app_nil_r. }
  assert (t ∈ all_templates) as Ht by set_solver.
  assert (rest ⊆ all_templates) as Hrest by set_solver.
  rewrite Forall_forall in Hall.
  rewrite (py_strip_title t (Hall t Ht)). simpl.
  destruct (decide (trimmed_title t ∈ processed)); [by apply IH|].
  rewrite same_title_filter by by apply Forall_forall.
  simpl.
  destruct (filter (λ t0, trimmed_title t0 = trimmed_title t) all_templates)
    as [|x l] eqn:Hf.
  { assert (t ∈ filter (λ t0, trimmed_title t0 = trimmed_title t) all_templates)
      as Hin by by apply list_elem_of_filter.
    rewrite Hf in Hin. inversion Hin. }
  simpl.
  destruct (IH (processed ∪ {[trimmed_title t]}) (unique ++ [max_from score x l]) Hrest)
    as (out & -> & Hout).
  exists (max_from score x l :: out). split; [by rewrite <- app_assoc|].
  constructor; [|done]. by exists x, l.
Qed.

Lemma is_best_spec (all_templates : list template) (ti : pystr) (b : template) :
  is_best all_templates ti b →
  trimmed_title b = ti
  ∧ ∃ a1 a2, all_templates = a1 ++ b :: a2
      ∧ (∀ t, t ∈ a1 → trimmed_title t = ti → score t < score b)
      ∧ (∀ t, t ∈ a2 → trimmed_title t = ti → score t ≤ score b).
Proof.
  intros (x & l & Hf & ->).
  destruct (max_from_split score x l) as (l1 & l2 & Heq & H1 & H2).
  rewrite Heq in Hf.
  destruct (filter_split _ _ _ _ _ Hf) as (a1 & a2 & -> & Hf1 & Hf2).
  split.
  - assert (max_from score x l ∈ filter (λ t, trimmed_title t = ti)
              (a1 ++ max_from score x l :: a2)) as Hin.
    { rewrite Hf. set_solver. }
    by apply list_elem_of_filter in Hin as [? _].
  - exists a1, a2. split; [done|]. split; intros t Ht Hti.
    + apply H1. rewrite <- Hf1. by apply list_elem_of_filter.
    + apply H2. rewrite <- Hf2. by apply list_elem_of_filter.
Qed.

Lemma is_best_titles (all_templates : list template) (tis : list pystr)
    (out : list template) :
  Forall2 (is_best all_templates) tis out → trimmed_title <$> out = tis.
Proof.
  induction 1 as [|ti b tis out Hb _ IH]; [done|].
  rewrite fmap_cons, IH. f_equal. by apply is_best_spec in Hb as [? _].
Qed.

Lemma unique_templates_spec (all_templates : list template) :
  Forall text_title all_templates →
  ∃ unique, unique_templates all_templates = Ok unique
    ∧ Forall2 (is_best all_templates)
        (first_seen ∅ (trimmed_title <$> all_templates)) unique.
Proof.
  intros Hall.
  destruct (dedup_loop_spec all_templates ∅ [] all_templates Hall) as (out & ? & ?);
    [done|].
  by exists out.
Qed.

Lemma same_title_raises (ti : pystr) (all_templates : list template) :
  Exists (λ t, ¬ text_title t) all_templates →
  same_title ti all_templates = Raise AttributeError.
Proof.
  unfold text_title.
  induction all_templates as [|t ts IH]; intros Hex; [by inversion Hex|].
  simpl. destruct (title t) eqn:Ht; simpl; try done.
  apply Exists_cons in Hex as [Hex|Hex].
  - rewrite Ht in Hex. by destruct Hex.
  - by rewrite (IH Hex).
Qed.

(** A record whose title is not text stops the deduplication loop. *)
Lemma unique_templates_raises (all_templates : list template) :
  Exists (λ t, ¬ text_title t) all_templates →
  unique_templates all_templates = Raise AttributeError.
Proof.
  intros Hex. pose proof (same_title_raises) as Hsame.
  destruct all_templates as [|t ts]; [by inversion Hex|].
  unfold unique_templates. cbn [dedup_loop].
  destruct (py_strip (title t)) as [ti|e] eqn:Hti.
  - rewrite bind_Ok_l. cbv beta. rewrite decide_False by set_solver.
    by rewrite (Hsame ti (t :: ts) Hex).
  - simpl. by destruct (title t); simplify_eq/=.
Qed.

(** C1: the deduplicated list holds exactly one record for every trimmed
    title of the input; that record sits in the input at a place before which
    every record of the same trimmed title has a strictly smaller sum
    viewCount + useCount and after which none has a greater one, so it is the
    first one of maximal viewCount + useCount. *)
Theorem dedup_keeps_first_best (all_templates : list template) :
  Forall text_title all_templates →
  ∃ unique, unique_templates all_templates = Ok unique ∧
    ∀ ti, ti ∈ trimmed_title <$> all_templates →
      ∃ best a1 a2,
        filter (λ r, trimmed_title r = ti) unique = [best]
        ∧ all_templates = a1 ++ best :: a2
        ∧ (∀ t, t ∈ a1 → trimmed_title t = ti →
             viewCount t + useCount t < viewCount best + useCount best)
        ∧ (∀ t, t ∈ a2 → trimmed_title t = ti →
             viewCount t + useCount t ≤ viewCount best + useCount best).
Proof.
  intros Hall.
  destruct (unique_templates_spec all_templates Hall) as (unique & Hrun & Hbest).
  exists unique. split; [done|]. intros ti Hti.
  pose proof (is_best_titles _ _ _ Hbest) as Htitles.
  assert (ti ∈ first_seen ∅ (trimmed_title <$> all_templates)) as Hin.
  { apply elem_of_first_seen. set_solver. }
  apply list_elem_of_lookup in Hin as [i Hi].
  destruct (Forall2_lookup_l _ _ _ _ _ Hbest Hi) as (best & Hb & Hisbest).
  apply is_best_spec in Hisbest as (Htb & a1 & a2 & Hsplit & Hlt & Hle).
  exists best, a1, a2. split; [|split; [done|split]].
  - rewrite <- Htb. apply filter_unique.
    + rewrite Htitles. apply NoDup_first_seen.
    + by eapply list_elem_of_lookup_2.
  - intros t Ht Ht'. by apply (Hlt t).
  - intros t Ht Ht'. by apply (Hle t).
Qed.

(** On [email_drafts] the hypothesis holds and the statement applies. *)
Lemma dedup_keeps_first_best_witness :
  Forall text_title email_drafts
  ∧ ∃ unique, unique_templates email_drafts = Ok unique ∧
      ∀ ti, ti ∈ trimmed_title <$> email_drafts →
        ∃ best a1 a2,
          filter (λ r, trimmed_title r = ti) unique = [best]
          ∧ email_drafts = a1 ++ best :: a2
          ∧ (∀ t, t ∈ a1 → trimmed_title t = ti →
               viewCount t + useCount t < viewCount best + useCount best)
          ∧ (∀ t, t ∈ a2 → trimmed_title t = ti →
               viewCount t + useCount t ≤ viewCount best + useCount best).
Proof.
  split; [repeat constructor|].
  apply (dedup_keeps_first_best email_drafts). repeat constructor.
Defined.

(** C2: deduplication never lengthens the list, and keeps its length exactly
    when the trimmed titles of the input are pairwise distinct. *)
Theorem dedup_length (all_templates : list template) :
  Forall text_title all_templates →
  ∃ unique, unique_templates all_templates = Ok unique
    ∧ (length unique ≤ length all_templates)%nat
    ∧ (length unique = length all_templates
       ↔ NoDup (trimmed_title <$> all_templates)).
Proof.
  intros Hall.
  destruct (unique_templates_spec all_templates Hall) as (unique & Hrun & Hbest).
  exists unique. split; [done|].
  apply Forall2_length in Hbest. rewrite <- Hbest.
  rewrite <- (length_fmap trimmed_title all_templates). split.
  - apply length_first_seen_le.
  - rewrite length_first_seen_eq. set_solver.
Qed.

(** The same list meets the hypothesis of the length statement. *)
Lemma dedup_length_witness :
  Forall text_title email_drafts
  ∧ ∃ unique, unique_templates email_drafts = Ok unique
      ∧ (length unique ≤ length email_drafts)%nat
      ∧ (length unique = length email_drafts
         ↔ NoDup (trimmed_title <$> email_drafts)).
Proof.
  split; [repeat constructor|].
  apply (dedup_length email_drafts). repeat constructor.
Defined.

(** ** Duplicate detection *)

Lemma content_key_take (s : pystr) : content_key s = take 200 s.
Proof.
  unfold content_key. destruct (decide (200 < length s)%nat); [done|].
  symmetry. apply take_ge. lia.
Qed.

Lemma first_index_Some (keys : list pystr) (k : pystr) (i : nat) :
  first_index keys k = Some i ↔ first_at keys k i.
Proof.
  unfold first_at. revert i. induction keys as [|k' keys IH]; intros i; simpl.
  { split; [done | by intros [? _]]. }
  destruct (decide (k' = k)) as [->|Hne].
  - split.
    + intros [= <-]. split; [done | lia].
    + intros [Hi Hmin]. destruct i as [|i]; [done|].
      by destruct (Hmin 0%nat ltac:(lia)).
  - rewrite fmap_Some. split.
    + intros (i' & [Hi Hmin]%IH & ->). split; [done|].
      intros [|j] Hj; simpl; [congruence|]. apply Hmin. lia.
    + intros [Hi Hmin]. destruct i as [|i]; simpl in Hi; [congruence|].
      exists i. split; [|done]. apply IH. split; [done|].
      intros j Hj. apply (Hmin (S j)). lia.
Qed.

Lemma first_index_None (keys : list pystr) (k : pystr) :
  first_index keys k = None ↔ k ∉ keys.
Proof.
  induction keys as [|k' keys IH]; simpl; [set_solver|].
  destruct (decide (k' = k)) as [->|Hne]; [set_solver|].
  rewrite fmap_None, IH. set_solver.
Qed.

Lemma first_index_app (l1 l2 : list pystr) (k : pystr) :
  first_index (l1 ++ l2) k =
    match first_index l1 k with
    | Some i => Some i
    | None => (λ i, length l1 + i)%nat <$> first_index l2 k
    end.
Proof.
  induction l1 as [|k' l1 IH]; simpl.
  { by destruct (first_index l2 k). }
  destruct (decide (k' = k)); [done|].
  rewrite IH. destruct (first_index l1 k); [done|].
  by destruct (first_index l2 k).
Qed.

(** The first-seen discipline of the two dicts, over the list [keys] of the
    keys met by the loop. *)
Section tracker.
Context (keys : list pystr).

Lemma first_index_take_S (n : nat) (k0 k : pystr) :
  keys !! n = Some k0 →
  first_index (take (S n) keys) k =
    match first_index (take n keys) k with
    | Some i => Some i
    | None => if decide (k0 = k) then Some n else None
    end.
Proof.
  intros Hn. rewrite (take_S_r _ _ _ Hn), first_index_app.
  destruct (first_index (take n keys) k); [done|]. simpl.
  apply lookup_lt_Some in Hn. rewrite length_take_le by lia.
  destruct (decide (k0 = k)); simpl; [f_equal; lia | done].
Qed.

Lemma first_index_take_Some (n i : nat) (k : pystr) :
  first_index (take n keys) k = Some i →
  first_index keys k = Some i ∧ (i < n)%nat.
Proof.
  intros Hi. rewrite <- (take_drop n keys) at 1.
  rewrite first_index_app, Hi. split; [done|].
  apply first_index_Some in Hi as [Hi _].
  apply lookup_lt_Some in Hi. rewrite length_take in Hi. lia.
Qed.

Lemma first_index_take_None (n : nat) (k : pystr) :
  keys !! n = Some k →
  first_index (take n keys) k = None →
  first_index keys k = Some n.
Proof.
  intros Hn Hnone. rewrite <- (take_drop n keys), first_index_app, Hnone.
  rewrite (drop_S _ _ _ Hn). simpl. rewrite decide_True by done. simpl.
  apply lookup_lt_Some in Hn. rewrite length_take_le by lia. f_equal. lia.
Qed.

Lemma collisions_S (n : nat) :
  collisions keys (S n) =
    collisions keys n ++ match collision keys n with Some p => [p] | None => [] end.
Proof.
  unfold collisions. rewrite seq_S, omap_app. simpl.
  by destruct (collision keys n).
Qed.

Lemma collision_seen (n i : nat) (k : pystr) :
  keys !! n = Some k →
  first_index (take n keys) k = Some i →
  collision keys n = Some (i, n).
Proof.
  intros Hn [Hi Hlt]%first_index_take_Some.
  unfold collision. rewrite Hn. simpl. rewrite Hi. simpl.
  by rewrite decide_True.
Qed.

Lemma collision_fresh (n : nat) (k : pystr) :
  keys !! n = Some k →
  first_index (take n keys) k = None →
  collision keys n = None.
Proof.
  intros Hn Hi. unfold collision. rewrite Hn. simpl.
  rewrite (first_index_take_None _ _ Hn Hi). simpl.
  rewrite decide_False; [done | lia].
Qed.

Lemma seen_kept (seen : gmap pystr nat) (n i : nat) (k0 : pystr) :
  keys !! n = Some k0 →
  (∀ k, seen !! k = first_index (take n keys) k) →
  seen !! k0 = Some i →
  ∀ k, seen !! k = first_index (take (S n) keys) k.
Proof.
  intros Hn Hinv Hi k. rewrite (first_index_take_S _ _ _ Hn), <- Hinv.
  destruct (seen !! k) eqn:Hk; [done|].
  destruct (decide (k0 = k)); [congruence | done].
Qed.

Lemma seen_inserted (seen : gmap pystr nat) (n : nat) (k0 : pystr) :
  keys !! n = Some k0 →
  (∀ k, seen !! k = first_index (take n keys) k) →
  seen !! k0 = None →
  ∀ k, <[k0 := n]> seen !! k = first_index (take (S n) keys) k.
Proof.
  intros Hn Hinv Hi k. rewrite (first_index_take_S _ _ _ Hn), <- Hinv.
  destruct (decide (k0 = k)) as [<-|Hne].
  - by rewrite lookup_insert_eq, Hi.
  - rewrite lookup_insert_ne by done. by destruct (seen !! k).
Qed.

Lemma collision_Some (j : nat) (p : nat * nat) :
  collision keys j = Some p ↔
  p.2 = j ∧ (p.1 < j)%nat ∧ ∃ k, keys !! j = Some k ∧ first_at keys k p.1.
Proof.
  unfold collision. destruct (keys !! j) as [k|] eqn:Hj; simpl.
  2: { split; [done | by intros (_ & _ & k & ? & _)]. }
  destruct (first_index keys k) as [i|] eqn:Hi; simpl.
  - apply first_index_Some in Hi as Hat.
    destruct (decide (i < j)%nat) as [Hlt|Hge].
    + split.
      * intros [= <-]. simpl. eauto.
      * intros (Hp2 & _ & k' & [= <-] & Hat').
        apply first_index_Some in Hat'. destruct p; simpl in *. congruence.
    + split; [done|]. intros (_ & Hlt & k' & [= <-] & Hat').
      apply first_index_Some in Hat'. simplify_eq. lia.
  - split; [done|]. intros (_ & _ & k' & [= <-] & Hat').
    apply first_index_Some in Hat'. congruence.
Qed.

Lemma elem_of_collisions (n : nat) (p : nat * nat) :
  p ∈ collisions keys n ↔ (p.2 < n)%nat ∧ collision keys p.2 = Some p.
Proof.
  unfold collisions. rewrite list_elem_of_omap. split.
  - intros (j & Hj%elem_of_seq & Hc).
    pose proof Hc as (<- & _)%collision_Some. split; [lia | done].
  - intros [Hlt Hc]. exists p.2. split; [|done]. apply elem_of_seq. lia.
Qed.

Lemma filter_collisions {E} (mk : nat * nat → E) (idx : E → list nat)
    (n j : nat) :
  (∀ p, idx (mk p) = [p.1; p.2]) →
  filter (λ d, idx d !! 1%nat = Some j) (mk <$> collisions keys n) =
    if decide (j < n)%nat
    then match collision keys j with Some p => [mk p] | None => [] end
    else [].
Proof.
  intros Hidx. induction n as [|n IH].
  { rewrite decide_False by lia. done. }
  rewrite collisions_S, fmap_app, filter_app, IH.
  assert (∀ p, collision keys n = Some p →
            filter (λ d, idx d !! 1%nat = Some j) [mk p]
            = if decide (j = n) then [mk p] else []) as Hnew.
  { intros p (Hp & _)%collision_Some. rewrite filter_cons, filter_nil.
    rewrite Hidx. simpl. rewrite Hp.
    destruct (decide (j = n)) as [->|Hne]; [by rewrite decide_True|].
    rewrite decide_False; [done | congruence]. }
  destruct (decide (j < n)%nat) as [Hlt|Hge].
  - rewrite decide_True by lia.
    destruct (collision keys n) as [p|] eqn:Hc; simpl.
    + rewrite (Hnew p eq_refl), decide_False by lia. by rewrite app_nil_r.
    + by rewrite app_nil_r.
  - destruct (decide (j = n)) as [->|Hne].
    + rewrite decide_True by lia.
      destruct (collision keys n) as [p|] eqn:Hc; simpl; [|done].
      by rewrite (Hnew p eq_refl).
    + rewrite decide_False by lia.
      destruct (collision keys n) as [p|] eqn:Hc; simpl; [|done].
      by rewrite (Hnew p eq_refl).
Qed.

End tracker.

Lemma py_strip_content (t : template) :
  is_str (content t) = true → py_strip (content t) = Ok (trimmed_content t).
Proof. unfold trimmed_content. by destruct (content t). Qed.

Lemma title_entry_at (all_templates : list template) (i n : nat) (t : template) :
  all_templates !! n = Some t →
  title_entry all_templates (i, n)
  = {| td_title := trimmed_title t; td_indices := [i; n] |}.
Proof. intros Hn. unfold title_entry. simpl. by rewrite Hn. Qed.

Lemma content_entry_at (all_templates : list template) (i n : nat)
    (first t : template) :
  all_templates !! i = Some first →
  all_templates !! n = Some t →
  content_entry all_templates (i, n)
  = {| cd_title1 := title first; cd_title2 := title t; cd_indices := [i; n] |}.
Proof. intros Hi Hn. unfold content_entry. simpl. by rewrite Hi, Hn. Qed.

Lemma detect_step_inv (all_templates : list template) (n : nat)
    (st : detect_state) (t : template) :
  all_templates !! n = Some t →
  text_record t →
  detect_inv all_templates n st →
  ∃ st', detect_step all_templates st n t = Ok st'
         ∧ detect_inv all_templates (S n) st'.
Proof.
  intros Hn [Hti Hco] [Hst Hsc Hdt Hdc].
  assert ((trimmed_title <$> all_templates) !! n = Some (trimmed_title t)) as Htk
    by by rewrite list_lookup_fmap, Hn.
  assert ((content_prefix <$> all_templates) !! n = Some (content_prefix t)) as Hck
    by by rewrite list_lookup_fmap, Hn.
  unfold detect_step.
  rewrite (py_strip_title t Hti), (py_strip_content t Hco). simpl.
  rewrite content_key_take. fold (content_prefix t).
  destruct (seen_content st !! content_prefix t) as [j|] eqn:Hc.
  - pose proof Hc as Hj. rewrite Hsc in Hj.
    pose proof (collision_seen _ _ _ _ Hck Hj) as Hcol.
    apply first_index_take_Some in Hj as [_ Hj].
    destruct (lookup_lt_is_Some_2 all_templates j) as [first Hfirst].
    { apply lookup_lt_Some in Hn. lia. }
    unfold py_index. rewrite Hfirst.
    destruct (seen_titles st !! trimmed_title t) as [i|] eqn:Ht; simpl;
      eexists; (split; [reflexivity|]); split; simpl.
    + by eapply seen_kept.
    + by eapply seen_kept.
    + rewrite Hst in Ht. rewrite collisions_S, (collision_seen _ _ _ _ Htk Ht).
      rewrite fmap_app, Hdt. simpl. by rewrite (title_entry_at _ _ _ _ Hn).
    + rewrite collisions_S, Hcol, fmap_app, Hdc. simpl.
      by rewrite (content_entry_at _ _ _ _ _ Hfirst Hn).
    + by eapply seen_inserted.
    + by eapply seen_kept.
    + rewrite Hst in Ht. rewrite collisions_S, (collision_fresh _ _ _ Htk Ht).
      by rewrite app_nil_r.
    + rewrite collisions_S, Hcol, fmap_app, Hdc. simpl.
      by rewrite (content_entry_at _ _ _ _ _ Hfirst Hn).
  - pose proof Hc as Hj. rewrite Hsc in Hj.
    pose proof (collision_fresh _ _ _ Hck Hj) as Hcol.
    destruct (seen_titles st !! trimmed_title t) as [i|] eqn:Ht; simpl;
      eexists; (split; [reflexivity|]); split; simpl.
    + by eapply seen_kept.
    + by eapply seen_inserted.
    + rewrite Hst in Ht. rewrite collisions_S, (collision_seen _ _ _ _ Htk Ht).
      rewrite fmap_app, Hdt. simpl. by rewrite (title_entry_at _ _ _ _ Hn).
    + by rewrite collisions_S, Hcol, app_nil_r.
    + by eapply seen_inserted.
    + by eapply seen_inserted.
    + rewrite Hst in Ht. rewrite collisions_S, (collision_fresh _ _ _ Htk Ht).
      by rewrite app_nil_r.
    + by rewrite collisions_S, Hcol, app_nil_r.
Qed.

Lemma detect_step_raises (all_templates : list template) (st : detect_state)
    (n : nat) (t : template) :
  ¬ text_record t → detect_step all_templates st n t = Raise AttributeError.
Proof.
  unfold text_record, detect_step. intros Hnt.
  destruct (title t); simpl; try done.
  destruct (content t); simpl; try done.
  by destruct Hnt.
Qed.

Lemma detect_loop_app (all_templates l1 l2 : list template) (n : nat)
    (st : detect_state) :
  detect_loop all_templates st n (l1 ++ l2) =
    detect_loop all_templates st n l1 ≫=
      λ st', detect_loop all_templates st' (n + length l1) l2.
Proof.
  revert n st. induction l1 as [|t l1 IH]; intros n st; simpl.
  { by rewrite Nat.add_0_r. }
  destruct (detect_step all_templates st n t) as [st1|e]; simpl; [|done].
  rewrite IH. by replace (S n + length l1)%nat with (n + S (length l1))%nat by lia.
Qed.

(** The loop over a segment [rest] of the list that starts at index [n]. *)
Lemma detect_loop_inv (all_templates rest : list template) (n : nat)
    (st : detect_state) :
  Forall text_record rest →
  (∀ i t, rest !! i = Some t → all_templates !! (n + i)%nat = Some t) →
  detect_inv all_templates n st →
  ∃ st', detect_loop all_templates st n rest = Ok st'
         ∧ detect_inv all_templates (n + length rest) st'.
Proof.
  intros Hrest. revert n st.
  induction Hrest as [|t rest Ht _ IH]; intros n st Hseg Hinv; simpl.
  { exists st. by rewrite Nat.add_0_r. }
  assert (all_templates !! n = Some t) as Hn.
  { rewrite <- (Nat.add_0_r n). by apply Hseg. }
  destruct (detect_step_inv _ _ _ _ Hn Ht Hinv) as (st1 & -> & Hinv1). simpl.
  replace (n + S (length rest))%nat with (S n + length rest)%nat by lia.
  apply IH; [|done]. intros i t' Hi.
  replace (S n + i)%nat with (n + S i)%nat by lia. by apply Hseg.
Qed.

Lemma detect_inv_init (all_templates : list template) :
  detect_inv all_templates 0 detect_init.
Proof. split; simpl; try done; intros k; by rewrite lookup_empty. Qed.

Lemma detect_spec (all_templates : list template) :
  Forall text_record all_templates →
  ∃ st, detect all_templates = Ok st
        ∧ detect_inv all_templates (length all_templates) st.
Proof.
  intros Hall.
  apply (detect_loop_inv all_templates all_templates 0); [done | done |].
  apply detect_inv_init.
Qed.

(** A record whose title or content is not text stops the detection loop:
    [.strip()] raises on it. *)
Lemma detect_raises (all_templates : list template) :
  Exists (λ t, ¬ text_record t) all_templates →
  detect all_templates = Raise AttributeError.
Proof.
  intros Hex.
  destruct (first_failure text_record all_templates Hex)
    as (pre & t & post & -> & Hpre & Ht).
  unfold detect. rewrite detect_loop_app.
  destruct (detect_loop_inv (pre ++ t :: post) pre 0 detect_init Hpre)
    as (st & -> & _).
  - intros i t' Hi. by apply lookup_app_l_Some.
  - apply detect_inv_init.
  - simpl. by rewrite detect_step_raises.
Qed.

(** C6: a record whose trimmed title was met at an earlier index gets exactly
    one entry in the titles list, holding the index where that trimmed title
    was first seen and the record's own index; a record that is the first with
    its trimmed title gets none.  The list holds nothing else: every entry
    carries two indices [i; j] with i before j and j an index of the list of
    records. *)
Theorem title_collisions_reported (all_templates : list template) :
  Forall text_record all_templates →
  ∃ st, detect all_templates = Ok st ∧
    (∀ d, d ∈ dup_titles st →
       ∃ i j, td_indices d = [i; j] ∧ (i < j)%nat
              ∧ (j < length all_templates)%nat) ∧
    ∀ j t, all_templates !! j = Some t →
      (∀ i t', (i < j)%nat → all_templates !! i = Some t' →
         trimmed_title t' = trimmed_title t →
         ∃ i0, first_at (trimmed_title <$> all_templates) (trimmed_title t) i0
               ∧ (i0 ≤ i)%nat
               ∧ title_entries_at j st
                 = [{| td_title := trimmed_title t; td_indices := [i0; j] |}])
      ∧ ((∀ i t', (i < j)%nat → all_templates !! i = Some t' →
            trimmed_title t' ≠ trimmed_title t) →
         title_entries_at j st = []).
Proof.
  intros Hall. destruct (detect_spec _ Hall) as (st & Hrun & [_ _ Hdt _]).
  exists st. split; [done|]. split.
  { intros d Hd. rewrite Hdt in Hd.
    apply list_elem_of_fmap in Hd as (p & -> & Hp).
    apply elem_of_collisions in Hp as [Hlt Hc].
    apply collision_Some in Hc as (_ & Hlt' & _).
    exists p.1, p.2. done. }
  intros j t Hj.
  assert ((trimmed_title <$> all_templates) !! j = Some (trimmed_title t)) as Hkj
    by by rewrite list_lookup_fmap, Hj.
  unfold title_entries_at. rewrite Hdt.
  rewrite (filter_collisions _ _ td_indices) by done.
  rewrite decide_True by by eapply lookup_lt_Some.
  split.
  - intros i t' Hlt Hi Heq.
    destruct (first_index (trimmed_title <$> all_templates) (trimmed_title t))
      as [i0|] eqn:Hfi.
    2: { apply first_index_None in Hfi. destruct Hfi.
         by eapply list_elem_of_lookup_2. }
    apply first_index_Some in Hfi as Hat. exists i0.
    assert (i0 ≤ i)%nat as Hle.
    { destruct (decide (i0 ≤ i)%nat) as [|Hgt]; [done|].
      destruct Hat as [_ Hmin]. destruct (Hmin i); [lia|].
      rewrite list_lookup_fmap, Hi. simpl. by rewrite Heq. }
    split; [done|]. split; [done|].
    assert (collision (trimmed_title <$> all_templates) j = Some (i0, j)) as ->.
    { apply collision_Some. simpl. split; [done|]. split; [lia|]. eauto. }
    by rewrite (title_entry_at _ _ _ _ Hj).
  - intros Hfirst.
    destruct (collision (trimmed_title <$> all_templates) j) as [p|] eqn:Hc; [|done].
    apply collision_Some in Hc as (_ & Hlt & k & Hk & [Hp _]).
    rewrite Hkj in Hk. injection Hk as <-.
    rewrite list_lookup_fmap in Hp.
    destruct (all_templates !! p.1) as [t'|] eqn:Hp1; [|done].
    injection Hp as Hp. by destruct (Hfirst p.1 t').
Qed.

(** The records of [email_drafts] are text records. *)
Lemma title_collisions_reported_witness :
  Forall text_record email_drafts
  ∧ ∃ st, detect email_drafts = Ok st ∧
      (∀ d, d ∈ dup_titles st →
         ∃ i j, td_indices d = [i; j] ∧ (i < j)%nat
                ∧ (j < length email_drafts)%nat) ∧
      ∀ j t, email_drafts !! j = Some t →
        (∀ i t', (i < j)%nat → email_drafts !! i = Some t' →
           trimmed_title t' = trimmed_title t →
           ∃ i0, first_at (trimmed_title <$> email_drafts) (trimmed_title t) i0
                 ∧ (i0 ≤ i)%nat
                 ∧ title_entries_at j st
                   = [{| td_title := trimmed_title t; td_indices := [i0; j] |}])
        ∧ ((∀ i t', (i < j)%nat → email_drafts !! i = Some t' →
              trimmed_title t' ≠ trimmed_title t) →
           title_entries_at j st = []).
Proof.
  split; [repeat constructor|].
  apply (title_collisions_reported email_drafts). repeat constructor.
Defined.

(** C3, as stated, fails: the two records of [blank_pair] are reported as a
    content duplicate although the first 200 characters of their content
    fields differ. *)
Lemma content_raw_prefix_counterexample :
  ¬ (∀ st i j ti tj,
       detect blank_pair = Ok st →
       blank_pair !! i = Some ti → blank_pair !! j = Some tj → (i < j)%nat →
       first_at (raw_prefix <$> blank_pair) (raw_prefix ti) i →
       (content_reported st i j ↔ raw_prefix ti = raw_prefix tj)).
Proof.
  intros Hclaim.
  assert (∃ st, detect blank_pair = Ok st
                ∧ dup_content st
                  = [{| cd_title1 := VStr (str "First");
                        cd_title2 := VStr (str "Second");
                        cd_indices := [0%nat; 1%nat] |}]) as (st & Hrun & Hdup).
  { eexists. split; [vm_compute; reflexivity | reflexivity]. }
  specialize (Hclaim st 0%nat 1%nat _ _ Hrun eq_refl eq_refl ltac:(lia)).
  destruct Hclaim as [Hpre _].
  { split; [done|]. intros j Hj. lia. }
  assert (content_reported st 0 1) as Hrep.
  { eexists. rewrite Hdup. split; [apply list_elem_of_here | reflexivity]. }
  apply Hpre in Hrep. discriminate Hrep.
Qed.

(** C3, amended: two records are reported as a content duplicate exactly when
    the first 200 characters of their whitespace-trimmed contents are equal
    and the earlier record is where that prefix was first seen; the entry
    carries the two untrimmed titles. *)
Theorem content_collisions_reported (all_templates : list template) :
  Forall text_record all_templates →
  ∃ st, detect all_templates = Ok st
    ∧ (∀ i j, content_reported st i j ↔
         ∃ ti tj, all_templates !! i = Some ti ∧ all_templates !! j = Some tj
           ∧ (i < j)%nat
           ∧ content_prefix ti = content_prefix tj
           ∧ first_at (content_prefix <$> all_templates) (content_prefix ti) i)
    ∧ (∀ d, d ∈ dup_content st →
         ∃ i j ti tj, all_templates !! i = Some ti ∧ all_templates !! j = Some tj
           ∧ d = {| cd_title1 := title ti; cd_title2 := title tj;
                    cd_indices := [i; j] |}).
Proof.
  intros Hall. destruct (detect_spec _ Hall) as (st & Hrun & [_ _ _ Hdc]).
  exists st. split; [done|].
  assert (∀ p, p ∈ collisions (content_prefix <$> all_templates) (length all_templates) →
            ∃ ti tj, all_templates !! p.1 = Some ti ∧ all_templates !! p.2 = Some tj
              ∧ (p.1 < p.2)%nat ∧ content_prefix ti = content_prefix tj
              ∧ first_at (content_prefix <$> all_templates) (content_prefix ti) p.1)
    as Hcol.
  { intros p [Hlt (_ & Hij & k & Hk & Hat)%collision_Some]%elem_of_collisions.
    rewrite list_lookup_fmap in Hk.
    destruct (all_templates !! p.2) as [tj|] eqn:Hj; [|done].
    injection Hk as <-. pose proof Hat as [Hi _].
    rewrite list_lookup_fmap in Hi.
    destruct (all_templates !! p.1) as [ti|] eqn:Hi'; [|done].
    injection Hi as Hi. exists ti, tj. rewrite Hi. eauto. }
  split.
  - intros i j. unfold content_reported. rewrite Hdc. split.
    + intros (d & (p & -> & Hp)%list_elem_of_fmap & [= <- <-]). by apply Hcol.
    + intros (ti & tj & Hi & Hj & Hlt & Heq & Hat).
      exists (content_entry all_templates (i, j)). split; [|done].
      apply list_elem_of_fmap_2, elem_of_collisions. simpl.
      split; [by eapply lookup_lt_Some|].
      apply collision_Some. simpl. split; [done|]. split; [done|].
      exists (content_prefix ti). split; [|done].
      by rewrite list_lookup_fmap, Hj, Heq.
  - intros d. rewrite Hdc. intros (p & -> & Hp)%list_elem_of_fmap.
    destruct (Hcol p Hp) as (ti & tj & Hi & Hj & _).
    exists p.1, p.2, ti, tj. split; [done|]. split; [done|].
    destruct p as [i j]. by apply content_entry_at.
Qed.

(** The two records of [blank_pair] are text records. *)
Lemma content_collisions_reported_witness :
  Forall text_record blank_pair
  ∧ ∃ st, detect blank_pair = Ok st
      ∧ (∀ i j, content_reported st i j ↔
           ∃ ti tj, blank_pair !! i = Some ti ∧ blank_pair !! j = Some tj
             ∧ (i < j)%nat
             ∧ content_prefix ti = content_prefix tj
             ∧ first_at (content_prefix <$> blank_pair) (content_prefix ti) i)
      ∧ (∀ d, d ∈ dup_content st →
           ∃ i j ti tj, blank_pair !! i = Some ti ∧ blank_pair !! j = Some tj
             ∧ d = {| cd_title1 := title ti; cd_title2 := title tj;
                      cd_indices := [i; j] |}).
Proof.
  split; [repeat constructor|].
  apply (content_collisions_reported blank_pair). repeat constructor.
Defined.

(** ** Sorting *)

Lemma str_ltb_lexico (s1 s2 : pystr) : str_ltb s1 s2 = true ↔ lexico s1 s2.
Proof.
  revert s2. induction s1 as [|c1 s1 IH]; intros [|c2 s2]; simpl; try done.
  change (lexico (c1 :: s1) (c2 :: s2))
    with ((c1 < c2)%N ∨ c1 = c2 ∧ lexico s1 s2).
  rewrite orb_true_iff, andb_true_iff, N.ltb_lt, N.eqb_eq, IH. done.
Qed.

(** *** The order of the categories of one kind *)

Lemma frac_lt_trans (x y z : Z * positive) : frac_lt x y → frac_lt y z → frac_lt x z.
Proof.
  destruct x as [a b], y as [c d], z as [e f].
  exact (QArith_base.Qlt_trans (QArith_base.Qmake a b) (QArith_base.Qmake c d)
           (QArith_base.Qmake e f)).
Qed.

Lemma frac_eq_trans (x y z : Z * positive) : frac_eq x y → frac_eq y z → frac_eq x z.
Proof.
  destruct x as [a b], y as [c d], z as [e f].
  exact (QArith_base.Qeq_trans (QArith_base.Qmake a b) (QArith_base.Qmake c d)
           (QArith_base.Qmake e f)).
Qed.

Lemma frac_lt_eq (x y z : Z * positive) : frac_lt x y → frac_eq y z → frac_lt x z.
Proof.
  destruct x as [a b], y as [c d], z as [e f]. intros Hlt Heq.
  apply (QArith_base.Qlt_le_trans (QArith_base.Qmake a b) (QArith_base.Qmake c d)
           (QArith_base.Qmake e f)); [done|].
  unfold QArith_base.Qle. unfold frac_eq in Heq. simpl in *. lia.
Qed.

Lemma frac_eq_lt (x y z : Z * positive) : frac_eq x y → frac_lt y z → frac_lt x z.
Proof.
  destruct x as [a b], y as [c d], z as [e f]. intros Heq Hlt.
  apply (QArith_base.Qle_lt_trans (QArith_base.Qmake a b) (QArith_base.Qmake c d)
           (QArith_base.Qmake e f)); [|done].
  unfold QArith_base.Qle. unfold frac_eq in Heq. simpl in *. lia.
Qed.

Ltac by_kind κ :=
  destruct κ; unfold of_kind in *;
  repeat match goal with
         | H : is_str ?c = true |- _ => destruct c; try discriminate H; clear H
         | H : ?c = VNone |- _ => subst c
         | H : is_Some (number_of ?c) |- _ =>
             destruct c as [| | |[| |]| | |]; try (by destruct H as [? [=]]); clear H
         end;
  cbn -[frac_lt frac_eq lexico] in *.

Lemma category_trichotomy (κ : kind) (c1 c2 : pyval) :
  of_kind κ c1 → of_kind κ c2 →
  category_lt c1 c2 ∨ category_eq c1 c2 ∨ category_lt c2 c1.
Proof.
  intros H1 H2. by_kind κ; try tauto.
  1: { destruct (trichotomy lexico s s0) as [?|[?|?]]; auto. }
  all: unfold frac_lt, frac_eq; simpl; lia.
Qed.

Lemma category_lt_trans (κ : kind) (c1 c2 c3 : pyval) :
  of_kind κ c1 → of_kind κ c2 → of_kind κ c3 →
  category_lt c1 c2 → category_lt c2 c3 → category_lt c1 c3.
Proof.
  intros H1 H2 H3. by_kind κ; try tauto.
  1: { intros. by etrans. }
  all: apply frac_lt_trans.
Qed.

Lemma category_eq_trans (κ : kind) (c1 c2 c3 : pyval) :
  of_kind κ c1 → of_kind κ c2 → of_kind κ c3 →
  category_eq c1 c2 → category_eq c2 c3 → category_eq c1 c3.
Proof.
  intros H1 H2 H3. by_kind κ; try tauto.
  1: { congruence. }
  all: apply frac_eq_trans.
Qed.

Lemma category_eq_sym (κ : kind) (c1 c2 : pyval) :
  of_kind κ c1 → of_kind κ c2 → category_eq c1 c2 → category_eq c2 c1.
Proof.
  intros H1 H2. by_kind κ; try tauto.
  1: { congruence. }
  all: unfold frac_eq; simpl; lia.
Qed.

Lemma category_lt_eq (κ : kind) (c1 c2 c3 : pyval) :
  of_kind κ c1 → of_kind κ c2 → of_kind κ c3 →
  category_lt c1 c2 → category_eq c2 c3 → category_lt c1 c3.
Proof.
  intros H1 H2 H3. by_kind κ; try tauto.
  1: { congruence. }
  all: apply frac_lt_eq.
Qed.

Lemma category_eq_lt (κ : kind) (c1 c2 c3 : pyval) :
  of_kind κ c1 → of_kind κ c2 → of_kind κ c3 →
  category_eq c1 c2 → category_lt c2 c3 → category_lt c1 c3.
Proof.
  intros H1 H2 H3. by_kind κ; try tauto.
  1: { congruence. }
  all: apply frac_eq_lt.
Qed.

Lemma category_lt_not_eq (κ : kind) (c1 c2 : pyval) :
  of_kind κ c1 → of_kind κ c2 → category_lt c1 c2 → ¬ category_eq c1 c2.
Proof.
  intros H1 H2. by_kind κ; try tauto.
  1: { intros Hlt ->. by apply (irreflexivity lexico) in Hlt. }
  all: unfold frac_lt, frac_eq; simpl; lia.
Qed.

Lemma category_lt_asym (κ : kind) (c1 c2 : pyval) :
  of_kind κ c1 → of_kind κ c2 → category_lt c1 c2 → ¬ category_lt c2 c1.
Proof.
  intros H1 H2. by_kind κ; try tauto.
  1: { intros Hlt Hgt. apply (irreflexivity lexico s). by etrans. }
  all: unfold frac_lt, frac_eq; simpl; lia.
Qed.

(** What the interpreter's comparisons answer on categories of one kind. *)
Lemma py_eq_category (κ : kind) (c1 c2 : pyval) :
  of_kind κ c1 → of_kind κ c2 → py_eq c1 c2 = true ↔ category_eq c1 c2.
Proof.
  intros H1 H2. by_kind κ; try tauto.
  1: { apply bool_decide_eq_true. }
  all: unfold frac_eq; simpl; apply Z.eqb_eq.
Qed.

Lemma py_lt_category (κ : kind) (c1 c2 : pyval) :
  κ ≠ Missing → of_kind κ c1 → of_kind κ c2 →
  ∃ b, py_lt c1 c2 = Ok b ∧ (b = true ↔ category_lt c1 c2).
Proof.
  intros Hκ H1 H2. by_kind κ; try done.
  1: { eexists. split; [done|]. apply str_ltb_lexico. }
  all: eexists; (split; [done|]); unfold frac_lt; simpl; apply Z.ltb_lt.
Qed.

(** *** The order of the keys of one kind *)

Lemma key_lt_ordered (κ : kind) (k1 k2 : pyval * pyval) :
  ordered_key κ k1 → ordered_key κ k2 →
  ∃ b, key_lt k1 k2 = Ok b ∧ (b = true ↔ pair_lt k1 k2).
Proof.
  destruct k1 as [c1 v1], k2 as [c2 v2]. intros [Hc1 Hv1] [Hc2 Hv2]. simpl in *.
  destruct v1 as [| | | |t1| |]; try done. destruct v2 as [| | | |t2| |]; try done.
  unfold key_lt, pair_lt. simpl.
  pose proof (py_eq_category κ c1 c2 Hc1 Hc2) as Heq.
  destruct (py_eq c1 c2) eqn:Hb.
  - assert (category_eq c1 c2) as Hceq by by apply Heq.
    assert (¬ category_lt c1 c2) as Hnlt.
    { intros Hlt. by apply (category_lt_not_eq κ c1 c2). }
    destruct (bool_decide (t1 = t2)) eqn:Ht.
    + apply bool_decide_eq_true in Ht as ->. exists false. split; [done|].
      split; [done|]. intros (? & ? & [= <-] & [= <-] & [?|[_ Hlt]]); [done|].
      by apply (irreflexivity lexico) in Hlt.
    + simpl. exists (str_ltb t1 t2). split; [done|]. rewrite str_ltb_lexico. split.
      * intros Hlt. exists t1, t2. auto.
      * intros (? & ? & [= <-] & [= <-] & [?|[_ Hlt]]); done.
  - assert (¬ category_eq c1 c2) as Hneq by (rewrite <- Heq; congruence).
    assert (κ ≠ Missing) as Hκ.
    { intros ->. simpl in Hc1, Hc2. subst. done. }
    destruct (py_lt_category κ c1 c2 Hκ Hc1 Hc2) as (b & -> & Hlt).
    exists b. split; [done|]. rewrite Hlt. split.
    + intros ?. exists t1, t2. auto.
    + intros (? & ? & _ & _ & [?|[? _]]); done.
Qed.

Lemma pair_lt_le (κ : kind) (k1 k2 : pyval * pyval) :
  ordered_key κ k1 → ordered_key κ k2 → ¬ pair_lt k2 k1 ↔ pair_le k1 k2.
Proof.
  destruct k1 as [c1 v1], k2 as [c2 v2]. intros [Hc1 Hv1] [Hc2 Hv2]. simpl in *.
  destruct v1 as [| | | |t1| |]; try done. destruct v2 as [| | | |t2| |]; try done.
  unfold pair_lt, pair_le. simpl. split.
  - intros Hn. exists t1, t2. split; [done|]. split; [done|].
    destruct (category_trichotomy κ c1 c2 Hc1 Hc2) as [?|[Heq|Hgt]]; [by left| |].
    + right. split; [done|].
      destruct (trichotomy lexico t1 t2) as [?|[?|Hgt]]; [by right|by left|].
      destruct Hn. exists t2, t1. split; [done|]. split; [done|]. right.
      split; [|done]. by apply (category_eq_sym κ).
    + destruct Hn. exists t2, t1. auto.
  - intros (? & ? & [= <-] & [= <-] & Hle) (? & ? & [= <-] & [= <-] & Hgt).
    destruct Hle as [Hlt|[Heq Hle]], Hgt as [Hgt|[Heq' Hgt]].
    + by apply (category_lt_asym κ c1 c2).
    + apply (category_lt_not_eq κ c1 c2); [done..|]. by apply (category_eq_sym κ).
    + by apply (category_lt_not_eq κ c2 c1); [..|apply (category_eq_sym κ)].
    + destruct Hle as [->|Hle]; [by apply (irreflexivity lexico) in Hgt|].
      apply (irreflexivity lexico t1). by etrans.
Qed.

Lemma pair_le_trans (κ : kind) (k1 k2 k3 : pyval * pyval) :
  ordered_key κ k1 → ordered_key κ k2 → ordered_key κ k3 →
  pair_le k1 k2 → pair_le k2 k3 → pair_le k1 k3.
Proof.
  destruct k1 as [c1 v1], k2 as [c2 v2], k3 as [c3 v3].
  intros [Hc1 _] [Hc2 _] [Hc3 _]. unfold pair_le. simpl in *.
  intros (t1 & t2 & -> & -> & H12) (? & t3 & [= <-] & -> & H23).
  exists t1, t3. split; [done|]. split; [done|].
  destruct H12 as [Hlt|[Heq Hle]], H23 as [Hlt'|[Heq' Hle']].
  - left. by apply (category_lt_trans κ c1 c2 c3).
  - left. by apply (category_lt_eq κ c1 c2 c3).
  - left. by apply (category_eq_lt κ c1 c2 c3).
  - right. split; [by apply (category_eq_trans κ c1 c2 c3)|].
    destruct Hle as [->|Hle], Hle' as [->|Hle']; auto. right. by etrans.
Qed.

Lemma pair_lt_asym (κ : kind) (k1 k2 : pyval * pyval) :
  ordered_key κ k1 → ordered_key κ k2 → pair_lt k1 k2 → ¬ pair_lt k2 k1.
Proof.
  intros H1 H2 Hlt. apply (pair_lt_le κ); [done..|].
  destruct Hlt as (t1 & t2 & ? & ? & [?|[? ?]]); exists t1, t2;
    (split; [done|]); (split; [done|]); [by left | right; auto].
Qed.

Lemma pair_not_lt_trans (κ : kind) (k1 k2 k3 : pyval * pyval) :
  ordered_key κ k1 → ordered_key κ k2 → ordered_key κ k3 →
  ¬ pair_lt k2 k1 → ¬ pair_lt k3 k2 → ¬ pair_lt k3 k1.
Proof.
  intros H1 H2 H3. rewrite !(pair_lt_le κ) by done. by apply (pair_le_trans κ).
Qed.

(** *** The sort rearranges *)

Section sort_perm.
Context {A : Type}.
Implicit Types (l acc rest run : list ((pyval * pyval) * A)).

Lemma run_asc_app acc last rest run rest' :
  run_asc acc last rest = Ok (run, rest') →
  run ++ rest' = reverse (last :: acc) ++ rest.
Proof.
  revert acc last. induction rest as [|x rest IH]; intros acc last; simpl.
  { intros [= <- <-]. done. }
  destruct (key_lt x.1 last.1) as [[|]|e]; simpl; [by intros [= <- <-] | | done].
  intros ->%IH. by rewrite (reverse_cons _ x), <- (assoc_L (++)).
Qed.

Lemma run_desc_perm acc last rest run rest' :
  run_desc acc last rest = Ok (run, rest') →
  run ++ rest' ≡ₚ (last :: acc) ++ rest.
Proof.
  revert acc last. induction rest as [|x rest IH]; intros acc last; simpl.
  { intros [= <- <-]. done. }
  destruct (key_lt x.1 last.1) as [[|]|e]; simpl; [|by intros [= <- <-] | done].
  intros ->%IH. apply (Permutation_middle (last :: acc)).
Qed.

Lemma insert_at_perm (i : nat) x l : take i l ++ x :: drop i l ≡ₚ x :: l.
Proof. by rewrite <- Permutation_middle, take_drop. Qed.

Lemma binarysort_perm l rest out :
  binarysort l rest = Ok out → out ≡ₚ l ++ rest.
Proof.
  revert l. induction rest as [|x rest IH]; intros l; simpl.
  { intros [= <-]. by rewrite app_nil_r. }
  destruct (bisect _ _ _ _ _) as [i|e]; simpl; [|done].
  intros ->%IH. rewrite insert_at_perm. apply Permutation_middle.
Qed.

Lemma sort_keyed_perm l out : sort_keyed l = Ok out → out ≡ₚ l.
Proof.
  unfold sort_keyed. destruct l as [|a [|b rest]]; [by intros [= <-]..|].
  destruct (key_lt b.1 a.1) as [falling|e]; simpl; [|done].
  destruct falling.
  - destruct (run_desc [a] b rest) as [[run rest']|e] eqn:Hrun; simpl; [|done].
    intros ->%binarysort_perm. rewrite (run_desc_perm _ _ _ _ _ Hrun).
    simpl. apply Permutation_swap.
  - destruct (run_asc [a] b rest) as [[run rest']|e] eqn:Hrun; simpl; [|done].
    intros ->%binarysort_perm. by rewrite (run_asc_app _ _ _ _ _ Hrun).
Qed.

End sort_perm.

(** *** The sort on keys that are ordered *)

Section sort_ordered.
Context {A : Type} (D : pyval * pyval → Prop) (lt : relation (pyval * pyval)).
Context (lt_ok : ∀ k1 k2, D k1 → D k2 →
           ∃ b, key_lt k1 k2 = Ok b ∧ (b = true ↔ lt k1 k2)).
Context (le_trans : ∀ k1 k2 k3, D k1 → D k2 → D k3 →
           ¬ lt k2 k1 → ¬ lt k3 k2 → ¬ lt k3 k1).
Context (lt_asym : ∀ k1 k2, D k1 → D k2 → lt k1 k2 → ¬ lt k2 k1).
Implicit Types (l acc rest run : list ((pyval * pyval) * A)).

Lemma lt_le_trans k1 k2 k3 :
  D k1 → D k2 → D k3 → lt k1 k2 → ¬ lt k3 k2 → lt k1 k3.
Proof.
  intros H1 H2 H3 Hlt Hle.
  destruct (lt_ok k1 k3 H1 H3) as ([|] & _ & Hb); [by apply Hb|].
  destruct (le_trans k2 k3 k1); try done. intros ?%Hb. done.
Qed.

Lemma sorted_snoc l x :
  Forall (λ a, D a.1) l → D x.1 →
  StronglySorted (λ a b, ¬ lt b.1 a.1) l →
  (∀ y, last l = Some y → ¬ lt x.1 y.1) →
  StronglySorted (λ a b, ¬ lt b.1 a.1) (l ++ [x]).
Proof.
  intros Hl Hx Hsorted Hlast. apply StronglySorted_app_2; [|done|repeat constructor].
  intros e ? He ->%list_elem_of_singleton.
  destruct (last l) as [y|] eqn:Hy.
  2: { apply last_None in Hy as ->. by apply elem_of_nil in He. }
  apply last_Some in Hy as [l' ->].
  apply elem_of_app in He as [He| ->%list_elem_of_singleton]; [|by apply Hlast].
  rewrite Forall_app, Forall_singleton in Hl. destruct Hl as [Hl' Hy].
  rewrite Forall_forall in Hl'.
  apply (le_trans e.1 y.1 x.1); [by apply Hl' | done | done | | by apply Hlast].
  apply (StronglySorted_app_1_elem_of _ _ _ _ _ Hsorted); [done|].
  by apply list_elem_of_singleton.
Qed.

Lemma run_asc_spec acc last rest :
  Forall (λ a, D a.1) (last :: acc) → Forall (λ a, D a.1) rest →
  StronglySorted (λ a b, ¬ lt b.1 a.1) (reverse (last :: acc)) →
  ∃ run rest', run_asc acc last rest = Ok (run, rest')
    ∧ StronglySorted (λ a b, ¬ lt b.1 a.1) run ∧ Forall (λ a, D a.1) run ∧ Forall (λ a, D a.1) rest'.
Proof.
  intros Hacc Hrest. revert acc last Hacc.
  induction Hrest as [|x rest Hx Hrest IH]; intros acc last Hacc Hsorted; simpl.
  { eexists _, _. split; [done|]. split; [done|]. split; [|done].
    by apply Forall_reverse. }
  pose proof Hacc as [Hlast _]%Forall_cons.
  destruct (lt_ok x.1 last.1 Hx Hlast) as (b & -> & Hb). simpl. destruct b.
  { eexists _, _. split; [done|]. split; [done|]. split; [by apply Forall_reverse|].
    by constructor. }
  apply IH; [by constructor|]. rewrite (reverse_cons _ x).
  apply sorted_snoc; [by apply Forall_reverse | done | done |].
  intros y. rewrite reverse_cons, last_snoc. intros [= <-]. intros ?%Hb. done.
Qed.

Lemma run_desc_spec acc last rest :
  Forall (λ a, D a.1) (last :: acc) → Forall (λ a, D a.1) rest →
  StronglySorted (λ a b, ¬ lt b.1 a.1) (last :: acc) →
  ∃ run rest', run_desc acc last rest = Ok (run, rest')
    ∧ StronglySorted (λ a b, ¬ lt b.1 a.1) run ∧ Forall (λ a, D a.1) run ∧ Forall (λ a, D a.1) rest'.
Proof.
  intros Hacc Hrest. revert acc last Hacc.
  induction Hrest as [|x rest Hx Hrest IH]; intros acc last Hacc Hsorted; simpl.
  { eexists _, _. done. }
  pose proof Hacc as [Hlast Hacc']%Forall_cons.
  destruct (lt_ok x.1 last.1 Hx Hlast) as (b & -> & Hb). simpl. destruct b.
  2: { eexists _, _. split; [done|]. split; [done|]. split; [done|]. by constructor. }
  assert (lt x.1 last.1) as Hlt by by apply Hb.
  apply IH; [by constructor|]. constructor; [done|].
  apply StronglySorted_cons in Hsorted as [Hle _].
  constructor; [by apply lt_asym|].
  rewrite Forall_forall in *. intros e He.
  apply (le_trans x.1 last.1 e.1); auto.
Qed.

Lemma sorted_lookup l (i j : nat) x y :
  StronglySorted (λ a b, ¬ lt b.1 a.1) l → (i < j)%nat → l !! i = Some x → l !! j = Some y →
  ¬ lt y.1 x.1.
Proof.
  intros Hsorted Hij Hi Hj.
  rewrite <- (take_drop j l) in Hsorted.
  apply (StronglySorted_app_1_elem_of _ _ _ _ _ Hsorted).
  - apply list_elem_of_lookup. exists i. by rewrite lookup_take_lt.
  - apply list_elem_of_lookup. exists 0%nat. by rewrite lookup_drop, Nat.add_0_r.
Qed.

Lemma bisect_spec fuel pivot l (lo hi : nat) :
  D pivot → Forall (λ a, D a.1) l → StronglySorted (λ a b, ¬ lt b.1 a.1) l →
  (lo ≤ hi ≤ length l)%nat → (hi - lo ≤ fuel)%nat →
  (∀ q e, l !! q = Some e → (q < lo)%nat → ¬ lt pivot e.1) →
  (∀ q e, l !! q = Some e → (hi ≤ q)%nat → lt pivot e.1) →
  ∃ i, bisect fuel pivot l lo hi = Ok i ∧ (i ≤ length l)%nat
    ∧ (∀ q e, l !! q = Some e → (q < i)%nat → ¬ lt pivot e.1)
    ∧ (∀ q e, l !! q = Some e → (i ≤ q)%nat → lt pivot e.1).
Proof.
  intros Hp Hl Hsorted. revert lo hi.
  induction fuel as [|fuel IH]; intros lo hi Hbounds Hfuel Hlo Hhi; cbn [bisect].
  { exists lo. split; [done|]. split; [lia|]. split; [done|].
    intros q e Hq Hge. apply (Hhi q e Hq). lia. }
  destruct (decide (lo < hi)%nat) as [Hlt|Hge].
  2: { exists lo. split; [done|]. split; [lia|]. split; [done|].
       intros q e Hq Hle. apply (Hhi q e Hq). lia. }
  pose proof (Nat.div_mod_eq (hi - lo) 2) as Hdiv.
  pose proof (Nat.mod_upper_bound (hi - lo) 2 ltac:(done)) as Hmod.
  set (p := (lo + (hi - lo) / 2)%nat) in *. cbv zeta.
  assert (lo ≤ p < hi)%nat as Hpb by (unfold p; lia).
  destruct (lookup_lt_is_Some_2 l p) as [y Hy]; [lia|]. rewrite Hy.
  assert (D y.1) as HDy.
  { rewrite Forall_forall in Hl. apply Hl. by eapply list_elem_of_lookup_2. }
  destruct (lt_ok pivot y.1 Hp HDy) as (b & -> & Hb). simpl. destruct b.
  - assert (lt pivot y.1) as Hlty by by apply Hb.
    apply IH; [lia | unfold p; lia | done |].
    intros q e Hq Hge. destruct (decide (q = p)) as [->|Hne]; [congruence|].
    assert (D e.1) as HDe.
    { rewrite Forall_forall in Hl. apply Hl. by eapply list_elem_of_lookup_2. }
    apply (lt_le_trans pivot y.1 e.1); [done..|].
    apply (sorted_lookup l p q y e); [done | lia | done | done].
  - assert (¬ lt pivot y.1) as Hnlt by (intros ?%Hb; done).
    apply IH; [lia | unfold p in *; lia | | done].
    intros q e Hq Hle. destruct (decide (q = p)) as [->|Hne]; [congruence|].
    assert (D e.1) as HDe.
    { rewrite Forall_forall in Hl. apply Hl. by eapply list_elem_of_lookup_2. }
    apply (le_trans e.1 y.1 pivot); [done..| |done].
    apply (sorted_lookup l q p e y); [done | lia | done | done].
Qed.

Lemma insert_at_sorted (i : nat) x l :
  D x.1 → Forall (λ a, D a.1) l → StronglySorted (λ a b, ¬ lt b.1 a.1) l →
  (∀ q e, l !! q = Some e → (q < i)%nat → ¬ lt x.1 e.1) →
  (∀ q e, l !! q = Some e → (i ≤ q)%nat → lt x.1 e.1) →
  StronglySorted (λ a b, ¬ lt b.1 a.1) (take i l ++ x :: drop i l).
Proof.
  intros Hx Hl Hsorted Hbefore Hafter.
  rewrite <- (take_drop i l) in Hsorted.
  apply StronglySorted_app in Hsorted as (Hcross & Htake & Hdrop).
  assert (∀ e, e ∈ drop i l → lt x.1 e.1) as Hafter'.
  { intros e [q Hq]%list_elem_of_lookup. rewrite lookup_drop in Hq.
    apply (Hafter _ _ Hq). lia. }
  assert (∀ e, e ∈ take i l → ¬ lt x.1 e.1) as Hbefore'.
  { intros e [q Hq]%list_elem_of_lookup.
    apply lookup_take_Some in Hq as [Hq Hlt]. by apply (Hbefore _ _ Hq). }
  assert (∀ e, e ∈ l → D e.1) as HD by by apply Forall_forall.
  apply StronglySorted_app_2; [|done|].
  - intros e1 e2 H1 [->|H2]%elem_of_cons; [by apply Hbefore'|by apply Hcross].
  - constructor; [done|]. apply Forall_forall. intros e He.
    apply lt_asym; [done | | by apply Hafter'].
    apply HD. rewrite <- (take_drop i l). apply elem_of_app. by right.
Qed.

Lemma binarysort_spec l rest :
  Forall (λ a, D a.1) l → Forall (λ a, D a.1) rest → StronglySorted (λ a b, ¬ lt b.1 a.1) l →
  ∃ out, binarysort l rest = Ok out ∧ StronglySorted (λ a b, ¬ lt b.1 a.1) out.
Proof.
  intros Hl Hrest. revert l Hl.
  induction Hrest as [|x rest Hx Hrest IH]; intros l Hl Hsorted; simpl.
  { by exists l. }
  destruct (bisect_spec (length l) x.1 l 0 (length l)) as (i & -> & Hi & Hlo & Hhi);
    [done | done | done | lia | lia | intros q e _ Hq; lia | |].
  { intros q e Hq%lookup_lt_Some Hge. lia. }
  simpl. apply IH.
  - rewrite <- (take_drop i l) in Hl. apply Forall_app in Hl as [??].
    apply Forall_app. split; [done|]. by constructor.
  - by apply insert_at_sorted.
Qed.

Lemma sort_keyed_spec l :
  Forall (λ a, D a.1) l →
  ∃ out, sort_keyed l = Ok out ∧ out ≡ₚ l ∧ StronglySorted (λ a b, ¬ lt b.1 a.1) out.
Proof.
  intros Hl.
  cut (∃ out, sort_keyed l = Ok out ∧ StronglySorted (λ a b, ¬ lt b.1 a.1) out).
  { intros (out & Hrun & Hsorted). exists out.
    split; [done|]. split; [by apply sort_keyed_perm | done]. }
  unfold sort_keyed. destruct l as [|a [|b rest]].
  { exists []. split; [done|constructor]. }
  { exists [a]. split; [done|repeat constructor]. }
  apply Forall_cons in Hl as [Ha [Hb Hrest]%Forall_cons].
  destruct (lt_ok b.1 a.1 Hb Ha) as (falling & -> & Hf). simpl. destruct falling.
  - destruct (run_desc_spec [a] b rest) as (run & rest' & -> & Hs & Hrun & Hrest');
      [by repeat constructor | done | |].
    { constructor; [repeat constructor|]. constructor; [|done].
      apply lt_asym; [done..|]. by apply Hf. }
    simpl. by apply binarysort_spec.
  - destruct (run_asc_spec [a] b rest) as (run & rest' & -> & Hs & Hrun & Hrest');
      [by repeat constructor | done | |].
    { change (reverse [b; a]) with [a; b]. constructor; [repeat constructor|].
      constructor; [|done]. simpl. intros ?%Hf. done. }
    simpl. by apply binarysort_spec.
Qed.

(** A list that is in order already is left as it is. *)
Lemma run_asc_sorted acc last rest :
  Forall (λ a, D a.1) (last :: rest) → StronglySorted (λ a b, ¬ lt b.1 a.1) (last :: rest) →
  run_asc acc last rest = Ok (reverse (last :: acc) ++ rest, []).
Proof.
  revert acc last. induction rest as [|x rest IH]; intros acc last Hl Hsorted; simpl.
  { by rewrite app_nil_r. }
  apply Forall_cons in Hl as [Hlast Hl]. pose proof Hl as [Hx _]%Forall_cons.
  apply StronglySorted_cons in Hsorted as [Hle Hsorted].
  apply Forall_cons in Hle as [Hle _].
  destruct (lt_ok x.1 last.1 Hx Hlast) as ([|] & -> & Hb); simpl.
  { destruct Hle. by apply Hb. }
  rewrite IH by done. by rewrite (reverse_cons _ x), <- (assoc_L (++)).
Qed.

Lemma sort_keyed_sorted l :
  Forall (λ a, D a.1) l → StronglySorted (λ a b, ¬ lt b.1 a.1) l → sort_keyed l = Ok l.
Proof.
  intros Hl Hsorted. unfold sort_keyed. destruct l as [|a [|b rest]]; [done..|].
  pose proof Hl as [Ha [Hb Hrest]%Forall_cons]%Forall_cons.
  pose proof Hsorted as [[Hle _]%Forall_cons Hsorted']%StronglySorted_cons.
  destruct (lt_ok b.1 a.1 Hb Ha) as ([|] & -> & Hf); simpl.
  { destruct Hle. by apply Hf. }
  rewrite run_asc_sorted by (done || by apply Forall_cons). simpl. done.
Qed.

End sort_ordered.

Lemma StronglySorted_with {A} (R : relation A) (Q : A → Prop) (l : list A) :
  Forall Q l → StronglySorted R l →
  StronglySorted (λ a b, Q a ∧ Q b ∧ R a b) l.
Proof.
  intros HQ. induction 1 as [|x l Hsorted IH Hx]; [constructor|].
  apply Forall_cons in HQ as [Hqx HQ].
  constructor; [by apply IH|].
  rewrite Forall_forall in *. intros y Hy. auto.
Qed.

(** *** The sort of the records *)

Lemma sort_templates_perm (unique sorted : list template) :
  sort_templates unique = Ok sorted → sorted ≡ₚ unique.
Proof.
  unfold sort_templates. intros H.
  destruct (sort_keyed _) as [keyed|e] eqn:Hk; simpl in H; [|done].
  injection H as <-. apply sort_keyed_perm in Hk.
  change (keyed.*2 ≡ₚ unique). rewrite Hk, <- list_fmap_compose.
  by rewrite list_fmap_id.
Qed.

Lemma keyed_ordered (κ : kind) (l : list template) :
  Forall text_title l → Forall (λ t, of_kind κ (category t)) l →
  Forall (λ kt : (pyval * pyval) * template, ordered_key κ kt.1 ∧ kt.1 = sort_key kt.2)
    (map (λ t, (sort_key t, t)) l).
Proof.
  intros Ht Hc. apply Forall_fmap, Forall_forall. intros t Hin.
  rewrite Forall_forall in Ht, Hc. split; [|done]. split; simpl; auto.
  by apply Ht.
Qed.

Lemma record_le_pair (a b : template) :
  record_le a b ↔ pair_le (sort_key a) (sort_key b).
Proof. done. Qed.

Lemma sort_templates_ordered (κ : kind) (l : list template) :
  Forall text_title l → Forall (λ t, of_kind κ (category t)) l →
  ∃ sorted, sort_templates l = Ok sorted
    ∧ sorted ≡ₚ l
    ∧ StronglySorted record_le sorted.
Proof.
  intros Ht Hc. pose proof (keyed_ordered κ l Ht Hc) as Hkeyed.
  destruct (sort_keyed_spec (ordered_key κ) pair_lt (key_lt_ordered κ)
              (pair_not_lt_trans κ) (pair_lt_asym κ)
              (map (λ t, (sort_key t, t)) l)) as (out & Hrun & Hperm & Hsorted).
  { eapply Forall_impl; [done|]. by intros ? [? _]. }
  assert (sort_templates l = Ok out.*2) as Hsort.
  { unfold sort_templates. by rewrite Hrun. }
  exists out.*2. split; [done|]. split; [by apply sort_templates_perm|].
  rewrite <- Hperm in Hkeyed.
  pose proof (StronglySorted_with _ _ _ Hkeyed Hsorted) as Hboth.
  eapply (StronglySorted_fmap snd _ record_le); [|done].
  intros [k1 a] [k2 b] ([H1 E1] & [H2 E2] & Hle). simpl in *. subst.
  apply record_le_pair. by apply (pair_lt_le κ).
Qed.

Lemma sort_templates_in_order (κ : kind) (l : list template) :
  Forall text_title l → Forall (λ t, of_kind κ (category t)) l →
  StronglySorted record_le l → sort_templates l = Ok l.
Proof.
  intros Ht Hc Hsorted. pose proof (keyed_ordered κ l Ht Hc) as Hkeyed.
  unfold sort_templates.
  rewrite (sort_keyed_sorted (ordered_key κ) pair_lt (key_lt_ordered κ)).
  - simpl. f_equal. change (((λ t, (sort_key t, t)) <$> l).*2 = l).
    rewrite <- list_fmap_compose. by rewrite list_fmap_id.
  - eapply Forall_impl; [done|]. by intros ? [? _].
  - apply (StronglySorted_fmap (λ t, (sort_key t, t))
             (λ a b, ordered_key κ (sort_key a) ∧ ordered_key κ (sort_key b)
                     ∧ record_le a b)).
    + intros a b (Ha & Hb & Hle). simpl. by apply (pair_lt_le κ).
    + apply (StronglySorted_with record_le (λ t, ordered_key κ (sort_key t)));
        [|done].
      rewrite Forall_fmap in Hkeyed. eapply Forall_impl; [done|]. by intros ? [? _].
Qed.

Lemma orderable_text (l : list template) : Forall text_keys l → orderable l.
Proof.
  intros Hl. split.
  - eapply Forall_impl; [done|]. by intros ? [_ ?].
  - exists Text. eapply Forall_impl; [done|]. by intros ? [? _].
Qed.



(** ** Loaders *)

Lemma elem_of_int_lstrip (s : pystr) (c : N) : c ∈ int_lstrip s → c ∈ s.
Proof.
  induction s as [|c' s IH]; simpl; [done|].
  destruct (is_int_space c'); [|done]. intros Hc. right. by apply IH.
Qed.

Lemma elem_of_int_strip (s : pystr) (c : N) : c ∈ int_strip s → c ∈ s.
Proof.
  unfold int_strip. rewrite elem_of_reverse.
  intros Hc%elem_of_int_lstrip. rewrite elem_of_reverse in Hc.
  by apply elem_of_int_lstrip.
Qed.

Lemma digit_value_nonneg (c : N) (v : Z) : digit_value c = Some v → 0 ≤ v.
Proof.
  unfold digit_value.
  destruct ((48 <=? c)%N && (c <=? 57)%N) eqn:Hc.
  - intros [= <-]. apply andb_true_iff in Hc as [H1%N.leb_le _]. lia.
  - destruct (find _ _); intros [= <-]. lia.
Qed.

Lemma digits_from_nonneg (ds : pystr) (acc n : Z) :
  0 ≤ acc → digits_from acc ds = Some n → 0 ≤ n.
Proof.
  remember (length ds) as len eqn:Hlen.
  revert ds acc Hlen.
  induction len as [len IH] using lt_wf_ind. intros ds acc -> Hacc.
  destruct ds as [|c r]; simpl; [by intros [= <-]|].
  destruct (c =? 95)%N.
  - destruct r as [|d r']; [done|].
    destruct (digit_value d) as [v|] eqn:Hd; [|done].
    apply digit_value_nonneg in Hd.
    apply (IH (length r')); simpl; [lia | done | lia].
  - destruct (digit_value c) as [v|] eqn:Hd; [|done].
    apply digit_value_nonneg in Hd.
    apply (IH (length r)); simpl; [lia | done | lia].
Qed.

Lemma parse_digits_nonneg (ds : pystr) (n : Z) : parse_digits ds = Some n → 0 ≤ n.
Proof.
  destruct ds as [|d r]; simpl; [done|].
  destruct (digit_value d) as [v|] eqn:Hd; [|done].
  apply digits_from_nonneg. by eapply digit_value_nonneg.
Qed.

Lemma int_of_str_nonneg (s : pystr) (z : Z) :
  45%N ∉ s → int_of_str s = Ok z → 0 ≤ z.
Proof.
  intros Hminus. unfold int_of_str.
  assert (45%N ∉ int_strip s) as Hbody by (intros ?%elem_of_int_strip; done).
  destruct (int_strip s) as [|c r]; [done|].
  destruct (c =? 45)%N eqn:Hc.
  { apply N.eqb_eq in Hc as ->. destruct Hbody. left. }
  destruct (c =? 43)%N;
    (destruct (parse_digits _) as [n|] eqn:Hn; [|done]);
    (destruct (int_max_str_digits <? _); [done|]);
    intros [= <-]; by eapply parse_digits_nonneg.
Qed.

Lemma py_int_nonneg (v : pyval) (z : Z) :
  nonneg_source v = true → py_int v = Ok z → 0 ≤ z.
Proof.
  destruct v as [|b|z'|f|s|l|d]; simpl; try done.
  - intros _ [= <-]. by destruct b.
  - intros Hz%Z.leb_le [= <-]. done.
  - destruct f as [n d| |]; try done.
    intros Hn%Z.leb_le [= <-]. apply Z.quot_pos; lia.
  - intros Hs%negb_true_iff%bool_decide_eq_false. by apply int_of_str_nonneg.
Qed.

Lemma guarded_count_nonneg (row : pydict) (k : pystr) (z : Z) :
  nonneg_source (dict_get row k (VInt 0)) = true →
  guarded_count row k = Ok z → 0 ≤ z.
Proof.
  unfold guarded_count. intros Hsrc.
  destruct (py_truthy _); [by apply py_int_nonneg|]. by intros [= <-].
Qed.

Ltac inv_bind :=
  repeat match goal with
  | H : _ ≫= _ = Ok _ |- _ =>
      let a := fresh "a" in
      let Ha := fresh "Ha" in
      apply bind_Ok in H as (a & Ha & H)
  | H : Ok _ = Ok _ |- _ => injection H as H
  end.

Lemma load_row_fields (l : loader) (row : pydict) (t : template) :
  load_row l row = Ok t →
  count_of l row (str "viewCount") = Ok (viewCount t)
  ∧ count_of l row (str "useCount") = Ok (useCount t)
  ∧ format t = (if sample_source l then VStr (str "html")
                else dict_get row (str "format") (VStr (str "plain"))).
Proof.
  destruct l; unfold load_row, count_of; simpl;
    unfold load_plaintext_csv_row, load_analyzed_csv_row,
      load_sample_csv_row, load_sample_json_item, load_plaintext_json_item,
      load_plain_csv_row;
    intros H; inv_bind; simpl in *; inv_bind; subst; simpl; auto.
Qed.

Lemma count_of_expected (l : loader) (row : pydict) (k : pystr) :
  count_of l row k = expected_count l (dict_lookup row k).
Proof.
  unfold count_of, expected_count, guarded_count, dict_get.
  destruct (dict_lookup row k) as [v|]; destruct (guarded l); simpl; try done.
  by destruct (py_truthy v).
Qed.

Lemma json_item_is_dict (item : pyval) (t : template) :
  load_sample_json_item item = Ok t ∨ load_plaintext_json_item item = Ok t →
  ∃ d, item = VDict d.
Proof.
  unfold load_sample_json_item, load_plaintext_json_item, item_tags.
  destruct item; simpl; intros [H|H]; try done; eauto.
Qed.

(** C4, as stated, fails: the sample CSV loop turns the row [negative_row],
    whose view count reads -5, into a record with a negative viewCount. *)
Lemma negative_count_counterexample :
  ¬ (∀ t, load_row SampleCsv negative_row = Ok t →
          0 ≤ viewCount t ∧ 0 ≤ useCount t).
Proof.
  intros Hclaim.
  destruct (Hclaim _ ltac:(vm_compute; reflexivity)) as [Hneg _].
  simpl in Hneg. lia.
Qed.

(** C4, amended: in every record a loop produces, viewCount and useCount are
    integers, and each of them is non-negative whenever the source field is
    missing or holds a value that is not negative (a string without a minus
    sign, a number not below zero). *)
Theorem counts_nonneg_of_source (l : loader) (row : pydict) (t : template) :
  load_row l row = Ok t →
  (nonneg_source (dict_get row (str "viewCount") (VInt 0)) = true → 0 ≤ viewCount t)
  ∧ (nonneg_source (dict_get row (str "useCount") (VInt 0)) = true → 0 ≤ useCount t).
Proof.
  intros (Hvc & Huc & _)%load_row_fields. unfold count_of in *.
  destruct (guarded l); split; intros Hsrc;
    eauto using guarded_count_nonneg, py_int_nonneg.
Qed.

(** The sample CSV loop builds [formatted_record] from [formatted_row]. *)
Lemma counts_nonneg_of_source_witness :
  load_row SampleCsv formatted_row = Ok formatted_record
  ∧ (nonneg_source (dict_get formatted_row (str "viewCount") (VInt 0)) = true →
     0 ≤ viewCount formatted_record)
  ∧ (nonneg_source (dict_get formatted_row (str "useCount") (VInt 0)) = true →
     0 ≤ useCount formatted_record).
Proof.
  split; [vm_compute; reflexivity|].
  apply (counts_nonneg_of_source SampleCsv formatted_row formatted_record).
  vm_compute; reflexivity.
Defined.

(** What every loop stores for a count field: 0 for one that is missing
    from the row, and [int] of the value for one that is present, except that
    the plaintext CSV and analyzed CSV loops store 0 for a present value that
    is falsy. *)
Lemma count_fields_loaded (l : loader) (row : pydict) :
  (∀ t, load_row l row = Ok t →
     expected_count l (dict_lookup row (str "viewCount")) = Ok (viewCount t)
     ∧ expected_count l (dict_lookup row (str "useCount")) = Ok (useCount t))
  ∧ (∀ e, expected_count l (dict_lookup row (str "viewCount")) = Raise e
          ∨ expected_count l (dict_lookup row (str "useCount")) = Raise e →
       ∃ e', load_row l row = Raise e').
Proof.
  assert (∀ t, load_row l row = Ok t →
     expected_count l (dict_lookup row (str "viewCount")) = Ok (viewCount t)
     ∧ expected_count l (dict_lookup row (str "useCount")) = Ok (useCount t))
    as Hok.
  { intros t (Hvc & Huc & _)%load_row_fields.
    by rewrite <- !count_of_expected. }
  split; [done|]. intros e He.
  destruct (load_row l row) as [t|e'] eqn:Hrun; [|by exists e'].
  destruct (Hok t eq_refl) as [Hvc Huc]. destruct He; congruence.
Qed.

(** C5: a count that the row does not give is not filled with 0 by every
    loop.  On [blank_count_row], whose view count cell is empty, the sample
    CSV loop raises ValueError where the plaintext CSV and analyzed CSV loops
    store 0; on [short_row], whose count cells are missing, it raises
    TypeError where they build a record with both counts 0. *)
Theorem sample_csv_blank_count_raises :
  load_row SampleCsv blank_count_row = Raise ValueError
  ∧ load_row SampleCsv short_row = Raise TypeError
  ∧ (∃ t, load_row PlaintextCsv blank_count_row = Ok t ∧ viewCount t = 0)
  ∧ (∃ t, load_row AnalyzedCsv blank_count_row = Ok t ∧ viewCount t = 0)
  ∧ load_row PlaintextCsv short_row = Ok short_record
  ∧ load_row AnalyzedCsv short_row = Ok short_record.
Proof.
  split; [by vm_compute|]. split; [by vm_compute|].
  split; [eexists; split; by vm_compute|].
  split; [eexists; split; by vm_compute|].
  split; by vm_compute.
Qed.

(** C10: a record built from a row of sample-templates.csv or from an item of
    sample-templates.json has format "html", whatever format the row brings;
    the other three loops take the format of the row, "plain" when it has
    none. *)
Theorem sample_format_html (l : loader) (row : pydict) (t : template) :
  load_row l row = Ok t →
  format t = (if sample_source l then VStr (str "html")
              else dict_get row (str "format") (VStr (str "plain"))).
Proof. by intros (_ & _ & Hf)%load_row_fields. Qed.

(** [formatted_row] asks for "plain" and is loaded as "html". *)
Lemma sample_format_html_witness :
  load_row SampleCsv formatted_row = Ok formatted_record
  ∧ format formatted_record = VStr (str "html").
Proof.
  split; [vm_compute; reflexivity|].
  apply (sample_format_html SampleCsv formatted_row formatted_record).
  vm_compute; reflexivity.
Defined.

(** ** Writers and the whole run *)

Lemma dict_to_list_template (t : template) :
  dict_to_list fieldnames (template_items t) = Ok (template_cells t).
Proof. reflexivity. Qed.

Lemma zip_template_cells (t : template) :
  zip fieldnames (template_cells t) = template_items t.
Proof. reflexivity. Qed.

Lemma writerows_cons (t : template) (l : list template) :
  writerows fieldnames (template_items <$> t :: l) =
    if forallb csv_encodable (template_cells t)
    then rest ← writerows fieldnames (template_items <$> l);
         Ok (template_cells t :: rest)
    else Raise UnicodeEncodeError.
Proof. reflexivity. Qed.

Lemma writerows_Ok (l : list template) (rows : list (list pyval)) :
  writerows fieldnames (template_items <$> l) = Ok rows →
  rows = template_cells <$> l.
Proof.
  revert rows. induction l as [|t l IH]; intros rows.
  { by intros [= <-]. }
  rewrite writerows_cons. destruct (forallb _ _); [|done].
  destruct (writerows _ _) as [rest|e]; [|done].
  intros [= <-]. rewrite fmap_cons. f_equal. by apply IH.
Qed.

Lemma write_outputs_Ok (st : detect_state) (sorted : list template) (o : output) :
  write_outputs st sorted = Ok o →
  o = {| csv_header := fieldnames; csv_rows := template_cells <$> sorted;
         json_records := template_items <$> sorted;
         report_titles := dup_titles st; report_content := dup_content st |}.
Proof.
  unfold write_outputs, dump_records, dump_report. intros H.
  apply bind_Ok in H as (rows & ->%writerows_Ok & H).
  destruct (forallb _ (template_items <$> sorted)); [|done].
  rewrite bind_Ok_l in H. destruct (_ && _); [|done].
  rewrite bind_Ok_l in H. by injection H as <-.
Qed.

Lemma json_csv_encodable (v : pyval) :
  json_encodable v = true → csv_encodable v = true.
Proof. by destruct v. Qed.

Lemma writable_fields (t : template) :
  writable t →
  Forall (λ v, json_encodable v = true)
    [title t; content t; format t; tags t; category t; authorEmail t; visibility t].
Proof.
  unfold writable. cbn [json_encodable template_items].
  change (encodable (str "title")) with true.
  change (encodable (str "content")) with true.
  change (encodable (str "format")) with true.
  change (encodable (str "tags")) with true.
  change (encodable (str "category")) with true.
  change (encodable (str "authorEmail")) with true.
  change (encodable (str "visibility")) with true.
  cbn [andb]. rewrite !andb_true_iff. intros (?&?&?&?&?&?&?&?).
  repeat constructor; tauto.
Qed.

Lemma writerows_writable (l : list template) :
  Forall writable l →
  writerows fieldnames (template_items <$> l) = Ok (template_cells <$> l).
Proof.
  induction 1 as [|t l Ht _ IH]; [done|].
  rewrite writerows_cons, IH.
  assert (forallb csv_encodable (template_cells t) = true) as ->; [|done].
  apply writable_fields in Ht.
  repeat match goal with
         | H : Forall _ (_ :: _) |- _ =>
             apply Forall_cons in H as [?%json_csv_encodable H]
         end.
  cbn [template_cells template_items fmap list_fmap snd forallb].
  repeat (rewrite andb_true_iff; split); done.
Qed.

Lemma dump_records_writable (l : list template) :
  Forall writable l →
  dump_records (template_items <$> l) = Ok (template_items <$> l).
Proof.
  intros Hl. unfold dump_records.
  assert (forallb (λ r, json_encodable (VDict r)) (template_items <$> l) = true)
    as ->; [|done].
  apply forallb_forall. intros r Hr%list_elem_of_In.
  apply list_elem_of_fmap in Hr as (t & -> & Ht).
  rewrite Forall_forall in Hl. by apply Hl.
Qed.

Lemma elem_of_lstrip (s : pystr) (c : N) : c ∈ lstrip s → c ∈ s.
Proof.
  induction s as [|c' s IH]; simpl; [done|].
  destruct (is_space c'); [|done]. intros Hc. right. by apply IH.
Qed.

Lemma elem_of_strip (s : pystr) (c : N) : c ∈ strip s → c ∈ s.
Proof.
  unfold strip, rstrip. rewrite elem_of_reverse.
  intros Hc%elem_of_lstrip. rewrite elem_of_reverse in Hc.
  by apply elem_of_lstrip.
Qed.

Lemma encodable_strip (s : pystr) : encodable s = true → encodable (strip s) = true.
Proof.
  unfold encodable. rewrite !forallb_forall.
  intros Hs c Hc%list_elem_of_In%elem_of_strip. by apply Hs, list_elem_of_In.
Qed.

(** The report names titles of loaded records only. *)
Lemma dump_report_writable (all_templates : list template) (st : detect_state) :
  detect_inv all_templates (length all_templates) st →
  Forall writable all_templates →
  dump_report st = Ok (dup_titles st, dup_content st).
Proof.
  intros [_ _ Hdt Hdc] Hall. unfold dump_report.
  assert (∀ i t, all_templates !! i = Some t → json_encodable (title t) = true)
    as Htitle.
  { intros i t Hi. rewrite Forall_forall in Hall.
    assert (writable t) as Ht by by eapply Hall, list_elem_of_lookup_2.
    by apply writable_fields in Ht as [? _]%Forall_cons. }
  assert (forallb (λ d, encodable (td_title d)) (dup_titles st) = true) as ->.
  { apply forallb_forall. intros d Hd%list_elem_of_In. rewrite Hdt in Hd.
    apply list_elem_of_fmap in Hd as (p & -> & _). unfold title_entry. simpl.
    destruct (all_templates !! p.2) as [t|] eqn:Hp; [|done]. simpl.
    specialize (Htitle _ _ Hp). unfold trimmed_title.
    destruct (title t); try done. by apply encodable_strip. }
  assert (forallb (λ d, json_encodable (cd_title1 d) && json_encodable (cd_title2 d))
            (dup_content st) = true) as ->; [|done].
  apply forallb_forall. intros d Hd%list_elem_of_In. rewrite Hdc in Hd.
  apply list_elem_of_fmap in Hd as (p & -> & _). unfold content_entry. simpl.
  apply andb_true_iff. split.
  - destruct (all_templates !! p.1) as [t|] eqn:Hp; [|done]. by eapply Htitle.
  - destruct (all_templates !! p.2) as [t|] eqn:Hp; [|done]. by eapply Htitle.
Qed.

Lemma forallb_take {A} (f : A → bool) (n : nat) (l : list A) :
  forallb f l = true → forallb f (take n l) = true.
Proof.
  rewrite !forallb_forall. intros Hl x Hx%list_elem_of_In.
  apply Hl, list_elem_of_In. apply elem_of_take in Hx as (i & Hi & _).
  by eapply list_elem_of_lookup_2.
Qed.

Lemma print_duplicates_writable (all_templates : list template) (st : detect_state) :
  detect_inv all_templates (length all_templates) st →
  Forall writable all_templates →
  print_duplicates st = Ok ().
Proof.
  intros Hinv Hall. pose proof (dump_report_writable _ _ Hinv Hall) as Hdump.
  unfold dump_report in Hdump. unfold print_duplicates.
  destruct (forallb _ (dup_titles st)) eqn:Ht; [|done].
  destruct (forallb _ (dup_content st)) eqn:Hc; [|done].
  rewrite (forallb_take _ _ _ Ht). simpl.
  assert (forallb (λ d, csv_encodable (cd_title1 d) && csv_encodable (cd_title2 d))
            (take 5 (dup_content st)) = true) as ->; [|done].
  apply forallb_take, forallb_forall. intros d Hd.
  rewrite forallb_forall in Hc. specialize (Hc d Hd).
  apply andb_true_iff in Hc as [??]. apply andb_true_iff.
  split; by apply json_csv_encodable.
Qed.

Lemma consolidate_Ok (src : sources) (o : output) :
  consolidate src = Ok o →
  ∃ all_templates st unique sorted,
    load_all src = Ok all_templates
    ∧ detect all_templates = Ok st
    ∧ unique_templates all_templates = Ok unique
    ∧ sort_templates unique = Ok sorted
    ∧ o = {| csv_header := fieldnames; csv_rows := template_cells <$> sorted;
             json_records := template_items <$> sorted;
             report_titles := dup_titles st; report_content := dup_content st |}.
Proof.
  unfold consolidate. intros H.
  apply bind_Ok in H as ([[all_templates st] unique] & Hrec & H).
  apply bind_Ok in H as ([] & _ & H).
  apply bind_Ok in H as (sorted & Hsort & ->%write_outputs_Ok).
  unfold consolidate_records in Hrec. inv_bind. simplify_eq.
  by exists all_templates, st, unique, sorted.
Qed.

(** C8: in every run that writes its files, the rows of the CSV file and the
    objects of the JSON file are both taken from the one sorted list of
    records, in its order: pairing the header with the cells of the i-th row
    gives the items of the i-th object. *)
Theorem csv_json_same_records (src : sources) (o : output) :
  consolidate src = Ok o →
  ∃ sorted,
    csv_header o = fieldnames
    ∧ csv_rows o = template_cells <$> sorted
    ∧ json_records o = template_items <$> sorted
    ∧ Forall2 (λ cells obj, zip (csv_header o) cells = obj)
        (csv_rows o) (json_records o).
Proof.
  intros (all_templates & st & unique & sorted & _ & _ & _ & _ & ->)%consolidate_Ok.
  exists sorted. simpl. repeat split.
  apply Forall2_fmap, Forall_Forall2_diag, Forall_forall.
  intros t _. apply zip_template_cells.
Qed.

(** The run on [demo_sources] writes [demo_output]. *)
Lemma csv_json_same_records_witness :
  consolidate demo_sources = Ok demo_output
  ∧ ∃ sorted,
      csv_header demo_output = fieldnames
      ∧ csv_rows demo_output = template_cells <$> sorted
      ∧ json_records demo_output = template_items <$> sorted
      ∧ Forall2 (λ cells obj, zip (csv_header demo_output) cells = obj)
          (csv_rows demo_output) (json_records demo_output).
Proof.
  split; [vm_compute; reflexivity|].
  apply (csv_json_same_records demo_sources demo_output).
  vm_compute; reflexivity.
Defined.

Lemma load_rows_elem {A} (f : A → result template) (rows : list A)
    (ts : list template) (t : template) :
  load_rows f rows = Ok ts → t ∈ ts → ∃ r, r ∈ rows ∧ f r = Ok t.
Proof.
  revert ts. induction rows as [|r rows IH]; intros ts H Ht; simpl in H.
  { injection H as <-. inversion Ht. }
  inv_bind. subst ts. apply elem_of_cons in Ht as [->|Ht].
  - exists r. split; [left | done].
  - destruct (IH _ Ha0 Ht) as (r' & Hr' & Hf). exists r'. split; [by right | done].
Qed.

Lemma load_all_loaded (src : sources) (all_templates : list template) (t : template) :
  load_all src = Ok all_templates → t ∈ all_templates → loaded_by src t.
Proof.
  unfold load_all, loaded_by. intros H Ht. inv_bind. subst all_templates.
  rewrite !elem_of_app in Ht.
  destruct Ht as [Ht|[Ht|[Ht|[Ht|Ht]]]];
    match goal with
    | Hl : load_rows _ _ = Ok ?ts, Ht : t ∈ ?ts |- _ =>
        destruct (load_rows_elem _ _ _ _ Hl Ht) as (r & Hr & Hf)
    end; eauto 10.
Qed.

Lemma same_title_subset (ti : pystr) (all_templates same : list template) :
  same_title ti all_templates = Ok same → same ⊆ all_templates.
Proof.
  revert same. induction all_templates as [|t ts IH]; intros same H; simpl in H.
  { by injection H as <-. }
  inv_bind. specialize (IH _ Ha0). subst same.
  destruct (decide (a = ti)); set_solver.
Qed.

Lemma dedup_loop_subset (all_templates : list template) (processed : gset pystr)
    (unique rest out : list template) (t : template) :
  dedup_loop all_templates processed unique rest = Ok out →
  t ∈ out → t ∈ unique ∨ t ∈ all_templates.
Proof.
  revert processed unique. induction rest as [|r rest IH];
    intros processed unique H Ht; simpl in H.
  { injection H as <-. by left. }
  apply bind_Ok in H as (ti & Hti & H).
  destruct (decide (ti ∈ processed)); [by eapply IH|].
  apply bind_Ok in H as (same & Hsame & H).
  apply bind_Ok in H as (best & Hbest & H).
  destruct (IH _ _ H Ht) as [[Hu| ->%list_elem_of_singleton]%elem_of_app|Hall];
    [by left | | by right].
  right. apply same_title_subset in Hsame. apply Hsame.
  destruct same as [|x l]; [done|]. injection Hbest as <-.
  apply max_from_elem.
Qed.

Lemma unique_templates_subset (all_templates unique : list template) :
  unique_templates all_templates = Ok unique → unique ⊆ all_templates.
Proof.
  intros Huniq t Ht.
  destruct (dedup_loop_subset _ _ _ _ _ _ Huniq Ht) as [Hnil|Hall]; [|done].
  inversion Hnil.
Qed.

Lemma Forall_subset {A} (P : A → Prop) (l k : list A) :
  k ⊆ l → Forall P l → Forall P k.
Proof. rewrite !Forall_forall. auto. Qed.

(** X1: a run whose five files load, whose records carry text in title and
    content and categories of one kind, and whose texts hold no lone
    surrogate goes through every stage and writes its files. *)
Theorem consolidate_returns (src : sources) (all_templates : list template) :
  load_all src = Ok all_templates →
  Forall text_record all_templates →
  orderable all_templates →
  Forall writable all_templates →
  ∃ o, consolidate src = Ok o.
Proof.
  intros Hload Htext [Htitle [κ Hkind]] Hwrite.
  destruct (detect_spec _ Htext) as (st & Hdet & Hinv).
  destruct (unique_templates_spec all_templates Htitle) as (unique & Huniq & _).
  pose proof (unique_templates_subset _ _ Huniq) as Hsub.
  destruct (sort_templates_ordered κ unique) as (sorted & Hsort & Hperm & _);
    [by eapply Forall_subset.. |].
  assert (Forall writable sorted) as Hsorted.
  { rewrite Hperm. by eapply Forall_subset. }
  eexists. unfold consolidate, consolidate_records.
  rewrite Hload, bind_Ok_l, Hdet, bind_Ok_l, Huniq, !bind_Ok_l.
  rewrite (print_duplicates_writable _ _ Hinv Hwrite), bind_Ok_l.
  rewrite Hsort, bind_Ok_l. unfold write_outputs.
  rewrite (writerows_writable _ Hsorted), bind_Ok_l.
  rewrite (dump_records_writable _ Hsorted), bind_Ok_l.
  rewrite (dump_report_writable _ _ Hinv Hwrite). done.
Qed.

(** The three records loaded from [demo_sources] carry text that can be
    written. *)
Lemma consolidate_returns_witness :
  load_all demo_sources = Ok demo_loaded
  ∧ Forall text_record demo_loaded
  ∧ orderable demo_loaded
  ∧ Forall writable demo_loaded
  ∧ ∃ o, consolidate demo_sources = Ok o.
Proof.
  assert (orderable demo_loaded) as Hord.
  { split; [repeat constructor | exists Text; repeat constructor]. }
  split; [vm_compute; reflexivity|]. split; [repeat constructor|].
  split; [done|]. split; [repeat constructor|].
  apply (consolidate_returns demo_sources demo_loaded);
    [vm_compute; reflexivity | repeat constructor | done | repeat constructor].
Defined.

(** The example of the specification: of two records titled "Email Draft"
    with scores 5 and 12 the run keeps the one with score 12, and the report
    has one title entry naming the indices 0 and 1. *)
Example email_draft_run : consolidate demo_sources = Ok demo_output.
Proof. vm_compute. reflexivity. Qed.

(** C9: every object of the JSON file and every row of the CSV file holds the
    nine fields of one record that a reading loop built; detection,
    deduplication, sorting and writing pick and reorder records and change
    none. *)
Theorem output_records_loaded (src : sources) (o : output) :
  consolidate src = Ok o →
  Forall (λ obj, ∃ t, loaded_by src t ∧ obj = template_items t) (json_records o)
  ∧ Forall (λ cells, ∃ t, loaded_by src t ∧ cells = template_cells t) (csv_rows o).
Proof.
  intros (all_templates & st & unique & sorted & Hload & _ & Huniq & Hsort & ->)
    %consolidate_Ok.
  assert (∀ t, t ∈ sorted → loaded_by src t) as Hin.
  { intros t Ht. apply (load_all_loaded _ _ _ Hload).
    rewrite (sort_templates_perm _ _ Hsort) in Ht.
    by apply (unique_templates_subset _ _ Huniq). }
  simpl. split; apply Forall_fmap, Forall_forall; intros t Ht; simpl; eauto.
Qed.

(** The records written for [demo_sources] were all loaded from it. *)
Lemma output_records_loaded_witness :
  consolidate demo_sources = Ok demo_output
  ∧ Forall (λ obj, ∃ t, loaded_by demo_sources t ∧ obj = template_items t)
      (json_records demo_output)
  ∧ Forall (λ cells, ∃ t, loaded_by demo_sources t ∧ cells = template_cells t)
      (csv_rows demo_output).
Proof.
  split; [vm_compute; reflexivity|].
  apply (output_records_loaded demo_sources demo_output).
  vm_compute; reflexivity.
Defined.

(** * Further properties *)

(** ** Trimming *)

Lemma lstrip_all_space (s : pystr) : all_space s → lstrip s = [].
Proof. induction 1 as [|c s Hc _ IH]; simpl; [done|]. by rewrite Hc. Qed.

Lemma lstrip_app_space (pre s : pystr) : all_space pre → lstrip (pre ++ s) = lstrip s.
Proof. induction 1 as [|c pre Hc _ IH]; simpl; [done|]. by rewrite Hc. Qed.

(** [lstrip] either empties a text of whitespace or stops at its first
    character that is no whitespace. *)
Lemma lstrip_cases (s : pystr) :
  (all_space s ∧ lstrip s = [])
  ∨ ∃ pre c r, s = pre ++ c :: r ∧ all_space pre ∧ is_space c = false
               ∧ lstrip s = c :: r.
Proof.
  induction s as [|c s IH]; simpl.
  { left. split; [constructor | done]. }
  destruct (is_space c) eqn:Hc.
  - destruct IH as [[Hs ->]|(pre & c' & r & -> & Hpre & Hc' & ->)].
    + left. split; [by constructor | done].
    + right. exists (c :: pre), c', r. repeat split; try done. by constructor.
  - right. exists [], c, s. repeat split; try done. constructor.
Qed.

Lemma lstrip_app_text (s post r : pystr) (x : N) :
  lstrip s = x :: r → lstrip (s ++ post) = x :: r ++ post.
Proof.
  destruct (lstrip_cases s) as [[_ ->]|(pre & c' & r' & -> & Hpre & Hc' & ->)];
    [done|].
  intros [= -> ->]. rewrite <- app_assoc, lstrip_app_space by done.
  simpl. by rewrite Hc'.
Qed.

Lemma lstrip_idem (s : pystr) : lstrip (lstrip s) = lstrip s.
Proof.
  destruct (lstrip_cases s) as [[_ ->]|(pre & c & r & -> & Hpre & Hc & ->)];
    [done|].
  simpl. by rewrite Hc.
Qed.

Lemma rstrip_app_space (s post : pystr) : all_space post → rstrip (s ++ post) = rstrip s.
Proof.
  intros Hpost. unfold rstrip. rewrite reverse_app, lstrip_app_space; [done|].
  by apply Forall_reverse.
Qed.

Lemma rstrip_keeps_head (c : N) (r : pystr) :
  is_space c = false → ∃ r', rstrip (c :: r) = c :: r'.
Proof.
  intros Hc. unfold rstrip. rewrite reverse_cons.
  destruct (lstrip_cases (reverse r)) as [[Hr _]|(pre & c' & r' & Heq & Hpre & Hc' & Hl)].
  - exists []. rewrite lstrip_app_space by done. simpl. by rewrite Hc.
  - exists (reverse (c' :: r')).
    rewrite (lstrip_app_text _ _ _ _ Hl), app_comm_cons, reverse_app. done.
Qed.

Lemma strip_surround (pre s post : pystr) :
  all_space pre → all_space post → strip (pre ++ s ++ post) = strip s.
Proof.
  intros Hpre Hpost. unfold strip. rewrite lstrip_app_space by done.
  destruct (lstrip_cases s) as [[Hs ->]|(p & c & r & -> & Hp & Hc & ->)].
  - rewrite lstrip_all_space; [done|]. by apply Forall_app.
  - rewrite <- app_assoc, lstrip_app_space by done. simpl. rewrite Hc.
    by rewrite app_comm_cons, rstrip_app_space.
Qed.

Lemma strip_idem (s : pystr) : strip (strip s) = strip s.
Proof.
  unfold strip.
  destruct (lstrip_cases s) as [[_ ->]|(p & c & r & -> & Hp & Hc & ->)]; [done|].
  destruct (rstrip_keeps_head c r Hc) as [r' Hr]. rewrite Hr.
  simpl. rewrite Hc, <- Hr. unfold rstrip.
  by rewrite reverse_involutive, lstrip_idem.
Qed.

Lemma strip_ends (s : pystr) (c : N) :
  head (strip s) = Some c ∨ last (strip s) = Some c → is_space c = false.
Proof.
  assert (∀ x c, head (lstrip x) = Some c → is_space c = false) as Hhead.
  { intros x c0.
    destruct (lstrip_cases x) as [[_ ->]|(p & c' & r & _ & _ & Hc' & ->)];
      [done|]. by intros [= <-]. }
  unfold strip. intros [Hc|Hc].
  - destruct (lstrip_cases s) as [[_ Hl]|(p & c' & r & _ & _ & Hc' & Hl)];
      rewrite Hl in Hc; [done|].
    destruct (rstrip_keeps_head c' r Hc') as [r' Hr]. rewrite Hr in Hc.
    by injection Hc as <-.
  - unfold rstrip in Hc. rewrite last_reverse in Hc. by eapply Hhead.
Qed.

(** X2: titles (and contents) that differ only by whitespace around them are
    trimmed to the same text, so the detector and the deduplicator treat them
    as one title. *)
Theorem py_strip_ignores_surrounding_space (pre s post : pystr) :
  all_space pre → all_space post →
  py_strip (VStr (pre ++ s ++ post)) = py_strip (VStr s).
Proof. intros Hpre Hpost. simpl. by rewrite strip_surround. Qed.

(** X3: the title written into an entry of the titles report is the title of
    the record at the entry's second index after [.strip()]: a text that
    [.strip()] leaves as it is and that neither starts nor ends with
    whitespace. *)
Theorem report_titles_trimmed (all_templates : list template) :
  Forall text_record all_templates →
  ∃ st, detect all_templates = Ok st ∧
    ∀ d, d ∈ dup_titles st →
      (∃ i j t s, td_indices d = [i; j] ∧ all_templates !! j = Some t
         ∧ title t = VStr s ∧ td_title d = strip s)
      ∧ py_strip (VStr (td_title d)) = Ok (td_title d)
      ∧ (∀ c, head (td_title d) = Some c → is_space c = false)
      ∧ (∀ c, last (td_title d) = Some c → is_space c = false).
Proof.
  intros Hall. destruct (detect_spec _ Hall) as (st & Hrun & [_ _ Hdt _]).
  exists st. split; [done|]. intros d Hd. rewrite Hdt in Hd.
  apply list_elem_of_fmap in Hd as (p & -> & Hp).
  apply elem_of_collisions in Hp as [Hlt _].
  destruct (lookup_lt_is_Some_2 all_templates p.2 Hlt) as [t Ht].
  assert (text_record t) as [Htext _].
  { rewrite Forall_forall in Hall. by eapply Hall, list_elem_of_lookup_2. }
  destruct (title t) as [| | | |s| |] eqn:Hs; try done.
  assert (td_title (title_entry all_templates p) = strip s) as Htd.
  { unfold title_entry, trimmed_title. simpl. rewrite Ht. simpl. by rewrite Hs. }
  rewrite Htd. split; [by exists p.1, p.2, t, s|].
  simpl. rewrite strip_idem.
  split; [done|]. split; intros c Hc; apply (strip_ends s c); auto.
Qed.

(** The entry written for [email_drafts] carries "Email Draft". *)
Lemma report_titles_trimmed_witness :
  Forall text_record email_drafts
  ∧ ∃ st, detect email_drafts = Ok st ∧
      ∀ d, d ∈ dup_titles st →
        (∃ i j t s, td_indices d = [i; j] ∧ email_drafts !! j = Some t
           ∧ title t = VStr s ∧ td_title d = strip s)
        ∧ py_strip (VStr (td_title d)) = Ok (td_title d)
        ∧ (∀ c, head (td_title d) = Some c → is_space c = false)
        ∧ (∀ c, last (td_title d) = Some c → is_space c = false).
Proof.
  split; [repeat constructor|].
  apply (report_titles_trimmed email_drafts). repeat constructor.
Defined.

(** Two blanks before and one after "Email Draft". *)
Lemma py_strip_ignores_surrounding_space_witness :
  all_space (str "  ") ∧ all_space (str " ")
  ∧ py_strip (VStr (str "  " ++ str "Email Draft" ++ str " "))
    = py_strip (VStr (str "Email Draft")).
Proof.
  split; [repeat constructor|]. split; [repeat constructor|].
  apply (py_strip_ignores_surrounding_space (str "  ") (str "Email Draft") (str " "));
    repeat constructor.
Defined.

(** ** Counting and ordering the collisions *)

Section collisions_of.
Context (keys : list pystr).

Lemma collisions_length (n : nat) :
  (n ≤ length keys)%nat →
  (length (collisions keys n) + size (list_to_set (take n keys) : gset pystr))%nat = n.
Proof.
  induction n as [|n IH]; intros Hn.
  { by rewrite take_0, list_to_set_nil, size_empty. }
  destruct (lookup_lt_is_Some_2 keys n) as [k Hk]; [lia|].
  rewrite collisions_S, (take_S_r _ _ _ Hk), list_to_set_snoc_L, length_app.
  specialize (IH ltac:(lia)).
  destruct (first_index (take n keys) k) as [i|] eqn:Hi.
  - rewrite (collision_seen _ _ _ _ Hk Hi). simpl.
    apply first_index_Some in Hi as [Hi _].
    apply list_elem_of_lookup_2 in Hi.
    replace (list_to_set (take n keys) ∪ {[k]})
      with (list_to_set (take n keys) : gset pystr) by set_solver.
    lia.
  - rewrite (collision_fresh _ _ _ Hk Hi). simpl.
    apply first_index_None in Hi.
    rewrite size_union, size_singleton by set_solver. lia.
Qed.

Lemma collisions_bounds (n : nat) (p : nat * nat) :
  p ∈ collisions keys n → (p.1 < p.2 < n)%nat.
Proof.
  intros [Hlt (_ & Hp & _)%collision_Some]%elem_of_collisions. lia.
Qed.

Lemma collisions_sorted (n : nat) :
  StronglySorted (λ p q : nat * nat, (p.2 < q.2)%nat) (collisions keys n).
Proof.
  induction n as [|n IH]; [constructor|].
  rewrite collisions_S. apply StronglySorted_app. split; [|split; [done|]].
  - intros p q Hp%collisions_bounds Hq.
    destruct (collision keys n) as [q'|] eqn:Hc; [|by inversion Hq].
    apply list_elem_of_singleton in Hq as ->.
    apply collision_Some in Hc as [-> _]. lia.
  - destruct (collision keys n); repeat constructor.
Qed.

(** The keys with a collision are those met at two places. *)
Lemma collisions_key (n : nat) (k : pystr) :
  (n = length keys) →
  (∃ p, p ∈ collisions keys n ∧ keys !! p.2 = Some k)
  ↔ ∃ i j, (i < j)%nat ∧ keys !! i = Some k ∧ keys !! j = Some k.
Proof.
  intros ->. split.
  - intros (p & [_ (_ & Hlt & k' & Hk' & [Hi _])%collision_Some]%elem_of_collisions & Hk).
    exists p.1, p.2. simplify_eq. done.
  - intros (i & j & Hlt & Hi & Hj).
    destruct (first_index keys k) as [i0|] eqn:Hfi.
    2: { apply first_index_None in Hfi. destruct Hfi.
         by eapply list_elem_of_lookup_2. }
    apply first_index_Some in Hfi as Hat.
    assert (i0 ≤ i)%nat as Hle.
    { destruct (decide (i0 ≤ i)%nat) as [|Hgt]; [done|].
      destruct Hat as [_ Hmin]. destruct (Hmin i); [lia | done]. }
    exists (i0, j). split; [|done]. apply elem_of_collisions. simpl.
    split; [by eapply lookup_lt_Some|].
    apply collision_Some. simpl. split; [done|]. split; [lia|]. eauto.
Qed.

End collisions_of.

Lemma first_seen_size (l : list pystr) :
  length (first_seen ∅ l) = size (list_to_set l : gset pystr).
Proof.
  rewrite <- (size_list_to_set (C:=gset pystr) (first_seen ∅ l))
    by apply NoDup_first_seen.
  f_equal. apply set_eq. intros x.
  rewrite !elem_of_list_to_set, elem_of_first_seen. set_solver.
Qed.

(** X4: the number of entries in the titles list plus the number of records
    kept by the deduplication is the number of records loaded: the three
    figures of the closing summary add up. *)
Theorem duplicate_titles_count (all_templates : list template) :
  Forall text_record all_templates →
  ∃ st unique, detect all_templates = Ok st
    ∧ unique_templates all_templates = Ok unique
    ∧ (length (dup_titles st) + length unique)%nat = length all_templates.
Proof.
  intros Hall.
  destruct (detect_spec _ Hall) as (st & Hdet & [_ _ Hdt _]).
  destruct (unique_templates_spec all_templates) as (unique & Huniq & Hbest).
  { eapply Forall_impl; [exact Hall|]. by intros t [? _]. }
  exists st, unique. split; [done|]. split; [done|].
  apply Forall2_length in Hbest. rewrite <- Hbest, first_seen_size, Hdt, length_fmap.
  pose proof (collisions_length (trimmed_title <$> all_templates)
                (length all_templates)) as Hc.
  rewrite length_fmap in Hc. rewrite take_ge in Hc by (rewrite length_fmap; lia).
  by apply Hc.
Qed.

(** The three records of [email_drafts] are text records. *)
Lemma duplicate_titles_count_witness :
  Forall text_record email_drafts
  ∧ ∃ st unique, detect email_drafts = Ok st
      ∧ unique_templates email_drafts = Ok unique
      ∧ (length (dup_titles st) + length unique)%nat = length email_drafts.
Proof.
  split; [repeat constructor|].
  apply (duplicate_titles_count email_drafts). repeat constructor.
Defined.

(** X5: the number of entries in the content list is the number of records
    loaded less the number of distinct content keys (the first 200 characters
    of the trimmed contents). *)
Theorem content_duplicates_count (all_templates : list template) :
  Forall text_record all_templates →
  ∃ st, detect all_templates = Ok st
    ∧ (length (dup_content st)
       + size (list_to_set (content_prefix <$> all_templates) : gset pystr))%nat
      = length all_templates.
Proof.
  intros Hall.
  destruct (detect_spec _ Hall) as (st & Hdet & [_ _ _ Hdc]).
  exists st. split; [done|]. rewrite Hdc, length_fmap.
  pose proof (collisions_length (content_prefix <$> all_templates)
                (length all_templates)) as Hc.
  rewrite length_fmap in Hc. rewrite take_ge in Hc by (rewrite length_fmap; lia).
  by apply Hc.
Qed.

(** The same three records. *)
Lemma content_duplicates_count_witness :
  Forall text_record email_drafts
  ∧ ∃ st, detect email_drafts = Ok st
      ∧ (length (dup_content st)
         + size (list_to_set (content_prefix <$> email_drafts) : gset pystr))%nat
        = length email_drafts.
Proof.
  split; [repeat constructor|].
  apply (content_duplicates_count email_drafts). repeat constructor.
Defined.

(** X6: both lists of the report name valid places only: each entry holds two
    indices [i; j] of loaded records with i before j, and the entries of one
    list come in strictly increasing order of j, so no record is the later
    one of two entries. *)
Theorem report_indices_ordered (all_templates : list template) :
  Forall text_record all_templates →
  ∃ st pt pc, detect all_templates = Ok st
    ∧ td_indices <$> dup_titles st = (λ p, [p.1; p.2]) <$> pt
    ∧ cd_indices <$> dup_content st = (λ p, [p.1; p.2]) <$> pc
    ∧ Forall (λ p, p.1 < p.2 < length all_templates)%nat (pt ++ pc)
    ∧ StronglySorted (λ p q : nat * nat, (p.2 < q.2)%nat) pt
    ∧ StronglySorted (λ p q : nat * nat, (p.2 < q.2)%nat) pc.
Proof.
  intros Hall.
  destruct (detect_spec _ Hall) as (st & Hdet & [_ _ Hdt Hdc]).
  exists st, (collisions (trimmed_title <$> all_templates) (length all_templates)),
    (collisions (content_prefix <$> all_templates) (length all_templates)).
  split; [done|]. rewrite Hdt, Hdc, <- !list_fmap_compose.
  repeat split; try done; try apply collisions_sorted.
  apply Forall_app. split; apply Forall_forall; intros p Hp;
    by apply collisions_bounds in Hp.
Qed.

(** The same three records. *)
Lemma report_indices_ordered_witness :
  Forall text_record email_drafts
  ∧ ∃ st pt pc, detect email_drafts = Ok st
      ∧ td_indices <$> dup_titles st = (λ p, [p.1; p.2]) <$> pt
      ∧ cd_indices <$> dup_content st = (λ p, [p.1; p.2]) <$> pc
      ∧ Forall (λ p, p.1 < p.2 < length email_drafts)%nat (pt ++ pc)
      ∧ StronglySorted (λ p q : nat * nat, (p.2 < q.2)%nat) pt
      ∧ StronglySorted (λ p q : nat * nat, (p.2 < q.2)%nat) pc.
Proof.
  split; [repeat constructor|].
  apply (report_indices_ordered email_drafts). repeat constructor.
Defined.

(** X7: a trimmed title is named by an entry of the titles list exactly when
    two or more loaded records carry it. *)
Theorem reported_titles_occur_twice (all_templates : list template) (ti : pystr) :
  Forall text_record all_templates →
  ∃ st, detect all_templates = Ok st
    ∧ ((∃ d, d ∈ dup_titles st ∧ td_title d = ti)
       ↔ ∃ i j, (i < j)%nat
           ∧ (trimmed_title <$> all_templates) !! i = Some ti
           ∧ (trimmed_title <$> all_templates) !! j = Some ti).
Proof.
  intros Hall.
  destruct (detect_spec _ Hall) as (st & Hdet & [_ _ Hdt _]).
  exists st. split; [done|].
  rewrite <- (collisions_key _ (length all_templates)) by by rewrite length_fmap.
  rewrite Hdt. split.
  - intros (d & (p & -> & Hp)%list_elem_of_fmap & Hti). exists p. split; [done|].
    unfold title_entry in Hti. simpl in Hti.
    rewrite list_lookup_fmap.
    pose proof (collisions_bounds _ _ _ Hp) as Hlt.
    destruct (lookup_lt_is_Some_2 all_templates p.2) as [t Ht]; [lia|].
    rewrite Ht in *. simpl in *. by rewrite Hti.
  - intros (p & Hp & Hk). exists (title_entry all_templates p).
    split; [by apply list_elem_of_fmap_2|].
    unfold title_entry. simpl. rewrite list_lookup_fmap in Hk.
    by destruct (all_templates !! p.2); simplify_eq/=.
Qed.

(** The title "Email Draft" among the same three records. *)
Lemma reported_titles_occur_twice_witness :
  Forall text_record email_drafts
  ∧ ∃ st, detect email_drafts = Ok st
      ∧ ((∃ d, d ∈ dup_titles st ∧ td_title d = str "Email Draft")
         ↔ ∃ i j, (i < j)%nat
             ∧ (trimmed_title <$> email_drafts) !! i = Some (str "Email Draft")
             ∧ (trimmed_title <$> email_drafts) !! j = Some (str "Email Draft")).
Proof.
  split; [repeat constructor|].
  apply (reported_titles_occur_twice email_drafts (str "Email Draft")).
  repeat constructor.
Defined.

(** ** Exceptions of the two loops *)

Lemma detect_Ok_text (all_templates : list template) (st : detect_state) :
  detect all_templates = Ok st → Forall text_record all_templates.
Proof.
  intros Hdet. destruct (decide (Forall text_record all_templates)) as [|Hno]; [done|].
  apply not_Forall_Exists in Hno; [|apply _].
  rewrite (detect_raises all_templates) in Hdet; [done|].
  eapply Exists_impl; [exact Hno|]. by intros t Ht.
Qed.

Lemma unique_templates_Ok_text (all_templates unique : list template) :
  unique_templates all_templates = Ok unique → Forall text_title all_templates.
Proof.
  intros Huniq. destruct (decide (Forall text_title all_templates)) as [|Hno]; [done|].
  apply not_Forall_Exists in Hno; [|apply _].
  rewrite (unique_templates_raises all_templates) in Huniq; [done|].
  eapply Exists_impl; [exact Hno|]. by intros t Ht.
Qed.

(** X8: the detection loop raises nothing but AttributeError, and only on a
    record whose title or content is not a str; the index into
    [all_templates] taken from [seen_content] is always in range. *)
Theorem detect_raises_only_attribute_error (all_templates : list template) (e : exn) :
  detect all_templates = Raise e →
  e = AttributeError ∧ Exists (λ t, ¬ text_record t) all_templates.
Proof.
  intros Hdet.
  destruct (decide (Forall text_record all_templates)) as [Hall|Hno].
  { destruct (detect_spec _ Hall) as (st & Hst & _). congruence. }
  apply not_Forall_Exists in Hno; [|apply _].
  assert (Exists (λ t, ¬ text_record t) all_templates) as Hex.
  { eapply Exists_impl; [exact Hno|]. by intros t Ht. }
  rewrite (detect_raises _ Hex) in Hdet. by injection Hdet as <-.
Qed.

(** The detection loop raises on a record whose content is [None]. *)
Lemma detect_raises_only_attribute_error_witness :
  detect [short_record] = Raise AttributeError
  ∧ AttributeError = AttributeError
  ∧ Exists (λ t, ¬ text_record t) [short_record].
Proof.
  split; [vm_compute; reflexivity|].
  apply (detect_raises_only_attribute_error [short_record] AttributeError).
  vm_compute; reflexivity.
Defined.

(** X9: the deduplication loop raises nothing but AttributeError, and only on
    a record whose title is not a str; [max] never gets an empty list. *)
Theorem dedup_raises_only_attribute_error (all_templates : list template) (e : exn) :
  unique_templates all_templates = Raise e →
  e = AttributeError ∧ Exists (λ t, ¬ text_title t) all_templates.
Proof.
  intros Huniq.
  destruct (decide (Forall text_title all_templates)) as [Hall|Hno].
  { destruct (unique_templates_spec _ Hall) as (u & Hu & _). congruence. }
  apply not_Forall_Exists in Hno; [|apply _].
  assert (Exists (λ t, ¬ text_title t) all_templates) as Hex.
  { eapply Exists_impl; [exact Hno|]. by intros t Ht. }
  rewrite (unique_templates_raises _ Hex) in Huniq. by injection Huniq as <-.
Qed.

(** The deduplication loop raises on a record whose title is [None]. *)
Lemma dedup_raises_only_attribute_error_witness :
  unique_templates [untitled_record] = Raise AttributeError
  ∧ AttributeError = AttributeError
  ∧ Exists (λ t, ¬ text_title t) [untitled_record].
Proof.
  split; [vm_compute; reflexivity|].
  apply (dedup_raises_only_attribute_error [untitled_record] AttributeError).
  vm_compute; reflexivity.
Defined.

(** ** Deduplication of a list without duplicates *)

Lemma first_seen_NoDup (processed : gset pystr) (l : list pystr) :
  NoDup l → (∀ x, x ∈ l → x ∉ processed) → first_seen processed l = l.
Proof.
  intros Hnd. revert processed.
  induction Hnd as [|x l Hx _ IH]; intros processed Hout; simpl; [done|].
  rewrite decide_False by (apply Hout; set_solver). f_equal.
  apply IH. intros y Hy. specialize (Hout y). set_solver.
Qed.

Lemma Forall2_eq_on {A B} (R : B → A → Prop) (f : A → B) (l k : list A) :
  (∀ x, x ∈ l → ∀ y, R (f x) y → y = x) → Forall2 R (f <$> l) k → k = l.
Proof.
  revert k. induction l as [|x l IH]; intros k Hl HR.
  { by inversion HR. }
  rewrite fmap_cons in HR. inversion HR as [|? y ? k' Hxy Hrest]; subst.
  f_equal; [apply Hl; [set_solver | done]|].
  apply IH; [|done]. intros z Hz. apply Hl. set_solver.
Qed.

Lemma unique_templates_distinct (all_templates : list template) :
  Forall text_title all_templates →
  NoDup (trimmed_title <$> all_templates) →
  unique_templates all_templates = Ok all_templates.
Proof.
  intros Hall Hnd.
  destruct (unique_templates_spec _ Hall) as (unique & Huniq & Hbest).
  rewrite Huniq. f_equal.
  rewrite first_seen_NoDup in Hbest by (done || set_solver).
  eapply Forall2_eq_on; [|exact Hbest].
  intros t Ht b (x & l & Hf & ->).
  rewrite (filter_unique trimmed_title all_templates t Hnd Ht) in Hf.
  by injection Hf as <- <-.
Qed.

(** X10: a list whose trimmed titles are pairwise distinct passes through the
    deduplication unchanged, order included. *)
Theorem dedup_identity_on_distinct (all_templates : list template) :
  Forall text_title all_templates →
  NoDup (trimmed_title <$> all_templates) →
  unique_templates all_templates = Ok all_templates.
Proof. apply unique_templates_distinct. Qed.

(** X11: deduplicating a deduplicated list changes nothing. *)
Theorem dedup_idempotent (all_templates unique : list template) :
  unique_templates all_templates = Ok unique →
  unique_templates unique = Ok unique.
Proof.
  intros Huniq.
  pose proof (unique_templates_Ok_text _ _ Huniq) as Hall.
  destruct (unique_templates_spec _ Hall) as (unique' & Huniq' & Hbest).
  assert (unique' = unique) as -> by congruence.
  apply unique_templates_distinct.
  - rewrite Forall_forall in *. intros t Ht. apply Hall.
    by apply (unique_templates_subset _ _ Huniq).
  - rewrite (is_best_titles _ _ _ Hbest). apply NoDup_first_seen.
Qed.

(** The deduplication of [email_drafts] gives [email_unique]. *)
Lemma dedup_idempotent_witness :
  unique_templates email_drafts = Ok email_unique
  ∧ unique_templates email_unique = Ok email_unique.
Proof.
  split; [vm_compute; reflexivity|].
  apply (dedup_idempotent email_drafts email_unique). vm_compute; reflexivity.
Defined.

(** The two records of [distinct_drafts] have distinct trimmed titles. *)
Lemma dedup_identity_on_distinct_witness :
  Forall text_title distinct_drafts
  ∧ NoDup (trimmed_title <$> distinct_drafts)
  ∧ unique_templates distinct_drafts = Ok distinct_drafts.
Proof.
  assert (NoDup (trimmed_title <$> distinct_drafts)) as Hnd.
  { apply (bool_decide_unpack _). vm_compute. exact I. }
  split; [repeat constructor|]. split; [exact Hnd|].
  apply (dedup_identity_on_distinct distinct_drafts); [repeat constructor | exact Hnd].
Defined.

(** ** More on the sort *)

(** X12: a list that is already in non-decreasing order of (category, title)
    comes back from the sort unchanged: records with equal keys keep their
    places. *)
Theorem sort_identity_on_sorted (l : list template) :
  Forall text_keys l → StronglySorted record_le l →
  sort_templates l = Ok l.
Proof.
  intros Hkeys Hsorted. apply (sort_templates_in_order Text); [| |done].
  - eapply Forall_impl; [done|]. by intros ? [_ ?].
  - eapply Forall_impl; [done|]. by intros ? [? _].
Qed.

(** [distinct_drafts] is in the order of its keys. *)
Lemma sort_identity_on_sorted_witness :
  Forall text_keys distinct_drafts
  ∧ StronglySorted record_le distinct_drafts
  ∧ sort_templates distinct_drafts = Ok distinct_drafts.
Proof.
  assert (StronglySorted record_le distinct_drafts) as Hsorted.
  { repeat constructor.
    exists (str "Agenda"), (str "Email Draft").
    split; [reflexivity|]. split; [reflexivity|]. left.
    apply str_ltb_lexico. vm_compute. reflexivity. }
  split; [repeat constructor|]. split; [exact Hsorted|].
  apply (sort_identity_on_sorted distinct_drafts); [repeat constructor | exact Hsorted].
Defined.

(** ** Categories of two kinds *)

Lemma of_kind_unique (κ1 κ2 : kind) (c : pyval) :
  of_kind κ1 c → of_kind κ2 c → κ1 = κ2.
Proof.
  destruct κ1, κ2; simpl; try done; destruct c; try done;
    by intros ? [? [=]] || by intros [? [=]] ?.
Qed.

Lemma key_lt_mixed (κ1 κ2 : kind) (k1 k2 : pyval * pyval) :
  ordered_key κ1 k1 → ordered_key κ2 k2 → κ1 ≠ κ2 →
  key_lt k1 k2 = Raise TypeError.
Proof.
  destruct k1 as [c1 v1], k2 as [c2 v2]. intros [Hc1 _] [Hc2 _] Hne.
  unfold key_lt. simpl in *.
  destruct κ1, κ2; try done; simpl in *;
    repeat match goal with
           | H : is_str ?c = true |- _ => destruct c; try discriminate H; clear H
           | H : ?c = VNone |- _ => subst c
           | H : is_Some (number_of ?c) |- _ =>
               destruct c as [| | |[| |]| | |]; try (by destruct H as [? [=]]); clear H
           end; done.
Qed.

Section sort_mixed.
Context {A : Type}.
Implicit Types (l acc rest run : list ((pyval * pyval) * A)).

Lemma run_asc_kinds κ acc last rest :
  Forall (λ a, ordered_key κ a.1) (last :: acc) →
  Forall (λ a, ∃ κ', ordered_key κ' a.1) rest →
  StronglySorted (λ a b, ¬ pair_lt b.1 a.1) (reverse (last :: acc)) →
  run_asc acc last rest = Raise TypeError
  ∨ ∃ run rest', run_asc acc last rest = Ok (run, rest')
      ∧ run ≠ []
      ∧ StronglySorted (λ a b, ¬ pair_lt b.1 a.1) run
      ∧ Forall (λ a, ordered_key κ a.1) run
      ∧ Forall (λ a, ∃ κ', ordered_key κ' a.1) rest'
      ∧ (Forall (λ a, ordered_key κ a.1) rest' → Forall (λ a, ordered_key κ a.1) rest).
Proof.
  intros Hacc Hrest. revert acc last Hacc.
  induction Hrest as [|x rest [κx Hx] Hrest IH]; intros acc last Hacc Hsorted; simpl.
  { right. eexists _, _. split; [done|]. split.
    { rewrite reverse_cons. by destruct (reverse acc). }
    split; [done|]. split; [by apply Forall_reverse|]. done. }
  pose proof Hacc as [Hlast _]%Forall_cons.
  destruct (decide (κx = κ)) as [->|Hne].
  2: { left. by rewrite (key_lt_mixed κx κ _ _ Hx Hlast Hne). }
  destruct (key_lt_ordered κ x.1 last.1 Hx Hlast) as (b & -> & Hb). simpl.
  destruct b.
  { right. eexists _, _. split; [done|]. split.
    { rewrite reverse_cons. by destruct (reverse acc). }
    split; [done|]. split; [by apply Forall_reverse|].
    split; [constructor; eauto | done]. }
  destruct (IH (last :: acc) x) as [->|(run & rest' & -> & ? & ? & ? & ? & Hback)];
    [by constructor | | by left |].
  - rewrite (reverse_cons _ x).
    apply (sorted_snoc (ordered_key κ) pair_lt (pair_not_lt_trans κ));
      [by apply Forall_reverse | done | done |].
    intros y. rewrite reverse_cons, last_snoc. intros [= <-]. intros ?%Hb. done.
  - right. eexists _, _. split; [done|]. repeat (split; [done|]).
    intros ?%Hback. by constructor.
Qed.

Lemma run_desc_kinds κ acc last rest :
  Forall (λ a, ordered_key κ a.1) (last :: acc) →
  Forall (λ a, ∃ κ', ordered_key κ' a.1) rest →
  StronglySorted (λ a b, ¬ pair_lt b.1 a.1) (last :: acc) →
  run_desc acc last rest = Raise TypeError
  ∨ ∃ run rest', run_desc acc last rest = Ok (run, rest')
      ∧ run ≠ []
      ∧ StronglySorted (λ a b, ¬ pair_lt b.1 a.1) run
      ∧ Forall (λ a, ordered_key κ a.1) run
      ∧ Forall (λ a, ∃ κ', ordered_key κ' a.1) rest'
      ∧ (Forall (λ a, ordered_key κ a.1) rest' → Forall (λ a, ordered_key κ a.1) rest).
Proof.
  intros Hacc Hrest. revert acc last Hacc.
  induction Hrest as [|x rest [κx Hx] Hrest IH]; intros acc last Hacc Hsorted; simpl.
  { right. eexists _, _. done. }
  pose proof Hacc as [Hlast Hacc']%Forall_cons.
  destruct (decide (κx = κ)) as [->|Hne].
  2: { left. by rewrite (key_lt_mixed κx κ _ _ Hx Hlast Hne). }
  destruct (key_lt_ordered κ x.1 last.1 Hx Hlast) as (b & -> & Hb). simpl.
  destruct b.
  2: { right. eexists _, _. split; [done|]. split; [done|]. split; [done|].
       split; [done|]. split; [constructor; eauto | done]. }
  assert (pair_lt x.1 last.1) as Hlt by by apply Hb.
  destruct (IH (last :: acc) x) as [->|(run & rest' & -> & ? & ? & ? & ? & Hback)];
    [by constructor | | by left |].
  - constructor; [done|].
    apply StronglySorted_cons in Hsorted as [Hle _].
    constructor; [by apply (pair_lt_asym κ)|].
    rewrite Forall_forall in *. intros e He.
    apply (pair_not_lt_trans κ x.1 last.1 e.1); auto. by apply (pair_lt_asym κ).
  - right. eexists _, _. split; [done|]. repeat (split; [done|]).
    intros ?%Hback. by constructor.
Qed.

Lemma bisect_mixed κ κx pivot l :
  l ≠ [] → Forall (λ a, ordered_key κ a.1) l → ordered_key κx pivot → κx ≠ κ →
  bisect (length l) pivot l 0 (length l) = Raise TypeError.
Proof.
  intros Hl Hall Hp Hne. destruct l as [|a l']; [done|].
  set (l := a :: l') in *. change (length l) with (S (length l')) at 1.
  cbn [bisect]. rewrite decide_True by (simpl; lia). cbv zeta.
  pose proof (Nat.div_mod_eq (length l - 0) 2) as Hdiv.
  pose proof (Nat.mod_upper_bound (length l - 0) 2 ltac:(done)) as Hmod.
  destruct (lookup_lt_is_Some_2 l (0 + (length l - 0) / 2)) as [y Hy].
  { simpl in *. lia. }
  rewrite Hy. rewrite (key_lt_mixed κx κ pivot y.1); [done..| |done].
  rewrite Forall_forall in Hall. by eapply Hall, list_elem_of_lookup_2.
Qed.

Lemma binarysort_kinds κ l rest :
  l ≠ [] → Forall (λ a, ordered_key κ a.1) l →
  StronglySorted (λ a b, ¬ pair_lt b.1 a.1) l →
  Forall (λ a, ∃ κ', ordered_key κ' a.1) rest →
  binarysort l rest = Raise TypeError ∨ Forall (λ a, ordered_key κ a.1) rest.
Proof.
  intros Hne Hl Hsorted Hrest. revert l Hne Hl Hsorted.
  induction Hrest as [|x rest [κx Hx] Hrest IH]; intros l Hne Hl Hsorted; simpl.
  { by right. }
  destruct (decide (κx = κ)) as [->|Hκ].
  2: { left. by rewrite (bisect_mixed κ κx). }
  destruct (bisect_spec (ordered_key κ) pair_lt (key_lt_ordered κ)
              (pair_not_lt_trans κ) (length l) x.1 l 0 (length l))
    as (i & -> & Hi & Hlo & Hhi);
    [done | done | done | lia | lia | intros q e _ Hq; lia | |].
  { intros q e Hq%lookup_lt_Some Hge. lia. }
  simpl. destruct (IH (take i l ++ x :: drop i l)) as [->|Hall]; [| | |by left|].
  - by destruct (take i l).
  - rewrite <- (take_drop i l) in Hl. apply Forall_app in Hl as [??].
    apply Forall_app. split; [done|]. by constructor.
  - by apply (insert_at_sorted (ordered_key κ) pair_lt (pair_lt_asym κ)).
  - right. by constructor.
Qed.

Lemma sort_keyed_kinds l :
  Forall (λ a, ∃ κ, ordered_key κ a.1) l →
  sort_keyed l = Raise TypeError ∨ ∃ κ, Forall (λ a, ordered_key κ a.1) l.
Proof.
  intros Hl. unfold sort_keyed. destruct l as [|a [|b rest]].
  { right. by exists Text. }
  { apply Forall_cons in Hl as [[κ Ha] _]. right. exists κ. by constructor. }
  apply Forall_cons in Hl as [[κ Ha] [[κb Hb] Hrest]%Forall_cons].
  destruct (decide (κb = κ)) as [->|Hne].
  2: { left. by rewrite (key_lt_mixed κb κ _ _ Hb Ha Hne). }
  destruct (key_lt_ordered κ b.1 a.1 Hb Ha) as (falling & -> & Hf). simpl.
  assert (∀ run rest', run ≠ [] →
            StronglySorted (λ a b, ¬ pair_lt b.1 a.1) run →
            Forall (λ a, ordered_key κ a.1) run →
            Forall (λ a, ∃ κ', ordered_key κ' a.1) rest' →
            (Forall (λ a, ordered_key κ a.1) rest' →
             Forall (λ a, ordered_key κ a.1) rest) →
            binarysort run rest' = Raise TypeError
            ∨ ∃ κ, Forall (λ a : (pyval * pyval) * A, ordered_key κ a.1) (a :: b :: rest))
    as Hfinish.
  { intros run rest' Hne Hs Hrun Hrest' Hback.
    destruct (binarysort_kinds κ run rest' Hne Hrun Hs Hrest') as [->|Hall];
      [by left|].
    right. exists κ. constructor; [done|]. constructor; [done|]. by apply Hback. }
  assert (Forall (λ x : (pyval * pyval) * A, ordered_key κ x.1) [b; a]) as Hba.
  { constructor; [done|]. constructor; [done|]. constructor. }
  destruct falling.
  - destruct (run_desc_kinds κ [a] b rest)
      as [->|(run & rest' & -> & ? & ? & ? & ? & ?)];
      [done | done | | by left | by apply Hfinish].
    constructor; [repeat constructor|]. constructor; [|done].
    apply (pair_lt_asym κ); [done..|]. by apply Hf.
  - destruct (run_asc_kinds κ [a] b rest)
      as [->|(run & rest' & -> & ? & ? & ? & ? & ?)];
      [done | done | | by left | by apply Hfinish].
    change (reverse [b; a]) with [a; b]. constructor; [repeat constructor|].
    constructor; [|done]. simpl. intros ?%Hf. done.
Qed.

End sort_mixed.

(** X20: a list in which records of two kinds of category meet, such as one
    without a category (None) and one with a text category, is not sorted:
    the comparison of the two categories raises TypeError. *)
Theorem sort_raises_on_mixed_categories (l : list template) (a b : template)
    (κa κb : kind) :
  Forall text_title l →
  Forall (λ t, ∃ κ, of_kind κ (category t)) l →
  a ∈ l → b ∈ l →
  of_kind κa (category a) → of_kind κb (category b) → κa ≠ κb →
  sort_templates l = Raise TypeError.
Proof.
  intros Htitle Hkinds Ha Hb Hκa Hκb Hne. unfold sort_templates.
  destruct (sort_keyed_kinds (map (λ t, (sort_key t, t)) l)) as [->|[κ Hall]];
    [|done|].
  { apply Forall_fmap, Forall_forall. intros t Ht. rewrite Forall_forall in *.
    destruct (Hkinds t Ht) as [κ Hκ]. exists κ. split; [done|]. by apply Htitle. }
  rewrite Forall_fmap, Forall_forall in Hall.
  destruct (Hall a Ha) as [Ha' _], (Hall b Hb) as [Hb' _]. simpl in *.
  destruct Hne. rewrite (of_kind_unique κa κ _ Hκa Ha').
  by rewrite (of_kind_unique κb κ _ Hκb Hb').
Qed.

(** [minutes_record] has no category, the other record of
    [mixed_categories] the category "meetings". *)
Lemma sort_raises_on_mixed_categories_witness :
  Forall text_title mixed_categories
  ∧ Forall (λ t, ∃ κ, of_kind κ (category t)) mixed_categories
  ∧ minutes_record ∈ mixed_categories
  ∧ sample_record "Agenda" "Topics" "meetings" 0 0 ∈ mixed_categories
  ∧ of_kind Missing (category minutes_record)
  ∧ of_kind Text (category (sample_record "Agenda" "Topics" "meetings" 0 0))
  ∧ Missing ≠ Text
  ∧ sort_templates mixed_categories = Raise TypeError.
Proof.
  assert (Forall (λ t, ∃ κ, of_kind κ (category t)) mixed_categories) as Hkinds.
  { constructor; [by exists Missing|]. constructor; [by exists Text|]. constructor. }
  assert (minutes_record ∈ mixed_categories) as Ha by left.
  assert (sample_record "Agenda" "Topics" "meetings" 0 0 ∈ mixed_categories) as Hb
    by (right; left).
  split; [repeat constructor|]. split; [done|]. split; [done|]. split; [done|].
  split; [reflexivity|]. split; [reflexivity|]. split; [discriminate|].
  apply (sort_raises_on_mixed_categories mixed_categories minutes_record
           (sample_record "Agenda" "Topics" "meetings" 0 0) Missing Text);
    [repeat constructor | done | done | done | reflexivity | reflexivity
    | discriminate].
Defined.

Lemma StronglySorted_strict {A B} (R R' : relation A) (f : A → B) (l : list A) :
  (∀ a b, R a b → f a ≠ f b → R' a b) →
  StronglySorted R l → NoDup (f <$> l) → StronglySorted R' l.
Proof.
  intros Hstrict. induction 1 as [|x l Hsorted IH Hx]; [constructor|].
  rewrite fmap_cons. intros [Hnot Hnd]%NoDup_cons.
  constructor; [by apply IH|].
  rewrite Forall_forall in *. intros y Hy. apply Hstrict; [by apply Hx|].
  intros Heq. apply Hnot. rewrite Heq. by apply list_elem_of_fmap_2.
Qed.

Lemma record_le_lt (a b : template) :
  record_le a b → trimmed_title a ≠ trimmed_title b → record_lt a b.
Proof.
  intros (ta & tb & Ha & Hb & Hle) Hne. exists ta, tb.
  split; [done|]. split; [done|].
  destruct Hle as [Hlt|[Heq [->|Hlt]]]; [by left | | by right].
  destruct Hne. unfold trimmed_title. by rewrite Ha, Hb.
Qed.

(** ** The whole run *)

(** X13: when the titles of the loaded records are text and their categories
    of one kind, the records a run writes stand in strictly increasing order
    of (category, title): no two of them have the same category and title. *)
Theorem output_strictly_sorted (src : sources) (all_templates : list template)
    (o : output) :
  load_all src = Ok all_templates →
  orderable all_templates →
  consolidate src = Ok o →
  ∃ sorted, json_records o = template_items <$> sorted
    ∧ csv_rows o = template_cells <$> sorted
    ∧ StronglySorted record_lt sorted.
Proof.
  intros Hload' [Htitle [κ Hkind]].
  intros (all' & st & unique & sorted & Hload & _ & Huniq & Hsort & ->)
    %consolidate_Ok.
  assert (all' = all_templates) as -> by congruence.
  exists sorted. split; [done|]. split; [done|].
  destruct (unique_templates_spec _ Htitle) as (unique' & Huniq' & Hbest).
  assert (unique' = unique) as -> by congruence.
  pose proof (unique_templates_subset _ _ Huniq) as Hsub.
  destruct (sort_templates_ordered κ unique) as (sorted' & Hsort' & _ & Hle);
    [by eapply Forall_subset.. |].
  assert (sorted' = sorted) as -> by congruence.
  assert (NoDup (trimmed_title <$> sorted)) as Hnd.
  { rewrite (sort_templates_perm _ _ Hsort), (is_best_titles _ _ _ Hbest).
    apply NoDup_first_seen. }
  by apply (StronglySorted_strict record_le record_lt trimmed_title);
    [apply record_le_lt | |].
Qed.

(** The run on [demo_sources]. *)
Lemma output_strictly_sorted_witness :
  load_all demo_sources = Ok demo_loaded
  ∧ orderable demo_loaded
  ∧ consolidate demo_sources = Ok demo_output
  ∧ ∃ sorted, json_records demo_output = template_items <$> sorted
      ∧ csv_rows demo_output = template_cells <$> sorted
      ∧ StronglySorted record_lt sorted.
Proof.
  assert (orderable demo_loaded) as Hord.
  { split; [repeat constructor | exists Text; repeat constructor]. }
  split; [vm_compute; reflexivity|]. split; [done|].
  split; [vm_compute; reflexivity|].
  apply (output_strictly_sorted demo_sources demo_loaded demo_output);
    [vm_compute; reflexivity | done | vm_compute; reflexivity].
Defined.

(** X14: a run writes as many CSV rows and JSON objects as there are distinct
    trimmed titles among the records it loaded. *)
Theorem output_size_distinct_titles (src : sources) (o : output) :
  consolidate src = Ok o →
  ∃ all_templates, load_all src = Ok all_templates
    ∧ length (json_records o)
      = size (list_to_set (trimmed_title <$> all_templates) : gset pystr)
    ∧ length (csv_rows o) = length (json_records o).
Proof.
  intros (all_templates & st & unique & sorted & Hload & _ & Huniq & Hsort & ->)
    %consolidate_Ok.
  exists all_templates. split; [done|]. simpl. rewrite !length_fmap.
  split; [|done].
  pose proof (unique_templates_Ok_text _ _ Huniq) as Hall.
  destruct (unique_templates_spec _ Hall) as (unique' & Huniq' & Hbest).
  assert (unique' = unique) as -> by congruence.
  rewrite (sort_templates_perm _ _ Hsort), <- first_seen_size.
  symmetry. by eapply Forall2_length.
Qed.

(** The run on [demo_sources]. *)
Lemma output_size_distinct_titles_witness :
  consolidate demo_sources = Ok demo_output
  ∧ ∃ all_templates, load_all demo_sources = Ok all_templates
      ∧ length (json_records demo_output)
        = size (list_to_set (trimmed_title <$> all_templates) : gset pystr)
      ∧ length (csv_rows demo_output) = length (json_records demo_output).
Proof.
  split; [vm_compute; reflexivity|].
  apply (output_size_distinct_titles demo_sources demo_output).
  vm_compute; reflexivity.
Defined.

(** X15: when the five files load but a loaded record has a title or a
    content that is not a str, the run ends in AttributeError before anything
    is written. *)
Theorem consolidate_raises_on_non_text (src : sources) (all_templates : list template) :
  load_all src = Ok all_templates →
  Exists (λ t, ¬ text_record t) all_templates →
  consolidate src = Raise AttributeError.
Proof.
  intros Hload Hex. unfold consolidate, consolidate_records.
  by rewrite Hload, bind_Ok_l, (detect_raises _ Hex).
Qed.

(** A short CSV row loads as [short_record], whose content is [None]. *)
Lemma consolidate_raises_on_non_text_witness :
  load_all short_row_sources = Ok [short_record]
  ∧ Exists (λ t, ¬ text_record t) [short_record]
  ∧ consolidate short_row_sources = Raise AttributeError.
Proof.
  assert (Exists (λ t, ¬ text_record t) [short_record]) as Hex.
  { left. intros [_ Hco]. discriminate Hco. }
  split; [vm_compute; reflexivity|]. split; [exact Hex|].
  apply (consolidate_raises_on_non_text short_row_sources [short_record]);
    [vm_compute; reflexivity | exact Hex].
Defined.

(** ** Text that the output files cannot hold *)








(** ** Edge cases of the loaders *)

Lemma fmap_Ok {A B} (m : result A) (f : A → B) (b : B) :
  f <$> m = Ok b ↔ ∃ a, m = Ok a ∧ b = f a.
Proof.
  destruct m as [a|e]; simpl.
  - split; [intros [= <-]; eauto | by intros (a' & [= <-] & ->)].
  - split; [done | by intros (? & ? & ?)].
Qed.

(** An item of a JSON document that is not an object, such as a string,
    a number or [null], makes either JSON loop raise AttributeError at its
    first [item.get]. *)
Lemma json_item_not_object (item : pyval) :
  (∀ d, item ≠ VDict d) →
  load_sample_json_item item = Raise AttributeError
  ∧ load_plaintext_json_item item = Raise AttributeError.
Proof.
  intros Hno. destruct item; try done. by destruct (Hno d).
Qed.

(** X16: a JSON document that is not an array is iterated all the same: an
    object yields its keys and a string its characters, on which the loop
    raises AttributeError unless there are none, in which case no record is
    loaded; a number, a boolean or [null] raises TypeError. *)
Theorem json_document_not_array (f : pyval → result template) (doc : pyval) :
  f = load_sample_json_item ∨ f = load_plaintext_json_item →
  py_iter doc ≫= load_rows f =
    match doc with
    | VList items => load_rows f items
    | VDict [] | VStr [] => Ok []
    | VDict _ | VStr _ => Raise AttributeError
    | _ => Raise TypeError
    end.
Proof.
  intros [-> | ->]; destruct doc as [| | | |s|items|d]; try done;
    try (by destruct s); by destruct d.
Qed.

(** A document that is one object instead of an array of objects. *)
Lemma json_document_not_array_witness :
  (load_sample_json_item = load_sample_json_item
   ∨ load_sample_json_item = load_plaintext_json_item)
  ∧ py_iter (VDict untagged_item) ≫= load_rows load_sample_json_item
    = Raise AttributeError.
Proof.
  split; [left; reflexivity|].
  apply (json_document_not_array load_sample_json_item (VDict untagged_item)).
  left; reflexivity.
Defined.

(** X17: the tags of a record loaded from a JSON document are never a list: a
    list of strs has been joined into one str, and an item without tags gets
    the empty str. *)
Theorem json_tags_never_list (l : loader) (row : pydict) (t : template) :
  json_source l = true →
  load_row l row = Ok t →
  (∀ x, tags t ≠ VList x)
  ∧ (dict_lookup row (str "tags") = None → tags t = VStr []).
Proof.
  assert (∀ tg, item_tags (VDict row) = Ok tg →
            (∀ x, tg ≠ VList x)
            ∧ (dict_lookup row (str "tags") = None → tg = VStr [])) as Htags.
  { unfold item_tags, item_get, dict_get. rewrite bind_Ok_l. intros tg.
    destruct (dict_lookup row (str "tags")) as [v|].
    - destruct v as [| | | | |vs|]; try (intros [= <-]; by split).
      intros (s & _ & ->)%fmap_Ok. by split.
    - simpl. intros [= <-]. by split. }
  destruct l; try done; intros _ H; unfold load_row, load_sample_json_item,
    load_plaintext_json_item in H; apply bind_Ok in H as (tg & Htg & H);
    apply Htags in Htg; simpl in H; inv_bind; subst t; exact Htg.
Qed.

(** An object without tags is loaded with the empty str as its tags. *)
Lemma json_tags_never_list_witness :
  json_source PlaintextJson = true
  ∧ load_row PlaintextJson untagged_item = Ok untagged_record
  ∧ (∀ x, tags untagged_record ≠ VList x)
  ∧ (dict_lookup untagged_item (str "tags") = None → tags untagged_record = VStr []).
Proof.
  split; [reflexivity|]. split; [vm_compute; reflexivity|].
  apply (json_tags_never_list PlaintextJson untagged_item untagged_record);
    [reflexivity | vm_compute; reflexivity].
Defined.

Lemma split_on_free (c : N) (s : pystr) : c ∉ s → split_on c s = [s].
Proof.
  induction s as [|x s IH]; intros Hc; simpl; [done|].
  rewrite (proj2 (N.eqb_neq x c)) by set_solver.
  rewrite IH by set_solver. done.
Qed.

Lemma split_on_app (c : N) (a r : pystr) :
  c ∉ a → split_on c (a ++ c :: r) = a :: split_on c r.
Proof.
  induction a as [|x a IH]; intros Hc; simpl.
  { by rewrite N.eqb_refl. }
  rewrite (proj2 (N.eqb_neq x c)) by set_solver.
  rewrite IH by set_solver. done.
Qed.

(** Splitting the joined text at the separator gives the list back. *)
Lemma split_on_join (c : N) (l : list pystr) :
  Forall (λ s, c ∉ s) l → l ≠ [] →
  ∃ s, py_join [c] (VStr <$> l) = Ok s ∧ split_on c s = l.
Proof.
  induction 1 as [|a l Ha Hl IH]; intros Hne; [done|].
  destruct l as [|b l].
  { exists a. split; [done | by apply split_on_free]. }
  destruct IH as (r & Hr & Hsplit); [done|].
  exists (a ++ [c] ++ r). split.
  - rewrite !fmap_cons in *.
    change (py_join [c] (VStr a :: VStr b :: (VStr <$> l)))
      with (r ← py_join [c] (VStr b :: (VStr <$> l)); Ok (a ++ [c] ++ r)).
    by rewrite Hr.
  - simpl. by rewrite split_on_app, Hsplit.
Qed.

(** X18: joining loses nothing on tag lists that are not empty and whose tags
    hold no comma: two such lists with the same joined text are the same
    list. *)
Theorem json_tags_lossless (l1 l2 : list pystr) :
  l1 ≠ [] → l2 ≠ [] →
  Forall (λ s, 44%N ∉ s) l1 → Forall (λ s, 44%N ∉ s) l2 →
  py_join (str ",") (VStr <$> l1) = py_join (str ",") (VStr <$> l2) →
  l1 = l2.
Proof.
  intros Hne1 Hne2 Hl1 Hl2 Heq.
  destruct (split_on_join 44 l1 Hl1 Hne1) as (s1 & Hs1 & <-).
  destruct (split_on_join 44 l2 Hl2 Hne2) as (s2 & Hs2 & <-).
  change (str ",") with [44%N] in Heq. congruence.
Qed.

(** The tags "mail" and "team" hold no comma. *)
Lemma json_tags_lossless_witness :
  [str "mail"; str "team"] ≠ []
  ∧ Forall (λ s, 44%N ∉ s) [str "mail"; str "team"]
  ∧ py_join (str ",") (VStr <$> [str "mail"; str "team"])
    = py_join (str ",") (VStr <$> [str "mail"; str "team"])
  ∧ [str "mail"; str "team"] = [str "mail"; str "team"].
Proof.
  assert (Forall (λ s, 44%N ∉ s) [str "mail"; str "team"]) as Hfree.
  { apply (bool_decide_unpack _). vm_compute. exact I. }
  split; [discriminate|]. split; [exact Hfree|]. split; [reflexivity|].
  apply (json_tags_lossless [str "mail"; str "team"] [str "mail"; str "team"]);
    [discriminate | discriminate | exact Hfree | exact Hfree | reflexivity].
Defined.

Lemma is_space_no_digit (c : N) :
  is_space c = true →
  digit_value c = None ∧ (c =? 45)%N = false ∧ (c =? 43)%N = false.
Proof.
  unfold is_space. rewrite !orb_true_iff, !andb_true_iff, !N.leb_le, !N.eqb_eq.
  intros H.
  assert (c = 9 ∨ c = 10 ∨ c = 11 ∨ c = 12 ∨ c = 13 ∨ c = 28 ∨ c = 29 ∨ c = 30
          ∨ c = 31 ∨ c = 32 ∨ c = 133 ∨ c = 160 ∨ c = 5760 ∨ c = 8192
          ∨ c = 8193 ∨ c = 8194 ∨ c = 8195 ∨ c = 8196 ∨ c = 8197 ∨ c = 8198
          ∨ c = 8199 ∨ c = 8200 ∨ c = 8201 ∨ c = 8202 ∨ c = 8232 ∨ c = 8233
          ∨ c = 8239 ∨ c = 8287 ∨ c = 12288)%N as Hc by lia.
  clear H. repeat (destruct Hc as [->|Hc]; [by vm_compute|]). subst. by vm_compute.
Qed.

Lemma int_of_str_all_space (s : pystr) : all_space s → int_of_str s = Raise ValueError.
Proof.
  intros Hs. unfold int_of_str.
  assert (∀ c, c ∈ int_strip s → is_space c = true) as Hbody.
  { intros c Hc%elem_of_int_strip. unfold all_space in Hs.
    rewrite Forall_forall in Hs. by apply Hs. }
  destruct (int_strip s) as [|c r]; [done|].
  destruct (is_space_no_digit c) as (Hd & -> & ->); [apply Hbody; left|].
  simpl. by rewrite Hd.
Qed.

(** X19: a count cell of a CSV file that holds whitespace only and is not
    empty raises ValueError in all three CSV loops: the guard of the plaintext
    and analyzed loops lets it through to [int]. *)
Theorem blank_count_cell_raises (l : loader) (row : pydict) (s : pystr) :
  csv_source l = true →
  dict_lookup row (str "viewCount") = Some (VStr s) →
  s ≠ [] → all_space s →
  load_row l row = Raise ValueError.
Proof.
  intros Hl Hrow Hne Hs.
  destruct l; try done; unfold load_row, load_sample_csv_row,
    load_plaintext_csv_row, load_analyzed_csv_row, load_plain_csv_row,
    guarded_count, dict_get; rewrite Hrow; simpl;
    rewrite ?bool_decide_eq_false_2 by done; simpl;
    by rewrite int_of_str_all_space.
Qed.

(** The view count of [blank_cell_row] is one blank. *)
Lemma blank_count_cell_raises_witness :
  csv_source PlaintextCsv = true
  ∧ dict_lookup blank_cell_row (str "viewCount") = Some (VStr (str " "))
  ∧ str " " ≠ []
  ∧ all_space (str " ")
  ∧ load_row PlaintextCsv blank_cell_row = Raise ValueError.
Proof.
  split; [reflexivity|]. split; [reflexivity|]. split; [discriminate|].
  split; [repeat constructor|].
  apply (blank_count_cell_raises PlaintextCsv blank_cell_row (str " "));
    [reflexivity | reflexivity | discriminate | repeat constructor].
Defined.

(** ** The reading loops as a whole *)

Lemma load_rows_length {A} (f : A → result template) (rows : list A)
    (ts : list template) :
  load_rows f rows = Ok ts → length ts = length rows.
Proof.
  revert ts. induction rows as [|r rows IH]; intros ts H; simpl in H.
  { by injection H as <-. }
  inv_bind. subst ts. simpl. f_equal. by apply IH.
Qed.

(** X21: when the five files load, [all_templates] holds one record for each
    row of the three CSV files and each item of the two JSON documents. *)
Theorem load_all_length (src : sources) (all_templates : list template) :
  load_all src = Ok all_templates →
  ∃ items2 items4,
    py_iter (sample_json src) = Ok items2
    ∧ py_iter (plaintext_json src) = Ok items4
    ∧ length all_templates
      = (length (sample_csv src) + length items2 + length (plaintext_csv src)
         + length items4 + length (analyzed_csv src))%nat.
Proof.
  unfold load_all. intros H. inv_bind. subst all_templates.
  repeat match goal with
         | Hl : load_rows _ _ = Ok _ |- _ => apply load_rows_length in Hl
         end.
  eexists _, _. split; [eassumption|]. split; [eassumption|].
  rewrite !length_app. lia.
Qed.

(** The three files of [demo_sources] that are not empty hold one row each. *)
Lemma load_all_length_witness :
  load_all demo_sources = Ok demo_loaded
  ∧ ∃ items2 items4,
      py_iter (sample_json demo_sources) = Ok items2
      ∧ py_iter (plaintext_json demo_sources) = Ok items4
      ∧ length demo_loaded
        = (length (sample_csv demo_sources) + length items2
           + length (plaintext_csv demo_sources)
           + length items4 + length (analyzed_csv demo_sources))%nat.
Proof.
  split; [vm_compute; reflexivity|].
  apply (load_all_length demo_sources demo_loaded). vm_compute; reflexivity.
Defined.

(** A record carries the title, content, category, author and visibility
    of its row as they are, untrimmed, and the empty str for each of them the
    row does not have; the CSV loops treat the tags the same way. *)
Lemma loader_text_fields (l : loader) (row : pydict) (t : template) :
  load_row l row = Ok t →
  title t = dict_get row (str "title") empty_str
  ∧ content t = dict_get row (str "content") empty_str
  ∧ category t = dict_get row (str "category") empty_str
  ∧ authorEmail t = dict_get row (str "authorEmail") empty_str
  ∧ visibility t = dict_get row (str "visibility") empty_str
  ∧ (csv_source l = true → tags t = dict_get row (str "tags") empty_str).
Proof.
  destruct l; unfold load_row; simpl;
    unfold load_plaintext_csv_row, load_analyzed_csv_row,
      load_sample_csv_row, load_sample_json_item, load_plaintext_json_item,
      load_plain_csv_row;
    intros H; inv_bind; simpl in *; inv_bind; subst; simpl; repeat split; done.
Qed.


(** ** The order of the deduplicated list *)

Lemma first_at_cons_ne (h k : pystr) (l : list pystr) (p : nat) :
  h ≠ k → first_at l k p → first_at (h :: l) k (S p).
Proof.
  intros Hne [Hp Hmin]. split; [done|].
  intros [|j] Hj; simpl; [congruence|]. apply Hmin. lia.
Qed.

Lemma first_seen_order (processed : gset pystr) (l : list pystr)
    (i j : nat) (x y : pystr) :
  (i < j)%nat →
  first_seen processed l !! i = Some x →
  first_seen processed l !! j = Some y →
  ∃ p q, (p < q)%nat ∧ first_at l x p ∧ first_at l y q.
Proof.
  revert processed i j. induction l as [|h l IH]; intros processed i j Hij Hi Hj;
    simpl in *; [done|].
  assert (∀ P k n, first_seen P l !! n = Some k → k ∈ l ∧ k ∉ P) as Hin.
  { intros P k n Hk. apply elem_of_first_seen. by eapply list_elem_of_lookup_2. }
  destruct (decide (h ∈ processed)) as [Hh|Hh].
  - destruct (IH _ _ _ Hij Hi Hj) as (p & q & Hpq & Hx & Hy).
    destruct (Hin _ _ _ Hi) as [_ Hxp]. destruct (Hin _ _ _ Hj) as [_ Hyp].
    exists (S p), (S q). split; [lia|].
    split; apply first_at_cons_ne; try done; set_solver.
  - destruct j as [|j]; [lia|]. simpl in Hj.
    destruct (Hin _ _ _ Hj) as [Hyl Hyp].
    destruct i as [|i]; simpl in Hi.
    + injection Hi as <-.
      destruct (first_index l y) as [q|] eqn:Hq.
      2: { by apply first_index_None in Hq. }
      apply first_index_Some in Hq.
      exists 0%nat, (S q). split; [lia|]. split.
      * split; [done|]. intros ? ?. lia.
      * apply first_at_cons_ne; [set_solver | done].
    + assert (i < j)%nat as Hij' by lia.
      destruct (IH _ _ _ Hij' Hi Hj) as (p & q & Hpq & Hx & Hy).
      destruct (Hin _ _ _ Hi) as [_ Hxp].
      exists (S p), (S q). split; [lia|].
      split; apply first_at_cons_ne; try done; set_solver.
Qed.

(** X22: before the sort, the kept records stand in the order in which their
    trimmed titles first occur among the loaded records. *)
Theorem dedup_first_seen_order (all_templates : list template) :
  Forall text_title all_templates →
  ∃ unique, unique_templates all_templates = Ok unique ∧
    ∀ i j a b, (i < j)%nat → unique !! i = Some a → unique !! j = Some b →
      ∃ p q, (p < q)%nat
        ∧ first_at (trimmed_title <$> all_templates) (trimmed_title a) p
        ∧ first_at (trimmed_title <$> all_templates) (trimmed_title b) q.
Proof.
  intros Hall.
  destruct (unique_templates_spec _ Hall) as (unique & Huniq & Hbest).
  exists unique. split; [done|]. intros i j a b Hij Hi Hj.
  pose proof (is_best_titles _ _ _ Hbest) as Htitles.
  apply (first_seen_order ∅ _ i j); [done | |];
    rewrite <- Htitles, list_lookup_fmap; [by rewrite Hi | by rewrite Hj].
Qed.

(** The three records of [email_drafts] have text titles. *)
Lemma dedup_first_seen_order_witness :
  Forall text_title email_drafts
  ∧ ∃ unique, unique_templates email_drafts = Ok unique ∧
      ∀ i j a b, (i < j)%nat → unique !! i = Some a → unique !! j = Some b →
        ∃ p q, (p < q)%nat
          ∧ first_at (trimmed_title <$> email_drafts) (trimmed_title a) p
          ∧ first_at (trimmed_title <$> email_drafts) (trimmed_title b) q.
Proof.
  split; [repeat constructor|].
  apply (dedup_first_seen_order email_drafts). repeat constructor.
Defined.
